(** * quizzpp: the quiz authoring model, the quiz-taking engine and the
      results aggregator, embedded from the TypeScript sources

    Sources embedded here:
    - [src/pages/CreateQuiz.tsx] and [src/pages/EditQuiz.tsx]: the
      handlers of the authoring forms;
    - [src/pages/TakeQuiz.tsx]: the handlers of the quiz-taking page;
    - [src/pages/QuizResults.tsx]: [calculateStats] and [exportToCSV];
    - [src/types/database.ts]: the row types.

    Conventions.
    - A JavaScript string is a [string]: a sequence of code units, here the
      code units U+0000..U+00FF.
    - A JavaScript number that the code computes with ([/], [*],
      [Math.round]) is a binary64 [float]; array lengths and positions,
      which are non-negative integers, are [nat], and the integer columns
      of the store are [Z].
    - Question objects are mutated in place by some handlers, so those
      handlers run over an object store in which the array [questions]
      and its copy [newQuestions] hold the same references.
    - [handleSubmit] of the quiz-taking page awaits the store while the
      page stays live: in a session its two halves are steps of their
      own, and the other handlers run between them. *)

From Stdlib Require Import ZArith Lia Bool Ascii String DecimalString Floats.
From stdpp Require Import base option list strings.

Open Scope string_scope.
Open Scope list_scope.

(** ** JavaScript values the handlers rely on *)

Module JS.

(** White space recognised by [String.prototype.trim] among the code
    units U+0000..U+00FF: TAB, LF, VT, FF, CR, SP and NBSP. *)
Definition isWhiteSpace (c : ascii) : bool :=
  let n := nat_of_ascii c in
  ((9 <=? n)%nat && (n <=? 13)%nat) || (n =? 32)%nat || (n =? 160)%nat.

Fixpoint trimStart (s : string) : string :=
  match s with
  | EmptyString => EmptyString
  | String c s' => if isWhiteSpace c then trimStart s' else s
  end.

(** [trimEnd] drops the trailing white space: a character is kept when
    it is not white space or when something is kept after it. *)
Fixpoint trimEnd (s : string) : string :=
  match s with
  | EmptyString => EmptyString
  | String c s' =>
      match trimEnd s' with
      | EmptyString => if isWhiteSpace c then EmptyString else String c EmptyString
      | t => String c t
      end
  end.

Definition trim (s : string) : string := trimEnd (trimStart s).

(** [!s]: the empty string is the only falsy string. *)
Definition falsy (s : string) : bool :=
  match s with EmptyString => true | String _ _ => false end.

(** [a === b] where either side may be [undefined] ([None]); the
    defined values compared in the sources are strings. *)
Definition strict_eq (a b : option string) : bool :=
  match a, b with
  | Some x, Some y => String.eqb x y
  | None, None => true
  | _, _ => false
  end.

(** [arr.includes(x)] on an array of strings. *)
Definition includes (arr : list string) (x : string) : bool :=
  existsb (String.eqb x) arr.

(** [arr.some(p)]. *)
Definition some {A} (p : A -> bool) (arr : list A) : bool := existsb p arr.

(** [arr.splice(i, 1)] for a position [i >= 0]: the element at [i] is
    removed in place; past the end nothing is removed. *)
Definition splice1 {A} (i : nat) (arr : list A) : list A := delete i arr.

(** [arr[i] = v] on a dense array: in range the slot is overwritten, at
    [i = arr.length] the array grows by one; further out it would
    become sparse, which [string[]] cannot hold ([None]). *)
Definition assign {A} (arr : list A) (i : nat) (v : A) : option (list A) :=
  if (i <? length arr)%nat then Some (<[i := v]> arr)
  else if (i =? length arr)%nat then Some (arr ++ [v])
  else None.

(** [arr.join(sep)] on an array of strings. *)
Definition join (sep : string) (arr : list string) : string :=
  String.concat sep arr.

(** [s.startsWith(p)]. *)
Definition startsWith (s p : string) : bool := String.prefix p s.

(** Decimal rendering of an array position or length. *)
Definition nat_toString (n : nat) : string :=
  NilEmpty.string_of_uint (Nat.to_uint n).

(** Decimal rendering of an integer. *)
Definition Z_toString (z : Z) : string :=
  NilZero.string_of_int (Z.to_int z).

(** The binary64 value of an integer (round to nearest, ties to even). *)
Definition Z2F (z : Z) : float :=
  SF2Prim (binary_normalize prec emax z 0 false).

Definition nat2F (n : nat) : float := Z2F (Z.of_nat n).

(** [floor(x + 1/2)] for [x = (-1)^s * m * 2^e], computed exactly. *)
Definition floor_half (s : bool) (m : positive) (e : Z) : Z :=
  let v := if s then Z.neg m else Z.pos m in
  if (0 <=? e)%Z then (v * 2 ^ e)%Z
  else ((2 * v + 2 ^ (- e)) / 2 ^ (- e + 1))%Z.

(** [Math.round(x)]: NaN, the infinities, the zeros and every integral
    value are returned as they are; otherwise the nearest integer, the
    upper one on a tie, with [-0] for [-0.5 <= x < 0]. *)
Definition Math_round (x : float) : float :=
  match Prim2SF x with
  | S754_finite s m e =>
      if (0 <=? e)%Z then x
      else
        let k := floor_half s m e in
        if (k =? 0)%Z then (if s then (-0)%float else 0%float) else Z2F k
  | _ => x
  end.

End JS.

(** ** Data model ([src/types/database.ts]) *)

(** The two identifying columns of a question row. *)
Record Ids : Type := mkIds { id : string; quiz_id : string }.

(** [Question]. [I] is the type of the identifying part: [Ids] for the
    interface [Question] itself, [unit] for
    [Omit<Question, 'id' | 'quiz_id'>], the type of the drafts held by
    the create form. *)
Record Question (I : Type) : Type := mkQuestion {
  ident : I;
  question_text : string;
  options : list string;
  correct_answer : string;
  order_index : Z
}.
Arguments mkQuestion {I}.
Arguments ident {I}.
Arguments question_text {I}.
Arguments options {I}.
Arguments correct_answer {I}.
Arguments order_index {I}.

(** [Response] rows as the results page reads them. *)
Record Response : Type := mkResponse {
  r_id : string;
  r_quiz_id : string;
  student_name : string;
  student_email : string;
  student_register_number : string;
  answers : list string;
  score : Z;
  total_questions : Z;
  submitted_at : string
}.

(** How a handler ends. *)
Inductive after (S : Type) : Type :=
| Done (s : S)    (** it returned; [s] is the component state afterwards *)
| Threw (s : S)   (** a [TypeError] escaped it; [s] is the state left behind *)
| OffType.        (** it built a value outside the declared types
                      (a sparse array, an [undefined] array slot) *)
Arguments Done {S}.
Arguments Threw {S}.
Arguments OffType {S}.

(** ** The authoring model *)

Section Setters.
Context {I : Type}.

Definition set_options (q : Question I) (o : list string) : Question I :=
  mkQuestion (ident q) (question_text q) o (correct_answer q) (order_index q).

Definition set_correct_answer (q : Question I) (c : string) : Question I :=
  mkQuestion (ident q) (question_text q) (options q) c (order_index q).

(** [{ ...q, order_index: i }] *)
Definition set_order_index (q : Question I) (i : Z) : Question I :=
  mkQuestion (ident q) (question_text q) (options q) (correct_answer q) i.

End Setters.

(** *** Handlers that mutate question objects in place

    [const newQuestions = [...questions]] copies the array, not the
    objects: [newQuestions[i]] and [questions[i]] are one object.  The
    store below maps references to question objects; arrays hold
    references.  The [options] array of a question is reached through
    its question only, and no two questions of a state share one, so it
    is kept inside the question object: [q.options.splice(..)] is a write
    to the object [q]. *)

Module Heap.

Inductive outcome (A : Type) : Type :=
| Ret (a : A)
| Exn            (** a TypeError is thrown *)
| Off.           (** a value outside the declared types is built *)
Arguments Ret {A}.
Arguments Exn {A}.
Arguments Off {A}.

(** A reference: the address of a question object. *)
Abbreviation ref := nat.

Section Heap.
Context {I : Type}.

(** The object store: the object a reference denotes. *)
Abbreviation store := (list (Question I)).

(** A computation over the object store.  The store is returned in every
    case: an exception does not undo earlier writes. *)
Definition M (A : Type) : Type := store -> outcome A * store.

#[export] Instance M_ret : MRet M := fun A (a : A) h => (Ret a, h).

#[export] Instance M_bind : MBind M := fun A B (k : A -> M B) (m : M A) h =>
  match m h with
  | (Ret a, h') => k a h'
  | (Exn, h') => (Exn, h')
  | (Off, h') => (Off, h')
  end.

(** Read a property of [r], the result of an array access: reading a
    property of [undefined] throws. *)
Definition read {A} (r : option ref) (field : Question I -> A) : M A :=
  fun h =>
    match r with
    | None => (Exn, h)
    | Some l =>
        match h !! l with
        | Some q => (Ret (field q), h)
        | None => (Off, h)
        end
    end.

(** Update the object [r] refers to, in place. *)
Definition write (r : option ref) (f : Question I -> Question I) : M unit :=
  fun h =>
    match r with
    | None => (Exn, h)
    | Some l =>
        match h !! l with
        | Some q => (Ret tt, <[l := f q]> h)
        | None => (Off, h)
        end
    end.

(** [r.options[i] = v], in place. *)
Definition write_option (r : option ref) (i : nat) (v : string) : M unit :=
  fun h =>
    match r with
    | None => (Exn, h)
    | Some l =>
        match h !! l with
        | Some q =>
            match JS.assign (options q) i v with
            | Some o => (Ret tt, <[l := set_options q o]> h)
            | None => (Off, h)
            end
        | None => (Off, h)
        end
    end.

(** The question list an array of references denotes. *)
Definition view (h : store) (arr : list ref) : option (list (Question I)) :=
  mapM (fun l => h !! l) arr.

(** Run a handler on the state [qs]: each question is an object of its
    own, [questions] holds their references in order.  The handler
    returns the array it passed to [setQuestions], or [questions] itself
    when it returned without calling it. *)
Definition run (handler : list ref -> M (list ref))
    (qs : list (Question I)) : after (list (Question I)) :=
  let questions := seq 0 (length qs) in
  match handler questions qs with
  | (Ret arr, h) =>
      match view h arr with Some qs' => Done qs' | None => OffType end
  | (Exn, h) =>
      match view h questions with Some qs' => Threw qs' | None => OffType end
  | (Off, _) => OffType
  end.

End Heap.
End Heap.
Import Heap.

(** *** Handlers with the same text in both forms *)

Inductive Direction : Type := up | down.

(** The fields the forms pass to [updateQuestion]. *)
Inductive Field : Type := question_text_field | correct_answer_field.

Section Authoring.
Context {I : Type}.

(** [list.map((q, i) => ({ ...q, order_index: i }))] *)
Definition resequence (qs : list (Question I)) : list (Question I) :=
  imap (fun i q => set_order_index q (Z.of_nat i)) qs.

(** [list.filter((x, i) => p(x, i))], from position [i] on *)
Fixpoint filteri {A} (p : A -> nat -> bool) (i : nat) (l : list A) : list A :=
  match l with
  | [] => []
  | x :: l' => if p x i then x :: filteri p (S i) l' else filteri p (S i) l'
  end.

(** [moveQuestion] (CreateQuiz.tsx 45-53, EditQuiz.tsx 92-100).  The
    destructuring swap reads both slots, then writes slot [index], then
    slot [newIndex]; an [index] outside the array would store
    [undefined] in a slot. *)
Definition moveQuestion (index : nat) (direction : Direction)
    (questions : list (Question I)) : after (list (Question I)) :=
  let newQuestions := questions in
  let newIndex : Z :=
    match direction with
    | up => (Z.of_nat index - 1)%Z
    | down => (Z.of_nat index + 1)%Z
    end in
  if (newIndex <? 0)%Z || (Z.of_nat (length newQuestions) <=? newIndex)%Z
  then Done questions
  else
    match newQuestions !! Z.to_nat newIndex, newQuestions !! index with
    | Some qn, Some qi =>
        let newQuestions := <[index := qn]> newQuestions in
        let newQuestions := <[Z.to_nat newIndex := qi]> newQuestions in
        Done (resequence newQuestions)
    | _, _ => OffType
    end.

(** [updateQuestion] (CreateQuiz.tsx 55-59, EditQuiz.tsx 102-106), for
    the two fields the forms pass and their text values *)
Definition updateQuestion (index : nat) (field : Field) (value : string)
    (questions : list (Question I)) : after (list (Question I)) :=
  let newQuestions := questions in
  match newQuestions !! index with
  | Some q =>
      Done (<[index :=
                match field with
                | question_text_field =>
                    mkQuestion (ident q) value (options q) (correct_answer q)
                               (order_index q)
                | correct_answer_field => set_correct_answer q value
                end]> newQuestions)
  | None => OffType                  (* [{ ...undefined, [field]: value }] *)
  end.

(** [addOption] (CreateQuiz.tsx 61-66, EditQuiz.tsx 108-113) *)
Definition addOption (questionIndex : nat) : list (Question I) -> after (list (Question I)) :=
  run (fun questions =>
    opts ← read (questions !! questionIndex) options;
    if (5 <=? length opts)%nat then mret questions
    else
      let newQuestions := questions in
      write (newQuestions !! questionIndex)
            (fun q => set_options q (options q ++ [""]));;
      mret newQuestions).

(** The alert [validateForm] raises before it returns [false]; the
    number is the [i + 1] of the message. *)
Inductive Alert : Type :=
| EnterTitle                   (** Please enter a quiz title *)
| EnterText (n : nat)          (** Please enter text for question n *)
| FillOptions (n : nat)        (** Please fill in all options for question n *)
| SelectCorrect (n : nat)      (** Please select a correct answer for question n *)
| CorrectNotAnOption (n : nat). (** The correct answer for question n must be
                                    one of the provided options *)

(** The body of the [for] loop of [validateForm], from position [i] on. *)
Fixpoint validateQuestions (i : nat) (questions : list (Question I)) : option Alert :=
  match questions with
  | [] => None
  | question :: rest =>
      if JS.falsy (JS.trim (question_text question)) then Some (EnterText (i + 1))
      else if JS.some (fun option => JS.falsy (JS.trim option)) (options question)
      then Some (FillOptions (i + 1))
      else if JS.falsy (JS.trim (correct_answer question)) then Some (SelectCorrect (i + 1))
      else if negb (JS.includes (options question) (correct_answer question))
      then Some (CorrectNotAnOption (i + 1))
      else validateQuestions (S i) rest
  end.

(** [validateForm] (CreateQuiz.tsx 85-116, EditQuiz.tsx 140-171):
    [None] is [return true], [Some a] is [alert(a); return false]. *)
Definition validateForm (title : string) (questions : list (Question I)) : option Alert :=
  if JS.falsy (JS.trim title) then Some EnterTitle
  else validateQuestions 0 questions.

End Authoring.

(** *** The create form ([src/pages/CreateQuiz.tsx]) *)

Module CreateQuiz.

(** [Omit<Question, 'id' | 'quiz_id'>] *)
Abbreviation Draft := (Question unit).

(** [useState] initial value, lines 13-20 *)
Definition initialQuestions : list Draft :=
  [mkQuestion tt "" [""; ""] "" 0].

(** lines 27-37 *)
Definition addQuestion (questions : list Draft) : list Draft :=
  questions ++ [mkQuestion tt "" [""; ""] "" (Z.of_nat (length questions))].

(** lines 39-43 *)
Definition removeQuestion (index : nat) (questions : list Draft) : list Draft :=
  if (length questions =? 1)%nat then questions
  else
    let newQuestions := filteri (fun _ i => negb (i =? index)%nat) 0 questions in
    resequence newQuestions.

(** lines 68-77.  The comparison reads [questions[questionIndex].options]
    after the splice, through the same object. *)
Definition removeOption (questionIndex optionIndex : nat) : list Draft -> after (list Draft) :=
  run (fun questions =>
    opts ← read (questions !! questionIndex) options;
    if (length opts <=? 2)%nat then mret questions
    else
      let newQuestions := questions in
      write (newQuestions !! questionIndex)
            (fun q => set_options q (JS.splice1 optionIndex (options q)));;
      correct ← read (newQuestions !! questionIndex) correct_answer;
      opts' ← read (questions !! questionIndex) options;
      (if JS.strict_eq (Some correct) (opts' !! optionIndex)
       then write (newQuestions !! questionIndex) (fun q => set_correct_answer q "")
       else mret tt);;
      mret newQuestions).

(** lines 79-83 *)
Definition updateOption (questionIndex optionIndex : nat) (value : string)
    : list Draft -> after (list Draft) :=
  run (fun questions =>
    let newQuestions := questions in
    write_option (newQuestions !! questionIndex) optionIndex value;;
    mret newQuestions).

(** What the author can do on the form short of saving it. *)
Inductive Event : Type :=
| AddQuestion
| RemoveQuestion (index : nat)
| MoveQuestion (index : nat) (direction : Direction)
| UpdateQuestion (index : nat) (field : Field) (value : string)
| AddOption (questionIndex : nat)
| RemoveOption (questionIndex optionIndex : nat)
| UpdateOption (questionIndex optionIndex : nat) (value : string).

Definition handle (e : Event) (questions : list Draft) : after (list Draft) :=
  match e with
  | AddQuestion => Done (addQuestion questions)
  | RemoveQuestion index => Done (removeQuestion index questions)
  | MoveQuestion index direction => moveQuestion index direction questions
  | UpdateQuestion index field value => updateQuestion index field value questions
  | AddOption qi => addOption qi questions
  | RemoveOption qi oi => removeOption qi oi questions
  | UpdateOption qi oi value => updateOption qi oi value questions
  end.

(** The question lists of a session of the form: it starts from
    [initialQuestions], and each handler leaves the next list, also when
    it throws. *)
Inductive reachable : list Draft -> Prop :=
| reach_initial : reachable initialQuestions
| reach_done qs e qs' :
    reachable qs -> handle e qs = Done qs' -> reachable qs'
| reach_threw qs e qs' :
    reachable qs -> handle e qs = Threw qs' -> reachable qs'.

End CreateQuiz.

(** *** The edit form ([src/pages/EditQuiz.tsx]) *)

Module EditQuiz.

(** A request sent to the [questions] table of the data store. *)
Inductive Request : Type :=
| DeleteQuestionById (x : string).   (** [.delete().eq('id', x)] *)

(** The component state together with what the handlers reach of the data
    store: the rows of the [questions] table and the requests sent to it. *)
Record State : Type := mkState {
  questions : list (Question Ids);
  table : list (Question Ids);
  sent : list Request
}.

(** How the store call ends. *)
Inductive Reply : Type :=
| Applied      (** the promise resolves and the store has applied the request *)
| Refused      (** the promise resolves with an [error] in its result, which
                   the handler does not look at; the table is unchanged *)
| Rejected.    (** the promise rejects: the [catch] block runs *)

(** [delete().eq('id', x)] on the rows of the table *)
Definition delete_eq_id (x : string) (rows : list (Question Ids)) : list (Question Ids) :=
  List.filter (fun row => negb (String.eqb (id (ident row)) x)) rows.

(** [await supabase.from('questions').delete().eq('id', x)]: the state
    after the call, and whether the promise rejected. *)
Definition await_delete (x : string) (reply : Reply) (st : State) : State * bool :=
  let sent' := sent st ++ [DeleteQuestionById x] in
  match reply with
  | Applied => (mkState (questions st) (delete_eq_id x (table st)) sent', false)
  | Refused => (mkState (questions st) (table st) sent', false)
  | Rejected => (mkState (questions st) (table st) sent', true)
  end.

(** [setQuestions(qs)] *)
Definition setQuestions (qs : list (Question Ids)) (st : State) : State :=
  mkState qs (table st) (sent st).

(** lines 73-90 *)
Definition removeQuestion (index : nat) (reply : Reply) (st : State) : after State :=
  if (length (questions st) =? 1)%nat then Done st
  else
    match questions st !! index with
    | None => Threw st                  (* [question.id] of [undefined] *)
    | Some question =>
        let '(st1, caught) :=
          if negb (JS.startsWith (id (ident question)) "temp-")
          then await_delete (id (ident question)) reply st
          else (st, false) in
        if caught then Done st1
        else
          let newQuestions :=
            filteri (fun _ i => negb (i =? index)%nat) 0 (questions st) in
          Done (setQuestions (resequence newQuestions) st1)
    end.

(** lines 115-126 *)
Definition removeOption (questionIndex optionIndex : nat)
    : list (Question Ids) -> after (list (Question Ids)) :=
  run (fun questions =>
    opts ← read (questions !! questionIndex) options;
    if (length opts <=? 2)%nat then mret questions
    else
      let newQuestions := questions in
      opts0 ← read (newQuestions !! questionIndex) options;
      let removedOption := opts0 !! optionIndex in
      write (newQuestions !! questionIndex)
            (fun q => set_options q (JS.splice1 optionIndex (options q)));;
      correct ← read (newQuestions !! questionIndex) correct_answer;
      (if JS.strict_eq (Some correct) removedOption
       then write (newQuestions !! questionIndex) (fun q => set_correct_answer q "")
       else mret tt);;
      mret newQuestions).

(** lines 128-138 *)
Definition updateOption (questionIndex optionIndex : nat) (value : string)
    : list (Question Ids) -> after (list (Question Ids)) :=
  run (fun questions =>
    let newQuestions := questions in
    opts0 ← read (newQuestions !! questionIndex) options;
    let oldValue := opts0 !! optionIndex in
    write_option (newQuestions !! questionIndex) optionIndex value;;
    correct ← read (newQuestions !! questionIndex) correct_answer;
    (if JS.strict_eq (Some correct) oldValue
     then write (newQuestions !! questionIndex) (fun q => set_correct_answer q value)
     else mret tt);;
    mret newQuestions).

(** lines 61-71; [now] is the text of [Date.now()] *)
Definition addQuestion (quizId now : string) (questions : list (Question Ids))
    : list (Question Ids) :=
  let newQuestion :=
    mkQuestion (mkIds ("temp-" ++ now) quizId) "" [""; ""] ""
               (Z.of_nat (length questions)) in
  questions ++ [newQuestion].

(** What the author can do on the form short of saving it. *)
Inductive Event : Type :=
| AddQuestion (quizId now : string)
| RemoveQuestion (index : nat) (reply : Reply)
| MoveQuestion (index : nat) (direction : Direction)
| UpdateQuestion (index : nat) (field : Field) (value : string)
| AddOption (questionIndex : nat)
| RemoveOption (questionIndex optionIndex : nat)
| UpdateOption (questionIndex optionIndex : nat) (value : string).

(** The state a handler that only calls [setQuestions] leaves. *)
Definition local (r : after (list (Question Ids))) (st : State) : after State :=
  match r with
  | Done qs => Done (setQuestions qs st)
  | Threw qs => Threw (setQuestions qs st)
  | OffType => OffType
  end.

Definition handle (e : Event) (st : State) : after State :=
  match e with
  | AddQuestion quizId now => Done (setQuestions (addQuestion quizId now (questions st)) st)
  | RemoveQuestion index reply => removeQuestion index reply st
  | MoveQuestion index direction => local (moveQuestion index direction (questions st)) st
  | UpdateQuestion index field value => local (updateQuestion index field value (questions st)) st
  | AddOption qi => local (addOption qi (questions st)) st
  | RemoveOption qi oi => local (removeOption qi oi (questions st)) st
  | UpdateOption qi oi value => local (updateOption qi oi value (questions st)) st
  end.

(** The state a handler leaves, when it leaves one. *)
Definition state_after {S} (r : after S) : option S :=
  match r with
  | Done s | Threw s => Some s
  | OffType => None
  end.

(** An editing session that is never saved: a run of events. *)
Inductive session : State -> State -> Prop :=
| session_here st : session st st
| session_step st e st1 st2 :
    state_after (handle e st) = Some st1 ->
    session st1 st2 ->
    session st st2.

(** lines 41-52: what [fetchQuiz] may set as [questions] when the store
    holds [table]: the rows of the quiz in ascending [order_index]; the
    store puts rows of equal [order_index] in an order of its choice. *)
Definition fetchQuiz (quizId : string) (table qs : list (Question Ids)) : Prop :=
  Permutation qs
    (List.filter (fun row => String.eqb (quiz_id (ident row)) quizId) table)
  /\ forall i j a b,
       (i <= j)%nat -> qs !! i = Some a -> qs !! j = Some b ->
       (order_index a <= order_index b)%Z.

End EditQuiz.

(** ** The quiz-taking engine ([src/pages/TakeQuiz.tsx]) *)

Module TakeQuiz.

(** A value of the object literal passed to [insert]. *)
Inductive Json : Type :=
| JString (s : string)
| JNumber (n : Z)
| JStrings (l : list string).

(** An object literal: its keys with their values, in order. *)
Definition Object : Type := list (string * Json).

(** [o[key]]: [None] when the object has no such key. *)
Fixpoint get (key : string) (o : Object) : option Json :=
  match o with
  | [] => None
  | (k, v) :: o' => if String.eqb k key then Some v else get key o'
  end.

(** The component state (lines 9-20; [loading] and [quiz] left out),
    with the [responses] table of the data store. *)
Record State : Type := mkState {
  id : string;                      (** the quiz id of the route *)
  questions : list (Question Ids);
  currentQuestion : nat;
  answers : list string;
  studentName : string;
  studentEmail : string;
  submitting : bool;
  submitted : bool;
  score : nat;
  showResults : bool;
  responses : list Object
}.

(** The state [fetchQuiz] leaves (lines 49-51) on top of the initial
    [useState] values. *)
Definition loaded (quizId : string) (questionsData : list (Question Ids)) : State :=
  mkState quizId questionsData 0 (replicate (length questionsData) "")
          "" "" false false 0 false [].

Definition setAnswers (a : list string) (st : State) : State :=
  mkState (id st) (questions st) (currentQuestion st) a (studentName st)
          (studentEmail st) (submitting st) (submitted st) (score st)
          (showResults st) (responses st).

Definition setCurrentQuestion (c : nat) (st : State) : State :=
  mkState (id st) (questions st) c (answers st) (studentName st)
          (studentEmail st) (submitting st) (submitted st) (score st)
          (showResults st) (responses st).

Definition setStudentName (n : string) (st : State) : State :=
  mkState (id st) (questions st) (currentQuestion st) (answers st) n
          (studentEmail st) (submitting st) (submitted st) (score st)
          (showResults st) (responses st).

Definition setStudentEmail (e : string) (st : State) : State :=
  mkState (id st) (questions st) (currentQuestion st) (answers st)
          (studentName st) e (submitting st) (submitted st) (score st)
          (showResults st) (responses st).

Definition setSubmitting (b : bool) (st : State) : State :=
  mkState (id st) (questions st) (currentQuestion st) (answers st)
          (studentName st) (studentEmail st) b (submitted st) (score st)
          (showResults st) (responses st).

(** lines 59-63; [None] when the write would make [answers] sparse *)
Definition handleAnswerChange (answer : string) (st : State) : option State :=
  let newAnswers := answers st in
  match JS.assign newAnswers (currentQuestion st) answer with
  | Some newAnswers => Some (setAnswers newAnswers st)
  | None => None
  end.

(** lines 65-69 *)
Definition nextQuestion (st : State) : State :=
  if (Z.of_nat (currentQuestion st) <? Z.of_nat (length (questions st)) - 1)%Z
  then setCurrentQuestion (currentQuestion st + 1) st
  else st.

(** lines 71-75 *)
Definition previousQuestion (st : State) : State :=
  if (0 <? currentQuestion st)%nat
  then setCurrentQuestion (currentQuestion st - 1) st
  else st.

(** The [for] loop of [calculateScore] from position [i] on: [rest] is
    [questions] from [i] on, [correctAnswers] the counter. *)
Fixpoint calculateScore_from (i : nat) (rest : list (Question Ids))
    (answers : list string) (correctAnswers : nat) : nat :=
  match rest with
  | [] => correctAnswers
  | question :: rest' =>
      calculateScore_from (S i) rest' answers
        (if JS.strict_eq (answers !! i) (Some (correct_answer question))
         then correctAnswers + 1
         else correctAnswers)
  end.

(** lines 77-85 *)
Definition calculateScore (st : State) : nat :=
  calculateScore_from 0 (questions st) (answers st) 0.

(** What [handleSubmit] tells the taker. *)
Inductive Alert : Type :=
| EnterNameAndEmail    (** Please enter your name and email *)
| AnswerAll            (** Please answer all questions before submitting *)
| SubmitFailed.        (** Failed to submit quiz. Please try again. *)

(** How the store answers the [insert]. *)
Inductive Reply : Type :=
| Inserted     (** no [error]: the row is in the table *)
| Failed.      (** an [error] comes back, or the promise rejects *)

(** The object literal of lines 104-111. *)
Definition row (st : State) (calculatedScore : nat) : Object :=
  [ ("quiz_id", JString (id st));
    ("student_name", JString (JS.trim (studentName st)));
    ("student_email", JString (JS.trim (studentEmail st)));
    ("answers", JStrings (answers st));
    ("score", JNumber (Z.of_nat calculatedScore));
    ("total_questions", JNumber (Z.of_nat (length (questions st)))) ].

(** lines 87-124, for a call during which nothing else is handled: the
    alert raised, if any, and the state afterwards.  The two halves of
    the handler, before and after the [await], follow as
    [handleSubmit_call] and [handleSubmit_resume]. *)
Definition handleSubmit (reply : Reply) (st : State) : option Alert * State :=
  if JS.falsy (JS.trim (studentName st)) || JS.falsy (JS.trim (studentEmail st))
  then (Some EnterNameAndEmail, st)
  else if JS.some (fun answer => JS.falsy (JS.trim answer)) (answers st)
  then (Some AnswerAll, st)
  else
    let st := setSubmitting true st in
    let calculatedScore := calculateScore st in
    match reply with
    | Failed => (Some SubmitFailed, setSubmitting false st)
    | Inserted =>
        (None,
         mkState (id st) (questions st) (currentQuestion st) (answers st)
                 (studentName st) (studentEmail st)
                 false                                (* finally *)
                 true                                 (* setSubmitted(true) *)
                 calculatedScore                      (* setScore *)
                 true                                 (* setShowResults(true) *)
                 (responses st ++ [row st calculatedScore]))
    end.

(** What the taker can do on the page. *)
Inductive Event : Type :=
| AnswerChange (answer : string)
| Next
| Previous
| StudentName (value : string)
| StudentEmail (value : string)
| Submit (reply : Reply).

Definition handle (e : Event) (st : State) : option State :=
  match e with
  | AnswerChange a => handleAnswerChange a st
  | Next => Some (nextQuestion st)
  | Previous => Some (previousQuestion st)
  | StudentName v => Some (setStudentName v st)
  | StudentEmail v => Some (setStudentEmail v st)
  | Submit reply => Some (snd (handleSubmit reply st))
  end.

(** What a call of [handleSubmit] holds while it awaits the store
    (line 102): the object it handed to [insert] and [calculatedScore]. *)
Record Pending : Type := mkPending {
  inserting : Object;
  calculatedScore : nat
}.

(** lines 88-111, [handleSubmit] up to the [await]: the alert and the
    return, or [setSubmitting(true)] and the request. *)
Definition handleSubmit_call (st : State) : (Alert + Pending) * State :=
  if JS.falsy (JS.trim (studentName st)) || JS.falsy (JS.trim (studentEmail st))
  then (inl EnterNameAndEmail, st)
  else if JS.some (fun answer => JS.falsy (JS.trim answer)) (answers st)
  then (inl AnswerAll, st)
  else
    let st := setSubmitting true st in
    let calculatedScore := calculateScore st in
    (inr (mkPending (row st calculatedScore) calculatedScore), st).

(** lines 113-123, [handleSubmit] from the [await] on.  [st] is the
    state of the component when the store replies: the setters write
    [calculatedScore] and constants, whatever the state has become. *)
Definition handleSubmit_resume (reply : Reply) (p : Pending) (st : State)
    : option Alert * State :=
  match reply with
  | Failed => (Some SubmitFailed, setSubmitting false st)
  | Inserted =>
      (None,
       mkState (id st) (questions st) (currentQuestion st) (answers st)
               (studentName st) (studentEmail st)
               false                                (* finally *)
               true                                 (* setSubmitted(true) *)
               (calculatedScore p)                  (* setScore *)
               true                                 (* setShowResults(true) *)
               (responses st ++ [inserting p]))
  end.

(** The states of a session, with the call of [handleSubmit] that awaits
    the store, if there is one.  While the store has not replied the
    page stays live: only the submit button is disabled (line 310), the
    radios, Previous and the name and e-mail inputs are not, so their
    handlers run between the two halves of [handleSubmit].  Once
    [showResults] is set the component renders the results view (lines
    138-207), which has no control: no handler runs from there. *)
Inductive running (quizId : string) (qs : list (Question Ids))
    : option Pending -> State -> Prop :=
| run_loaded : running quizId qs None (loaded quizId qs)
| run_handle p st e st' :
    running quizId qs p st ->
    showResults st = false ->
    (forall reply, e <> Submit reply) ->
    handle e st = Some st' ->
    running quizId qs p st'
| run_call st p st' :
    running quizId qs None st ->
    showResults st = false ->
    handleSubmit_call st = (inr p, st') ->
    running quizId qs (Some p) st'
| run_resume p st reply :
    running quizId qs (Some p) st ->
    running quizId qs None (snd (handleSubmit_resume reply p st)).

(** The states a session shows. *)
Definition reachable (quizId : string) (qs : list (Question Ids))
    (st : State) : Prop :=
  exists p, running quizId qs p st.

End TakeQuiz.

(** ** The results aggregator ([src/pages/QuizResults.tsx]) *)

Module QuizResults.

Record Stats : Type := mkStats {
  averageScore : float;
  totalResponses : nat;
  averagePercentage : float
}.

(** lines 64-78 *)
Definition calculateStats (responses : list Response)
    (questions : list (Question Ids)) : Stats :=
  if (length responses =? 0)%nat then mkStats 0 0 0
  else
    let totalScore :=
      fold_left (fun sum response => (sum + JS.Z2F (score response))%float)
                responses 0%float in
    let averageScore := (totalScore / JS.nat2F (length responses))%float in
    let averagePercentage :=
      (averageScore / JS.nat2F (length questions) * 100)%float in
    mkStats (JS.Math_round (averageScore * 10) / 10)%float
            (length responses)
            (JS.Math_round averagePercentage).

Section Csv.

(** [String(x)] for the number [Math.round] returns, and
    [new Date(s).toLocaleString()], which depends on the locale and the
    time zone of the browser. *)
Variable Number_toString : float -> string.
Variable Date_toLocaleString : string -> string.

(** lines 86-93 *)
Definition headers (questions : list (Question Ids)) : list string :=
  ["Student Name"; "Email"; "Score"; "Percentage"; "Submitted At"]
  ++ imap (fun index _ => "Question " ++ JS.nat_toString (index + 1))%string questions.

(** The text the template literal of line 109 makes of a number that
    holds the integer [z].  Up to 2^53 every integer is a number of its
    own and is written with all its digits; a larger number is left to
    the built-in, which rounds the digits and from 10^21 on writes an
    exponent (1e+21). *)
Definition integer_text (z : Z) : string :=
  if (Z.abs z <=? 2 ^ 53)%Z then JS.Z_toString z
  else Number_toString (JS.Z2F z).

(** lines 95-105; every cell already as the text the template literal of
    line 109 makes of it *)
Definition cells (response : Response) : list string :=
  let percentage :=
    JS.Math_round (JS.Z2F (score response) / JS.Z2F (total_questions response) * 100)%float in
  [ student_name response;
    student_email response;
    integer_text (score response);
    (Number_toString percentage ++ "%")%string;
    Date_toLocaleString (submitted_at response) ]
  ++ answers response.

(** The double quote character, U+0022 *)
Definition dquote : string := String (ascii_of_nat 34) EmptyString.

(** The template literal of line 109 *)
Definition quoted (cell : string) : string := (dquote ++ cell ++ dquote)%string.

(** lines 80-110: the text handed to the [Blob], [None] after the alert
    "No responses to export". *)
Definition exportToCSV (responses : list Response)
    (questions : list (Question Ids)) : option string :=
  if (length responses =? 0)%nat then None
  else
    let rows := map cells responses in
    Some (JS.join (String (ascii_of_nat 10) "")
            (JS.join "," (headers questions)
             :: map (fun row => JS.join "," (map quoted row)) rows)).

End Csv.

End QuizResults.

(** ** Saving a quiz: [handleSubmit] of the two forms *)

(** The two tables of the data store the forms write to. *)
Module Store.

(** [Quiz] ([src/types/database.ts]) *)
Record Quiz : Type := mkQuiz {
  id : string;
  title : string;
  description : option string;
  created_by : string;
  created_at : string;
  is_active : bool
}.

Record Tables : Type := mkTables {
  quizzes : list Quiz;
  questions : list (Question Ids)
}.

(** How a store call that returns nothing but an [error] ends. *)
Inductive Reply : Type :=
| Ok        (** no [error]: the store has applied the request *)
| Error.    (** an [error] comes back or the promise rejects; the store
                is as before *)

(** How the insert of the question objects ends: the store generates the
    id of each row, [ids k] for the row at position [k] of the batch. *)
Inductive InsertReply : Type :=
| Inserted (ids : nat -> string)
| NotInserted.

(** The rows the store makes of a batch of question objects sent
    without an id; the identifying part of such an object is its
    [quiz_id]. *)
Definition stored (ids : nat -> string) (batch : list (Question string))
    : list (Question Ids) :=
  imap (fun k object =>
          mkQuestion (mkIds (ids k) (ident object)) (question_text object)
                     (options object) (correct_answer object)
                     (order_index object))
       batch.

(** [.update({ title, description }).eq('id', x)] on the quizzes *)
Definition update_eq_id (x newTitle : string) (newDescription : option string)
    (rows : list Quiz) : list Quiz :=
  map (fun row =>
         if String.eqb (id row) x
         then mkQuiz (id row) newTitle newDescription (created_by row)
                     (created_at row) (is_active row)
         else row)
      rows.

(** [.delete().eq('quiz_id', x)] on the questions *)
Definition delete_eq_quiz_id (x : string) (rows : list (Question Ids))
    : list (Question Ids) :=
  List.filter (fun row => negb (String.eqb (quiz_id (ident row)) x)) rows.

End Store.

(** [description.trim() || null] *)
Definition description_or_null (description : string) : option string :=
  if JS.falsy (JS.trim description) then None else Some (JS.trim description).

(** What a form shows when [handleSubmit] is over. *)
Inductive Shown : Type :=
| Invalid (a : Alert)   (** the alert of [validateForm] *)
| Silent                (** a return without any notice *)
| Failure               (** the alert of the [catch] block *)
| ToDashboard.          (** [navigate('/dashboard')] *)

(** [handleSubmit] of the create form (CreateQuiz.tsx 118-160) *)
Module CreateQuizSubmit.

Record Form : Type := mkForm {
  title : string;
  description : string;
  questions : list CreateQuiz.Draft;
  loading : bool
}.

Definition setLoading (b : bool) (form : Form) : Form :=
  mkForm (title form) (description form) (questions form) b.

(** How the insert of the quiz ends: [.select().single()] hands back the
    row, with the id and the creation time the store gave it. *)
Inductive QuizReply : Type :=
| Created (newId createdAt : string)
| NotCreated.

(** lines 139-145 *)
Definition questionsToInsert (quizId : string)
    (questions : list CreateQuiz.Draft) : list (Question string) :=
  map (fun question =>
         mkQuestion quizId
                    (JS.trim (question_text question))
                    (map JS.trim (options question))
                    (JS.trim (correct_answer question))
                    (order_index question))
      questions.

(** lines 118-160; [user] is [user.id] when somebody is signed in *)
Definition handleSubmit (user : option string) (quizReply : QuizReply)
    (questionsReply : Store.InsertReply) (form : Form) (db : Store.Tables)
    : Shown * Form * Store.Tables :=
  match validateForm (title form) (questions form) with
  | Some a => (Invalid a, form, db)
  | None =>
      match user with
      | None => (Silent, form, db)
      | Some userId =>
          let form := setLoading true form in
          let finally := setLoading false form in
          match quizReply with
          | NotCreated => (Failure, finally, db)
          | Created newId createdAt =>
              let quiz :=
                Store.mkQuiz newId (JS.trim (title form))
                             (description_or_null (description form))
                             userId createdAt true in
              let db := Store.mkTables (Store.quizzes db ++ [quiz])
                                       (Store.questions db) in
              match questionsReply with
              | Store.NotInserted => (Failure, finally, db)
              | Store.Inserted ids =>
                  (ToDashboard, finally,
                   Store.mkTables
                     (Store.quizzes db)
                     (Store.questions db
                      ++ Store.stored ids
                           (questionsToInsert newId (questions form))))
              end
          end
      end
  end.

End CreateQuizSubmit.

(** [handleSubmit] of the edit form (EditQuiz.tsx 173-221) *)
Module EditQuizSubmit.

Record Form : Type := mkForm {
  id : string;                       (** the quiz id of the route *)
  title : string;
  description : string;
  questions : list (Question Ids);
  saving : bool
}.

Definition setSaving (b : bool) (form : Form) : Form :=
  mkForm (id form) (title form) (description form) (questions form) b.

(** lines 200-206 *)
Definition questionsToInsert (quizId : string)
    (questions : list (Question Ids)) : list (Question string) :=
  imap (fun index question =>
          mkQuestion quizId
                     (JS.trim (question_text question))
                     (map JS.trim (options question))
                     (JS.trim (correct_answer question))
                     (Z.of_nat index))
       questions.

(** lines 173-221 *)
Definition handleSubmit (updateReply deleteReply : Store.Reply)
    (insertReply : Store.InsertReply) (form : Form) (db : Store.Tables)
    : Shown * Form * Store.Tables :=
  match validateForm (title form) (questions form) with
  | Some a => (Invalid a, form, db)
  | None =>
      let form := setSaving true form in
      let finally := setSaving false form in
      match updateReply with
      | Store.Error => (Failure, finally, db)
      | Store.Ok =>
          let db :=
            Store.mkTables
              (Store.update_eq_id (id form) (JS.trim (title form))
                 (description_or_null (description form)) (Store.quizzes db))
              (Store.questions db) in
          match deleteReply with
          | Store.Error => (Failure, finally, db)
          | Store.Ok =>
              let db :=
                Store.mkTables (Store.quizzes db)
                  (Store.delete_eq_quiz_id (id form) (Store.questions db)) in
              match insertReply with
              | Store.NotInserted => (Failure, finally, db)
              | Store.Inserted ids =>
                  (ToDashboard, finally,
                   Store.mkTables
                     (Store.quizzes db)
                     (Store.questions db
                      ++ Store.stored ids
                           (questionsToInsert (id form) (questions form))))
              end
          end
      end
  end.

End EditQuizSubmit.

(** ** The dashboard ([src/pages/Dashboard.tsx]) *)

Module Dashboard.

(** The component state (lines 12-14) with the quizzes table of the
    store; [responseCounts] is an object: its keys with their values. *)
Record State : Type := mkState {
  quizzes : list Store.Quiz;
  responseCounts : list (string * nat);
  table : list Store.Quiz
}.

(** [.delete().eq('id', x)] on the quizzes *)
Definition delete_eq_id (x : string) (rows : list Store.Quiz) : list Store.Quiz :=
  List.filter (fun row => negb (String.eqb (Store.id row) x)) rows.

(** [.update({ is_active: b }).eq('id', x)] on the quizzes *)
Definition update_is_active (x : string) (b : bool) (rows : list Store.Quiz)
    : list Store.Quiz :=
  map (fun row =>
         if String.eqb (Store.id row) x
         then Store.mkQuiz (Store.id row) (Store.title row)
                (Store.description row) (Store.created_by row)
                (Store.created_at row) b
         else row)
      rows.

(** lines 59-74; [confirmed] is the answer to [window.confirm] *)
Definition deleteQuiz (quizId : string) (confirmed : bool)
    (reply : Store.Reply) (st : State) : State :=
  if confirmed then
    match reply with
    | Store.Error => st
    | Store.Ok =>
        mkState
          (List.filter (fun quiz => negb (String.eqb (Store.id quiz) quizId))
                       (quizzes st))
          (responseCounts st)
          (delete_eq_id quizId (table st))
    end
  else st.

(** lines 76-91 *)
Definition toggleQuizStatus (quiz : Store.Quiz) (reply : Store.Reply)
    (st : State) : State :=
  match reply with
  | Store.Error => st
  | Store.Ok =>
      mkState
        (map (fun q =>
                if String.eqb (Store.id q) (Store.id quiz)
                then Store.mkQuiz (Store.id q) (Store.title q)
                       (Store.description q) (Store.created_by q)
                       (Store.created_at q) (negb (Store.is_active q))
                else q)
             (quizzes st))
        (responseCounts st)
        (update_is_active (Store.id quiz) (negb (Store.is_active quiz))
                          (table st))
  end.

(** line 164: [Object.values(responseCounts).reduce((sum, count) => sum + count, 0)] *)
Definition totalResponses (st : State) : nat :=
  fold_left (fun sum count => (sum + count)%nat) (map snd (responseCounts st)) 0%nat.

(** line 178: [quizzes.filter(q => q.is_active).length] *)
Definition activeQuizzes (st : State) : nat :=
  length (List.filter Store.is_active (quizzes st)).

End Dashboard.

(** ** The name of the exported file (QuizResults.tsx 116) *)

Module Download.

(** A character of the class [a-z0-9] under the flag [i]: without the
    flag [u] no character outside ASCII matches an ASCII letter. *)
Definition isAlphanumeric (c : ascii) : bool :=
  let n := nat_of_ascii c in
  ((48 <=? n)%nat && (n <=? 57)%nat)
  || ((65 <=? n)%nat && (n <=? 90)%nat)
  || ((97 <=? n)%nat && (n <=? 122)%nat).

(** [s.replace(/[^a-z0-9]/gi, '_')] *)
Fixpoint replaceOthers (s : string) : string :=
  match s with
  | EmptyString => EmptyString
  | String c s' =>
      String (if isAlphanumeric c then c else "_"%char) (replaceOthers s')
  end.

(** The lower case of a code unit of U+0000..U+00FF: A-Z, and the
    letters U+00C0..U+00DE but for the sign U+00D7. *)
Definition lowerChar (c : ascii) : ascii :=
  let n := nat_of_ascii c in
  if ((65 <=? n)%nat && (n <=? 90)%nat)
     || ((192 <=? n)%nat && (n <=? 222)%nat && negb (n =? 215)%nat)
  then ascii_of_nat (n + 32)
  else c.

(** [s.toLowerCase()] *)
Fixpoint toLowerCase (s : string) : string :=
  match s with
  | EmptyString => EmptyString
  | String c s' => String (lowerChar c) (toLowerCase s')
  end.

(** The first part of the template literal of line 116 *)
Definition stem (title : string) : string := toLowerCase (replaceOthers title).

(** line 116, for a loaded quiz *)
Definition fileName (title : string) : string :=
  (stem title ++ "_results.csv")%string.

End Download.

(** ** Notions the properties are stated with *)

(** Every question carries its position in [order_index]. *)
Definition sequenced {I} (qs : list (Question I)) : Prop :=
  forall i q, qs !! i = Some q -> order_index q = Z.of_nat i.

(** The draft a question row is once its identifying columns are left
    out: how a state of the edit form reads as a state of the create
    form. *)
Definition forget_ids (q : Question Ids) : CreateQuiz.Draft :=
  mkQuestion tt (question_text q) (options q) (correct_answer q) (order_index q).

(** The position [moveQuestion] swaps [index] with. *)
Definition neighbour (index : nat) (direction : Direction) : Z :=
  match direction with
  | up => (Z.of_nat index - 1)%Z
  | down => (Z.of_nat index + 1)%Z
  end.

(** The five rules of [validate()], in the order the specification lists
    them: (a) title, (b) question text, (c) options filled in, (d) a
    correct answer chosen, (e) the correct answer is an option. *)
Inductive Rule : Type := rule_a | rule_b | rule_c | rule_d | rule_e.

Definition rank (r : Rule) : nat :=
  match r with
  | rule_a => 0 | rule_b => 1 | rule_c => 2 | rule_d => 3 | rule_e => 4
  end.

(** Question [q] breaks rule [r]; "non-empty" is read as the handler
    reads it, after trimming. *)
Definition breaks {I} (r : Rule) (q : Question I) : bool :=
  match r with
  | rule_a => false
  | rule_b => JS.falsy (JS.trim (question_text q))
  | rule_c => existsb (fun o => JS.falsy (JS.trim o)) (options q)
  | rule_d => JS.falsy (JS.trim (correct_answer q))
  | rule_e => negb (JS.includes (options q) (correct_answer q))
  end.

(** The draft breaks rule [r]: the title for (a), some question for the
    other rules. *)
Definition violated {I} (title : string) (qs : list (Question I)) (r : Rule) : bool :=
  match r with
  | rule_a => JS.falsy (JS.trim title)
  | _ => existsb (breaks r) qs
  end.

(** Following the specification's words: the first rule, in the order
    (a) to (e), that the draft breaks. *)
Definition first_violated_rule {I} (title : string) (qs : list (Question I))
    : option Rule :=
  List.find (violated title qs) [rule_a; rule_b; rule_c; rule_d; rule_e].

(** The rule an alert reports, and the alert for a rule at question [n]. *)
Definition rule_of (a : Alert) : Rule :=
  match a with
  | EnterTitle => rule_a
  | EnterText _ => rule_b
  | FillOptions _ => rule_c
  | SelectCorrect _ => rule_d
  | CorrectNotAnOption _ => rule_e
  end.

Definition alert_of (r : Rule) (n : nat) : Alert :=
  match r with
  | rule_a => EnterTitle
  | rule_b => EnterText n
  | rule_c => FillOptions n
  | rule_d => SelectCorrect n
  | rule_e => CorrectNotAnOption n
  end.

(** A question that breaks no rule. *)
Definition clean {I} (q : Question I) : Prop := forall r, breaks r q = false.

(** The first breach in the order the handler scans: [q], at position
    [i], is the first question that breaks a rule, and [r] is the first
    rule it breaks. *)
Definition first_breach {I} (qs : list (Question I)) (i : nat) (r : Rule) : Prop :=
  exists q,
    qs !! i = Some q
    /\ (forall j q', (j < i)%nat -> qs !! j = Some q' -> clean q')
    /\ breaks r q = true
    /\ (forall r', (rank r' < rank r)%nat -> breaks r' q = false).

(** Following the specification's words: the number of positions [i]
    below the number of questions at which [answers[i]] is the text of
    [questions[i].correct_answer]. *)
Definition count_correct (questions : list (Question Ids))
    (answers : list string) : nat :=
  length (filter (fun i => answers !! i = correct_answer <$> questions !! i)
                 (seq 0 (length questions))).

(** A text is missing when it is empty. *)
Definition missing (s : string) : Prop := s = "".

(** The submission guard of [handleSubmit]: name, e-mail and every
    answer have something left after trimming. *)
Definition complete (st : TakeQuiz.State) : Prop :=
  JS.falsy (JS.trim (TakeQuiz.studentName st)) = false
  /\ JS.falsy (JS.trim (TakeQuiz.studentEmail st)) = false
  /\ existsb (fun a => JS.falsy (JS.trim a)) (TakeQuiz.answers st) = false.

(** The mean of the scores as [calculateStats] holds it before any
    rounding: the binary64 sum of the scores, added from 0 in list order,
    divided by the number of responses. *)
Definition mean_score (responses : list Response) : float :=
  (fold_left (fun sum response => sum + JS.Z2F (score response)) responses 0
   / JS.nat2F (length responses))%float.

(** [k] is [x] rounded to the nearest integer, the upper one on a tie,
    for [x = v * 2^e] with [e < 0]: [k - 1/2 <= x < k + 1/2]. *)
Definition rounds_half_up (v e k : Z) : Prop :=
  ((2 * k - 1) * 2 ^ (- e) <= 2 * v < (2 * k + 1) * 2 ^ (- e))%Z.

(** The concatenation of a list of texts. *)
Definition flat (l : list string) : string := fold_right String.append "" l.

(** The line feed, U+000A *)
Definition newline : string := String (ascii_of_nat 10) EmptyString.

(** The header line of the export, written out. *)
Definition header_line (questions : list (Question Ids)) : string :=
  ("Student Name,Email,Score,Percentage,Submitted At"
   ++ flat (imap (fun i _ => ",Question " ++ JS.nat_toString (i + 1)) questions))%string.

(** The quotation mark, U+0022, by its bits (the lowest first). *)
Definition quotation_mark : string :=
  String (Ascii false true false false false true false false) EmptyString.

(** An integer JavaScript holds exactly and writes with all its digits. *)
Definition safe_integer (z : Z) : Prop := (- 2 ^ 53 <= z <= 2 ^ 53)%Z.

(** The line of one response, written out: the five leading cells and
    one cell per answer, each between two quotation marks and as it is;
    [score_text] writes the score. *)
Definition row_line (score_text : Z -> string)
    (Number_toString : float -> string)
    (Date_toLocaleString : string -> string) (response : Response) : string :=
  let percentage :=
    JS.Math_round (JS.Z2F (score response)
                   / JS.Z2F (total_questions response) * 100)%float in
  (quotation_mark ++ student_name response ++ quotation_mark ++ ","
   ++ quotation_mark ++ student_email response ++ quotation_mark ++ ","
   ++ quotation_mark ++ score_text (score response) ++ quotation_mark ++ ","
   ++ quotation_mark ++ (Number_toString percentage ++ "%") ++ quotation_mark ++ ","
   ++ quotation_mark ++ Date_toLocaleString (submitted_at response) ++ quotation_mark
   ++ flat (map (fun answer => "," ++ quotation_mark ++ answer ++ quotation_mark)
                (answers response)))%string.

(** [String(x)] on what [Math.round] returns: the integral doubles (below
    10^21, where JavaScript still writes all digits), the infinities and
    NaN.  A stand-in for [Number_toString] when the export is run on an
    example; a value with a fractional part, which [Math.round] never
    returns, gets the empty text. *)
Definition integral_toString (x : float) : string :=
  match Prim2SF x with
  | S754_zero _ => "0"
  | S754_infinity false => "Infinity"
  | S754_infinity true => "-Infinity"
  | S754_nan => "NaN"
  | S754_finite s m e =>
      let v := if s then Z.neg m else Z.pos m in
      if (0 <=? e)%Z then JS.Z_toString (v * 2 ^ e)
      else if (v mod 2 ^ (- e) =? 0)%Z then JS.Z_toString (v / 2 ^ (- e))
      else EmptyString
  end.

(** The correct answer of a question is not chosen yet or is one of its
    options. *)
Definition answer_valid {I} (q : Question I) : Prop :=
  correct_answer q = "" \/ In (correct_answer q) (options q).



(** A draft with at least one question, each with at least two options. *)
Definition well_shaped {I} (qs : list (Question I)) : Prop :=
  (1 <= length qs)%nat
  /\ List.Forall (fun q => (2 <= length (options q))%nat) qs.

(** A character of a file name that needs no escaping: a digit, a small
    letter or the underscore. *)
Definition plain_char (c : ascii) : bool :=
  let n := nat_of_ascii c in
  ((48 <=? n)%nat && (n <=? 57)%nat)
  || ((97 <=? n)%nat && (n <=? 122)%nat)
  || (n =? 95)%nat.

Fixpoint plain (s : string) : bool :=
  match s with
  | EmptyString => true
  | String c s' => plain_char c && plain s'
  end.

(** The rows of a table have each an id of their own (the primary key). *)
Definition unique_ids (rows : list Store.Quiz) : Prop :=
  NoDup (map Store.id rows).

(** Every quiz the dashboard lists is a row of the store, as it stands
    there. *)
Definition listed_in_store (st : Dashboard.State) : Prop :=
  forall q, In q (Dashboard.quizzes st) -> In q (Dashboard.table st).

(** [quiz] with the other value of [is_active] *)
Definition toggled (quiz : Store.Quiz) : Store.Quiz :=
  Store.mkQuiz (Store.id quiz) (Store.title quiz) (Store.description quiz)
               (Store.created_by quiz) (Store.created_at quiz)
               (negb (Store.is_active quiz)).

(** The object a submission sends for quiz [quizId] with the questions
    [qs], carrying the score [sc]: a name, an e-mail and answers, none
    of them empty, the number of questions, and as score the number of
    those answers that are the correct ones of their questions. *)
Definition complete_response (quizId : string) (qs : list (Question Ids))
    (sc : nat) (object : TakeQuiz.Object) : Prop :=
  exists name email answers,
    object
    = [ ("quiz_id", TakeQuiz.JString quizId);
        ("student_name", TakeQuiz.JString name);
        ("student_email", TakeQuiz.JString email);
        ("answers", TakeQuiz.JStrings answers);
        ("score", TakeQuiz.JNumber (Z.of_nat sc));
        ("total_questions", TakeQuiz.JNumber (Z.of_nat (length qs))) ]
    /\ ~ missing name
    /\ ~ missing email
    /\ List.Forall (fun a => ~ missing a) answers
    /\ sc = count_correct qs answers.

(** The quizzes table after a save of the quiz [x] with the title and the
    description of the form: the row of [x] has the trimmed title and
    the trimmed description, or none when nothing is left of it; nothing
    else differs. *)
Definition quiz_saved (x title description : string)
    (before after : list Store.Quiz) : Prop :=
  length after = length before
  /\ forall k old,
       before !! k = Some old ->
       exists new,
         after !! k = Some new
         /\ Store.id new = Store.id old
         /\ Store.created_by new = Store.created_by old
         /\ Store.created_at new = Store.created_at old
         /\ Store.is_active new = Store.is_active old
         /\ (Store.id old <> x -> new = old)
         /\ (Store.id old = x ->
             Store.title new = JS.trim title
             /\ (JS.trim description = "" -> Store.description new = None)
             /\ (JS.trim description <> "" ->
                 Store.description new = Some (JS.trim description))).

(** The question rows [rows] are the questions [qs] of the form saved
    under the quiz [x]: one row per question, in the order of the form,
    with the id the store gave it, the texts trimmed and the position as
    [order_index]. *)
Definition questions_saved (x : string) (ids : nat -> string)
    (qs rows : list (Question Ids)) : Prop :=
  length rows = length qs
  /\ forall k q,
       qs !! k = Some q ->
       exists row,
         rows !! k = Some row
         /\ id (ident row) = ids k
         /\ quiz_id (ident row) = x
         /\ question_text row = JS.trim (question_text q)
         /\ options row = map JS.trim (options q)
         /\ correct_answer row = JS.trim (correct_answer q)
         /\ order_index row = Z.of_nat k.

(** * Properties *)

(** Unfold one handler of the object store, and resolve its reads. *)
Ltac run_step :=
  unfold mbind, M_bind, mret, M_ret, read, write, write_option;
  cbn -[view seq Nat.leb].

Ltac run_lookup Hs Hq Hlt :=
  repeat first
    [ rewrite Hs
    | rewrite Hq
    | rewrite list_lookup_insert_eq by (rewrite ?length_insert; exact Hlt)
    | rewrite list_insert_insert_eq
    | progress cbn -[view seq Nat.leb] ].

(** ** Lists and the object store *)

Lemma lookup_seq0 (n i : nat) :
  seq 0 n !! i = if (i <? n)%nat then Some i else None.
Proof.
  destruct (Nat.ltb_spec i n) as [Hlt | Hge].
  - apply lookup_seq. lia.
  - apply lookup_seq_ge. lia.
Qed.

Lemma view_all {I} (h : list (Question I)) :
  Heap.view h (seq 0 (length h)) = Some h.
Proof.
  unfold Heap.view. apply mapM_Some.
  apply Forall2_same_length_lookup_2.
  - now rewrite length_seq.
  - intros i l q Hl Hq.
    rewrite lookup_seq0 in Hl.
    destruct (i <? length h)%nat; [ | discriminate ].
    now inversion Hl; subst.
Qed.

Lemma filteri_keeps_all {A} (m : nat) (l : list A) (k : nat) :
  (m < k)%nat -> filteri (fun _ i => negb (i =? m)%nat) k l = l.
Proof.
  revert k. induction l as [ | x l IH]; intros k Hk; simpl; [ reflexivity | ].
  destruct (Nat.eqb_spec k m) as [-> | _]; [ lia | ].
  simpl. f_equal. apply IH. lia.
Qed.

Lemma filteri_ne_delete {A} (l : list A) (k j : nat) :
  filteri (fun _ i => negb (i =? k + j)%nat) k l = delete j l.
Proof.
  revert k j. induction l as [ | x l IH]; intros k j; simpl.
  - now destruct j.
  - destruct j as [ | j].
    + rewrite Nat.add_0_r, Nat.eqb_refl. simpl.
      apply filteri_keeps_all. lia.
    + destruct (Nat.eqb_spec k (k + S j)) as [E | _]; [ lia | ].
      simpl. f_equal.
      replace (k + S j)%nat with (S k + j)%nat by lia. apply IH.
Qed.

Lemma sequenced_resequence {I} (qs : list (Question I)) :
  sequenced (resequence qs).
Proof.
  intros i q. unfold resequence. rewrite list_lookup_imap.
  destruct (qs !! i); simpl; intros [= <-]. reflexivity.
Qed.

Lemma length_resequence {I} (qs : list (Question I)) :
  length (resequence qs) = length qs.
Proof. apply length_imap. Qed.

Lemma view_insert {I} (h : list (Question I)) (l : nat) (q : Question I) :
  Heap.view (<[l := q]> h) (seq 0 (length h)) = Some (<[l := q]> h).
Proof.
  pose proof (view_all (<[l := q]> h)) as H.
  now rewrite length_insert in H.
Qed.

(** What the arrays [questions] and [newQuestions] hold at [qi]. *)
Lemma questions_at {I} (qs : list (Question I)) (qi : nat) :
  (exists q, qs !! qi = Some q /\ seq 0 (length qs) !! qi = Some qi
             /\ (qi < length qs)%nat)
  \/ (qs !! qi = None /\ seq 0 (length qs) !! qi = None).
Proof.
  rewrite lookup_seq0.
  destruct (Nat.ltb_spec qi (length qs)) as [Hlt | Hge].
  - left. destruct (lookup_lt_is_Some_2 qs qi Hlt) as [q Hq]. eauto.
  - right. split; [ now apply lookup_ge_None_2 | reflexivity ].
Qed.

(** ** [removeOption] *)

(** The edit form compares [correct_answer] with the option it removes. *)
Lemma EditQuiz_removeOption_run (qi oi : nat) (qs : list (Question Ids)) :
  EditQuiz.removeOption qi oi qs =
  match qs !! qi with
  | None => Threw qs
  | Some q =>
      if (length (options q) <=? 2)%nat then Done qs
      else
        let q1 := set_options q (delete oi (options q)) in
        Done (<[qi := if JS.strict_eq (Some (correct_answer q)) (options q !! oi)
                      then set_correct_answer q1 "" else q1]> qs)
  end.
Proof.
  unfold EditQuiz.removeOption, run. run_step.
  destruct (questions_at qs qi) as [(q & Hq & Hs & Hlt) | [Hq Hs]].
  - run_lookup Hs Hq Hlt.
    destruct (length (options q) <=? 2)%nat eqn:Hlen.
    + now rewrite view_all.
    + run_lookup Hs Hq Hlt.
      destruct (options q !! oi) as [o | ]; run_lookup Hs Hq Hlt.
      * destruct (correct_answer q =? o); run_lookup Hs Hq Hlt;
          now rewrite view_insert.
      * now rewrite view_insert.
  - rewrite Hs, Hq. cbn -[view seq Nat.leb]. now rewrite view_all.
Qed.

(** The create form compares [correct_answer] with what stands at
    [optionIndex] once the option is gone: the option that followed it. *)
Lemma CreateQuiz_removeOption_run (qi oi : nat) (qs : list CreateQuiz.Draft) :
  CreateQuiz.removeOption qi oi qs =
  match qs !! qi with
  | None => Threw qs
  | Some q =>
      if (length (options q) <=? 2)%nat then Done qs
      else
        let q1 := set_options q (delete oi (options q)) in
        Done (<[qi := if JS.strict_eq (Some (correct_answer q))
                                      (options q !! S oi)
                      then set_correct_answer q1 "" else q1]> qs)
  end.
Proof.
  unfold CreateQuiz.removeOption, run. run_step.
  destruct (questions_at qs qi) as [(q & Hq & Hs & Hlt) | [Hq Hs]].
  - run_lookup Hs Hq Hlt.
    destruct (length (options q) <=? 2)%nat eqn:Hlen.
    + now rewrite view_all.
    + run_lookup Hs Hq Hlt. unfold JS.splice1.
      rewrite (list_lookup_delete_ge (options q) oi oi) by lia.
      destruct (options q !! S oi) as [o | ]; run_lookup Hs Hq Hlt.
      * destruct (correct_answer q =? o); run_lookup Hs Hq Hlt;
          now rewrite view_insert.
      * now rewrite view_insert.
  - rewrite Hs, Hq. cbn -[view seq Nat.leb]. now rewrite view_all.
Qed.

(** In the edit form [removeOption] does what its comment says: on a
    question with more than two options the option at [optionIndex] goes
    and [correct_answer] is cleared exactly when it was that option; with
    two options or fewer nothing changes. *)
Lemma EditQuiz_removeOption_clears_removed (qi oi : nat)
    (qs : list (Question Ids)) (q : Question Ids) (removed : string) :
  qs !! qi = Some q ->
  options q !! oi = Some removed ->
  EditQuiz.removeOption qi oi qs =
  Done (if (length (options q) <=? 2)%nat then qs
        else <[qi := mkQuestion (ident q) (question_text q)
                       (delete oi (options q))
                       (if String.eqb (correct_answer q) removed
                        then "" else correct_answer q)
                       (order_index q)]> qs).
Proof.
  intros Hq Ho. rewrite EditQuiz_removeOption_run, Hq, Ho. simpl.
  destruct (length (options q) <=? 2)%nat; [ reflexivity | ].
  now destruct (correct_answer q =? removed).
Qed.

(** C1, at the input where the create form departs from it: removing
    option "A", the correct answer, from the options A, B, C leaves
    [correct_answer] at "A", which is no longer an option. *)
Theorem CreateQuiz_removeOption_keeps_removed_answer :
  CreateQuiz.removeOption 0 0 [mkQuestion tt "Q" ["A"; "B"; "C"] "A" 0]
  = Done [mkQuestion tt "Q" ["B"; "C"] "A" 0].
Proof. reflexivity. Qed.

(** The same slip the other way round: the answer "B" is cleared when
    the option before it is removed, although "B" stays. *)
Lemma CreateQuiz_removeOption_clears_kept_answer :
  CreateQuiz.removeOption 0 0 [mkQuestion tt "Q" ["A"; "B"; "C"] "B" 0]
  = Done [mkQuestion tt "Q" ["B"; "C"] "" 0].
Proof. reflexivity. Qed.

(** On that input the edit form clears the answer. *)
Lemma EditQuiz_removeOption_example :
  EditQuiz.removeOption 0 0
    [mkQuestion (mkIds "q1" "z") "Q" ["A"; "B"; "C"] "A" 0]
  = Done [mkQuestion (mkIds "q1" "z") "Q" ["B"; "C"] "" 0].
Proof. reflexivity. Qed.

(** ** [updateOption] *)

Lemma CreateQuiz_updateOption_run (qi oi : nat) (value : string)
    (qs : list CreateQuiz.Draft) :
  CreateQuiz.updateOption qi oi value qs =
  match qs !! qi with
  | None => Threw qs
  | Some q =>
      match JS.assign (options q) oi value with
      | None => OffType
      | Some o => Done (<[qi := set_options q o]> qs)
      end
  end.
Proof.
  unfold CreateQuiz.updateOption, run. run_step.
  destruct (questions_at qs qi) as [(q & Hq & Hs & Hlt) | [Hq Hs]].
  - run_lookup Hs Hq Hlt.
    destruct (JS.assign (options q) oi value); run_lookup Hs Hq Hlt;
      [ now rewrite view_insert | reflexivity ].
  - rewrite Hs, Hq. cbn -[view seq Nat.leb]. now rewrite view_all.
Qed.

Lemma EditQuiz_updateOption_run (qi oi : nat) (value : string)
    (qs : list (Question Ids)) :
  EditQuiz.updateOption qi oi value qs =
  match qs !! qi with
  | None => Threw qs
  | Some q =>
      match JS.assign (options q) oi value with
      | None => OffType
      | Some o =>
          Done (<[qi := if JS.strict_eq (Some (correct_answer q)) (options q !! oi)
                        then set_correct_answer (set_options q o) value
                        else set_options q o]> qs)
      end
  end.
Proof.
  unfold EditQuiz.updateOption, run. run_step.
  destruct (questions_at qs qi) as [(q & Hq & Hs & Hlt) | [Hq Hs]].
  - run_lookup Hs Hq Hlt.
    destruct (JS.assign (options q) oi value); run_lookup Hs Hq Hlt;
      [ | reflexivity ].
    destruct (options q !! oi) as [o | ]; run_lookup Hs Hq Hlt.
    + destruct (correct_answer q =? o); run_lookup Hs Hq Hlt;
        now rewrite view_insert.
    + now rewrite view_insert.
  - rewrite Hs, Hq. cbn -[view seq Nat.leb]. now rewrite view_all.
Qed.

(** Whenever the edited option is the correct answer, the create form
    keeps [correct_answer] and the edit form moves it to the new text. *)
Lemma updateOption_on_correct_answer (qi oi : nat) (value : string)
    (qs : list (Question Ids)) (q : Question Ids) :
  qs !! qi = Some q ->
  options q !! oi = Some (correct_answer q) ->
  CreateQuiz.updateOption qi oi value (forget_ids <$> qs)
  = Done (<[qi := mkQuestion tt (question_text q)
                    (<[oi := value]> (options q))
                    (correct_answer q) (order_index q)]> (forget_ids <$> qs))
  /\ EditQuiz.updateOption qi oi value qs
  = Done (<[qi := mkQuestion (ident q) (question_text q)
                    (<[oi := value]> (options q))
                    value (order_index q)]> qs).
Proof.
  intros Hq Ho.
  assert (Hlt : (oi <? length (options q))%nat = true).
  { apply Nat.ltb_lt. eapply lookup_lt_Some. exact Ho. }
  rewrite CreateQuiz_updateOption_run, EditQuiz_updateOption_run.
  rewrite list_lookup_fmap, Hq. simpl.
  unfold JS.assign. rewrite Hlt, Ho. simpl.
  now rewrite String.eqb_refl.
Qed.

(** C9: the two [updateOption] handlers differ.  On the question with
    options A, B whose correct answer is A, renaming option 0 to Z leaves
    the correct answer at A in the create form and moves it to Z in the
    edit form. *)
Theorem updateOption_create_and_edit_differ :
  exists (qs : list (Question Ids)) (qi oi : nat) (newText : string)
         (q : Question Ids) (created : list CreateQuiz.Draft)
         (edited : list (Question Ids)),
    qs !! qi = Some q
    /\ options q !! oi = Some (correct_answer q)
    /\ CreateQuiz.updateOption qi oi newText (forget_ids <$> qs) = Done created
    /\ EditQuiz.updateOption qi oi newText qs = Done edited
    /\ correct_answer <$> created !! qi = Some (correct_answer q)
    /\ correct_answer <$> edited !! qi = Some newText
    /\ created <> forget_ids <$> edited.
Proof.
  exists [mkQuestion (mkIds "q1" "z") "Q" ["A"; "B"] "A" 0], 0%nat, 0%nat, "Z",
         (mkQuestion (mkIds "q1" "z") "Q" ["A"; "B"] "A" 0).
  eexists. eexists.
  repeat split; try reflexivity.
  discriminate.
Qed.

(** ** [removeQuestion] and [moveQuestion] *)

Lemma filter_other_positions {A} (index : nat) (l : list A) :
  filteri (fun _ i => negb (i =? index)%nat) 0 l = delete index l.
Proof. exact (filteri_ne_delete l 0 index). Qed.

Lemma CreateQuiz_removeQuestion_run (index : nat) (qs : list CreateQuiz.Draft) :
  CreateQuiz.removeQuestion index qs =
  if (length qs =? 1)%nat then qs else resequence (delete index qs).
Proof.
  unfold CreateQuiz.removeQuestion.
  now rewrite filter_other_positions.
Qed.

Lemma EditQuiz_removeQuestion_run (index : nat) (reply : EditQuiz.Reply)
    (st : EditQuiz.State) :
  EditQuiz.removeQuestion index reply st =
  if (length (EditQuiz.questions st) =? 1)%nat then Done st
  else
    match EditQuiz.questions st !! index with
    | None => Threw st
    | Some question =>
        let x := id (ident question) in
        let qs' := resequence (delete index (EditQuiz.questions st)) in
        if JS.startsWith x "temp-"
        then Done (EditQuiz.mkState qs' (EditQuiz.table st) (EditQuiz.sent st))
        else
          let sent' := EditQuiz.sent st ++ [EditQuiz.DeleteQuestionById x] in
          match reply with
          | EditQuiz.Applied =>
              Done (EditQuiz.mkState qs'
                      (EditQuiz.delete_eq_id x (EditQuiz.table st)) sent')
          | EditQuiz.Refused =>
              Done (EditQuiz.mkState qs' (EditQuiz.table st) sent')
          | EditQuiz.Rejected =>
              Done (EditQuiz.mkState (EditQuiz.questions st)
                      (EditQuiz.table st) sent')
          end
    end.
Proof.
  unfold EditQuiz.removeQuestion.
  destruct (length (EditQuiz.questions st) =? 1)%nat; [ reflexivity | ].
  destruct (EditQuiz.questions st !! index) as [question | ]; [ | reflexivity ].
  rewrite filter_other_positions.
  destruct (JS.startsWith (id (ident question)) "temp-"); simpl.
  - reflexivity.
  - now destruct reply.
Qed.

Lemma moveQuestion_run {I} (index : nat) (direction : Direction)
    (qs : list (Question I)) :
  moveQuestion index direction qs =
  if ((neighbour index direction <? 0)
      || (Z.of_nat (length qs) <=? neighbour index direction))%Z
  then Done qs
  else
    match qs !! Z.to_nat (neighbour index direction), qs !! index with
    | Some qn, Some qi =>
        Done (resequence (<[Z.to_nat (neighbour index direction) := qi]>
                            (<[index := qn]> qs)))
    | _, _ => OffType
    end.
Proof. reflexivity. Qed.

(** Inside the list a move swaps two neighbours and renumbers. *)
Lemma moveQuestion_inside {I} (index : nat) (direction : Direction)
    (qs : list (Question I)) :
  (0 <= neighbour index direction < Z.of_nat (length qs))%Z ->
  (index < length qs)%nat ->
  exists qi qn,
    qs !! index = Some qi
    /\ qs !! Z.to_nat (neighbour index direction) = Some qn
    /\ moveQuestion index direction qs
       = Done (resequence (<[Z.to_nat (neighbour index direction) := qi]>
                             (<[index := qn]> qs))).
Proof.
  intros Hn Hi.
  destruct (lookup_lt_is_Some_2 qs index Hi) as [qi Hqi].
  destruct (lookup_lt_is_Some_2 qs (Z.to_nat (neighbour index direction)))
    as [qn Hqn]; [ lia | ].
  exists qi, qn. repeat split; try assumption.
  rewrite moveQuestion_run, Hqi, Hqn.
  destruct (Z.ltb_spec (neighbour index direction) 0); [ lia | ].
  destruct (Z.leb_spec (Z.of_nat (length qs)) (neighbour index direction));
    [ lia | reflexivity ].
Qed.

Lemma addOption_run {I} (qi : nat) (qs : list (Question I)) :
  addOption qi qs =
  match qs !! qi with
  | None => Threw qs
  | Some q =>
      if (5 <=? length (options q))%nat then Done qs
      else Done (<[qi := set_options q (options q ++ [""])]> qs)
  end.
Proof.
  unfold addOption, run. run_step.
  destruct (questions_at qs qi) as [(q & Hq & Hs & Hlt) | [Hq Hs]].
  - run_lookup Hs Hq Hlt.
    destruct (5 <=? length (options q))%nat; run_lookup Hs Hq Hlt.
    + now rewrite view_all.
    + now rewrite view_insert.
  - rewrite Hs, Hq. cbn -[view seq Nat.leb]. now rewrite view_all.
Qed.

(** Rewriting a question without touching its [order_index] keeps the
    numbering. *)
Lemma sequenced_insert {I} (qs : list (Question I)) (i : nat)
    (q q' : Question I) :
  sequenced qs ->
  qs !! i = Some q ->
  order_index q' = order_index q ->
  sequenced (<[i := q']> qs).
Proof.
  intros Hs Hq Ho j x Hx.
  destruct (decide (i = j)) as [-> | Hne].
  - rewrite list_lookup_insert_eq in Hx by (eapply lookup_lt_Some; exact Hq).
    injection Hx as <-. rewrite Ho. now apply Hs.
  - rewrite list_lookup_insert_ne in Hx by exact Hne. now apply Hs.
Qed.

Lemma sequenced_addQuestion (qs : list CreateQuiz.Draft) :
  sequenced qs -> sequenced (CreateQuiz.addQuestion qs).
Proof.
  intros Hs i q. unfold CreateQuiz.addQuestion.
  destruct (Nat.lt_ge_cases i (length qs)) as [Hlt | Hge].
  - rewrite lookup_app_l by exact Hlt. apply Hs.
  - rewrite lookup_app_r by exact Hge.
    destruct (i - length qs)%nat as [ | k] eqn:E; simpl; [ | discriminate ].
    intros [= <-]. simpl. f_equal. lia.
Qed.

(** Every handler of the create form keeps the numbering by position. *)
Lemma CreateQuiz_handle_sequenced (e : CreateQuiz.Event)
    (qs qs' : list CreateQuiz.Draft) :
  sequenced qs ->
  CreateQuiz.handle e qs = Done qs' \/ CreateQuiz.handle e qs = Threw qs' ->
  sequenced qs'.
Proof.
  intros Hs.
  destruct e as [ | index | index direction | index field value | qi | qi oi
                | qi oi value ]; simpl.
  - intros [[= <-] | [=]]. now apply sequenced_addQuestion.
  - intros [[= <-] | [=]]. rewrite CreateQuiz_removeQuestion_run.
    destruct (length qs =? 1)%nat; [ exact Hs | apply sequenced_resequence ].
  - rewrite moveQuestion_run. destruct (_ || _)%bool.
    { intros [[= <-] | [=]]. exact Hs. }
    destruct (qs !! Z.to_nat (neighbour index direction));
      [ | intros [[=] | [=]] ].
    destruct (qs !! index); [ | intros [[=] | [=]] ].
    intros [[= <-] | [=]]. apply sequenced_resequence.
  - unfold updateQuestion. destruct (qs !! index) as [q | ] eqn:Hq;
      [ | intros [[=] | [=]] ].
    intros [[= <-] | [=]].
    apply (sequenced_insert qs index q); [ exact Hs | exact Hq | ].
    now destruct field.
  - rewrite addOption_run. destruct (qs !! qi) as [q | ] eqn:Hq.
    + destruct (5 <=? length (options q))%nat; intros [[= <-] | [=]];
        [ exact Hs | ].
      now apply (sequenced_insert qs qi q).
    + intros [[=] | [= <-]]. exact Hs.
  - rewrite CreateQuiz_removeOption_run. destruct (qs !! qi) as [q | ] eqn:Hq.
    + destruct (length (options q) <=? 2)%nat; intros [[= <-] | [=]];
        [ exact Hs | ].
      apply (sequenced_insert qs qi q); [ exact Hs | exact Hq | ].
      cbv zeta. unfold JS.strict_eq.
      destruct (options q !! S oi) as [o | ];
        [ destruct (correct_answer q =? o) | ]; reflexivity.
    + intros [[=] | [= <-]]. exact Hs.
  - rewrite CreateQuiz_updateOption_run. destruct (qs !! qi) as [q | ] eqn:Hq.
    + destruct (JS.assign (options q) oi value); [ | intros [[=] | [=]] ].
      intros [[= <-] | [=]]. now apply (sequenced_insert qs qi q).
    + intros [[=] | [= <-]]. exact Hs.
Qed.

Lemma CreateQuiz_reachable_sequenced (qs : list CreateQuiz.Draft) :
  CreateQuiz.reachable qs -> sequenced qs.
Proof.
  induction 1 as [ | qs e qs' _ IH Hstep | qs e qs' _ IH Hstep].
  - intros i q. destruct i as [ | i]; [ | discriminate ].
    intros [= <-]. reflexivity.
  - apply (CreateQuiz_handle_sequenced e qs qs' IH). now left.
  - apply (CreateQuiz_handle_sequenced e qs qs' IH). now right.
Qed.

Lemma state_after_local (r : after (list (Question Ids)))
    (st st' : EditQuiz.State) :
  EditQuiz.state_after (EditQuiz.local r st) = Some st' ->
  EditQuiz.state_after r = Some (EditQuiz.questions st').
Proof. destruct r; simpl; intros [= <-]; reflexivity. Qed.

Lemma sequenced_EditQuiz_addQuestion (quizId now : string)
    (qs : list (Question Ids)) :
  sequenced qs -> sequenced (EditQuiz.addQuestion quizId now qs).
Proof.
  intros Hs i q. unfold EditQuiz.addQuestion.
  destruct (Nat.lt_ge_cases i (length qs)) as [Hlt | Hge].
  - rewrite lookup_app_l by exact Hlt. apply Hs.
  - rewrite lookup_app_r by exact Hge.
    destruct (i - length qs)%nat as [ | k] eqn:E; simpl; [ | discriminate ].
    intros [= <-]. simpl. f_equal. lia.
Qed.

(** Every handler of the edit form keeps the numbering by position. *)
Lemma EditQuiz_handle_sequenced (e : EditQuiz.Event)
    (st st' : EditQuiz.State) :
  sequenced (EditQuiz.questions st) ->
  EditQuiz.state_after (EditQuiz.handle e st) = Some st' ->
  sequenced (EditQuiz.questions st').
Proof.
  intros Hs.
  destruct e as [ quizId now | index reply | index direction
                | index field value | qi | qi oi | qi oi value ];
    cbn [EditQuiz.handle].
  - intros [= <-]. now apply sequenced_EditQuiz_addQuestion.
  - rewrite EditQuiz_removeQuestion_run.
    destruct (length (EditQuiz.questions st) =? 1)%nat.
    { intros [= <-]. exact Hs. }
    destruct (EditQuiz.questions st !! index) as [question | ].
    2:{ intros [= <-]. exact Hs. }
    cbv zeta.
    destruct (JS.startsWith (id (ident question)) "temp-");
      [ | destruct reply ];
      intros [= <-]; simpl;
      first [ apply sequenced_resequence | exact Hs ].
  - intros H. apply state_after_local in H. revert H.
    rewrite moveQuestion_run. destruct (_ || _)%bool.
    { intros [= <-]. exact Hs. }
    destruct (EditQuiz.questions st !! Z.to_nat (neighbour index direction));
      [ | discriminate ].
    destruct (EditQuiz.questions st !! index); [ | discriminate ].
    intros [= <-]. apply sequenced_resequence.
  - intros H. apply state_after_local in H. revert H.
    unfold updateQuestion.
    destruct (EditQuiz.questions st !! index) as [q | ] eqn:Hq;
      [ | discriminate ].
    intros [= <-].
    apply (sequenced_insert _ index q); [ exact Hs | exact Hq | ].
    now destruct field.
  - intros H. apply state_after_local in H. revert H.
    rewrite addOption_run.
    destruct (EditQuiz.questions st !! qi) as [q | ] eqn:Hq.
    + destruct (5 <=? length (options q))%nat; intros [= <-];
        [ exact Hs | ].
      now apply (sequenced_insert _ qi q).
    + intros [= <-]. exact Hs.
  - intros H. apply state_after_local in H. revert H.
    rewrite EditQuiz_removeOption_run.
    destruct (EditQuiz.questions st !! qi) as [q | ] eqn:Hq.
    + destruct (length (options q) <=? 2)%nat; intros [= <-];
        [ exact Hs | ].
      apply (sequenced_insert _ qi q); [ exact Hs | exact Hq | ].
      cbv zeta. unfold JS.strict_eq.
      destruct (options q !! oi) as [o | ];
        [ destruct (correct_answer q =? o) | ]; reflexivity.
    + intros [= <-]. exact Hs.
  - intros H. apply state_after_local in H. revert H.
    rewrite EditQuiz_updateOption_run.
    destruct (EditQuiz.questions st !! qi) as [q | ] eqn:Hq.
    + destruct (JS.assign (options q) oi value); [ | discriminate ].
      intros [= <-].
      apply (sequenced_insert _ qi q); [ exact Hs | exact Hq | ].
      unfold JS.strict_eq.
      destruct (options q !! oi) as [o' | ];
        [ destruct (correct_answer q =? o') | ]; reflexivity.
    + intros [= <-]. exact Hs.
Qed.

Lemma EditQuiz_session_sequenced (st st' : EditQuiz.State) :
  EditQuiz.session st st' ->
  sequenced (EditQuiz.questions st) ->
  sequenced (EditQuiz.questions st').
Proof.
  induction 1 as [ st | st e st1 st2 Hstep _ IH ]; intros Hs.
  - exact Hs.
  - apply IH. now apply (EditQuiz_handle_sequenced e st st1).
Qed.

(** C8: [removeQuestion] (create form and edit form) and [moveQuestion]
    (the same in both forms) return the list unchanged in their no-op
    cases (one question left; a move across the first or the last
    position; in the edit form also a store call that rejects) and
    otherwise return the list with the question removed, or the two
    questions swapped, and renumbered, so that every question's
    [order_index] is its position.  Hence a list numbered by position
    stays so under both; every list a session of the create form reaches
    is numbered by position, and so is every list a session of the edit
    form reaches from a list that is. *)
Theorem order_index_follows_position :
  (forall (index : nat) (qs : list CreateQuiz.Draft),
      (length qs = 1%nat -> CreateQuiz.removeQuestion index qs = qs)
      /\ (length qs <> 1%nat ->
          CreateQuiz.removeQuestion index qs = resequence (delete index qs)
          /\ sequenced (CreateQuiz.removeQuestion index qs))
      /\ (sequenced qs -> sequenced (CreateQuiz.removeQuestion index qs)))
  /\ (forall (index : nat) (reply : EditQuiz.Reply) (st : EditQuiz.State),
      (length (EditQuiz.questions st) = 1%nat ->
       EditQuiz.removeQuestion index reply st = Done st)
      /\ (length (EditQuiz.questions st) <> 1%nat ->
          forall question,
            EditQuiz.questions st !! index = Some question ->
            exists st',
              EditQuiz.removeQuestion index reply st = Done st'
              /\ (JS.startsWith (id (ident question)) "temp-" = true
                  \/ reply <> EditQuiz.Rejected ->
                  EditQuiz.questions st'
                  = resequence (delete index (EditQuiz.questions st))
                  /\ length (EditQuiz.questions st')
                     = (length (EditQuiz.questions st) - 1)%nat
                  /\ sequenced (EditQuiz.questions st'))
              /\ (JS.startsWith (id (ident question)) "temp-" = false ->
                  reply = EditQuiz.Rejected ->
                  EditQuiz.questions st' = EditQuiz.questions st))
      /\ (sequenced (EditQuiz.questions st) ->
          forall st', EditQuiz.removeQuestion index reply st = Done st' ->
                      sequenced (EditQuiz.questions st')))
  /\ (forall (I : Type) (index : nat) (direction : Direction)
             (qs : list (Question I)),
      ((neighbour index direction < 0
        \/ Z.of_nat (length qs) <= neighbour index direction)%Z ->
       moveQuestion index direction qs = Done qs)
      /\ ((0 <= neighbour index direction < Z.of_nat (length qs))%Z ->
          (index < length qs)%nat ->
          exists qs',
            moveQuestion index direction qs = Done qs'
            /\ length qs' = length qs
            /\ sequenced qs')
      /\ (sequenced qs ->
          forall qs', moveQuestion index direction qs = Done qs' ->
                      sequenced qs'))
  /\ (forall qs : list CreateQuiz.Draft,
        CreateQuiz.reachable qs -> sequenced qs)
  /\ (forall st st' : EditQuiz.State,
        EditQuiz.session st st' ->
        sequenced (EditQuiz.questions st) ->
        sequenced (EditQuiz.questions st')).
Proof.
  split; [ | split; [ | split; [ | split;
    [ exact CreateQuiz_reachable_sequenced
    | exact EditQuiz_session_sequenced ] ] ] ].
  - intros index qs. rewrite CreateQuiz_removeQuestion_run.
    repeat split.
    + intros ->. reflexivity.
    + destruct (Nat.eqb_spec (length qs) 1); [ contradiction | reflexivity ].
    + destruct (Nat.eqb_spec (length qs) 1); [ contradiction | ].
      apply sequenced_resequence.
    + intros Hs. destruct (length qs =? 1)%nat;
        [ exact Hs | apply sequenced_resequence ].
  - intros index reply st. rewrite EditQuiz_removeQuestion_run.
    split; [ | split ].
    + intros ->. reflexivity.
    + intros Hn question Hq.
      destruct (Nat.eqb_spec (length (EditQuiz.questions st)) 1);
        [ contradiction | ].
      rewrite Hq. cbv zeta.
      assert (Hlen : length (resequence (delete index (EditQuiz.questions st)))
                     = (length (EditQuiz.questions st) - 1)%nat).
      { rewrite length_resequence, length_delete; [ reflexivity | ].
        now rewrite Hq. }
      destruct (JS.startsWith (id (ident question)) "temp-");
        [ | destruct reply ];
        eexists; (split; [ reflexivity | ]); simpl; split;
        try (intros _; split; [ reflexivity | split;
                [ exact Hlen | apply sequenced_resequence ] ]);
        try discriminate; try reflexivity.
      * intros [H | H]; [ discriminate | now destruct H ].
    + intros Hs st'.
      destruct (length (EditQuiz.questions st) =? 1)%nat.
      { intros [= <-]. exact Hs. }
      destruct (EditQuiz.questions st !! index) as [question | ];
        [ | discriminate ].
      simpl.
      destruct (JS.startsWith (id (ident question)) "temp-");
        [ | destruct reply ];
        intros [= <-]; simpl;
        first [ apply sequenced_resequence | exact Hs ].
  - intros I index direction qs. repeat split.
    + intros Hout. rewrite moveQuestion_run.
      destruct (Z.ltb_spec (neighbour index direction) 0); [ reflexivity | ].
      destruct (Z.leb_spec (Z.of_nat (length qs)) (neighbour index direction));
        [ reflexivity | lia ].
    + intros Hn Hi.
      destruct (moveQuestion_inside index direction qs Hn Hi)
        as (qi & qn & _ & _ & ->).
      eexists. split; [ reflexivity | ]. split.
      * now rewrite length_resequence, !length_insert.
      * apply sequenced_resequence.
    + intros Hs qs'. rewrite moveQuestion_run.
      destruct (_ || _)%bool.
      { intros [= <-]. exact Hs. }
      destruct (qs !! Z.to_nat (neighbour index direction)); [ | discriminate ].
      destruct (qs !! index); [ | discriminate ].
      intros [= <-]. apply sequenced_resequence.
Qed.

(** The theorem at work: removing the first of two drafts, moving the
    first of two drafts down, and removing the first of two stored
    questions of the edit form when the store accepts and when the call
    rejects. *)
Lemma order_index_follows_position_witness :
  let a := mkQuestion (mkIds "r1" "z") "a" ["x"; "y"] "x" 0 in
  let b := mkQuestion (mkIds "r2" "z") "b" ["x"; "y"] "y" 1 in
  let st := EditQuiz.mkState [a; b] [a; b] [] in
  sequenced (CreateQuiz.removeQuestion 0
               [mkQuestion tt "a" ["x"; "y"] "x" 0;
                mkQuestion tt "b" ["x"; "y"] "y" 1])
  /\ (exists qs',
         moveQuestion 0 down
           [mkQuestion tt "a" ["x"; "y"] "x" 0;
            mkQuestion tt "b" ["x"; "y"] "y" 1] = Done qs'
         /\ length qs' = 2%nat /\ sequenced qs')
  /\ (exists st',
         EditQuiz.removeQuestion 0 EditQuiz.Applied st = Done st'
         /\ EditQuiz.questions st' = resequence [b])
  /\ (exists st',
         EditQuiz.removeQuestion 0 EditQuiz.Rejected st = Done st'
         /\ EditQuiz.questions st' = [a; b]).
Proof.
  intros a b st.
  destruct order_index_follows_position as (Hremove & Hedit & Hmove & _).
  split; [ | split; [ | split ] ].
  - destruct (Hremove 0%nat
                [mkQuestion tt "a" ["x"; "y"] "x" 0;
                 mkQuestion tt "b" ["x"; "y"] "y" 1]) as (_ & H & _).
    apply H. simpl. lia.
  - destruct (Hmove unit 0%nat down
                [mkQuestion tt "a" ["x"; "y"] "x" 0;
                 mkQuestion tt "b" ["x"; "y"] "y" 1]) as (_ & H & _).
    apply H; simpl; lia.
  - destruct (Hedit 0%nat EditQuiz.Applied st) as (_ & H & _).
    destruct (H ltac:(simpl; lia) a eq_refl) as (st' & Hrun & Hacts & _).
    exists st'. split; [ exact Hrun | ].
    apply Hacts. right. discriminate.
  - destruct (Hedit 0%nat EditQuiz.Rejected st) as (_ & H & _).
    destruct (H ltac:(simpl; lia) a eq_refl) as (st' & Hrun & _ & Hkeeps).
    exists st'. split; [ exact Hrun | ].
    now apply Hkeeps.
Defined.

(** C8 as stated fails in the edit form.  A quiz has the stored questions
    a, b, c numbered 0, 1, 2.  The author removes a: the store deletes
    the row at once, and b and c keep their numbers 1 and 2 there.  The
    form is left without saving and opened again: [fetchQuiz] loads b
    and c with the numbers 1 and 2.  Moving b up is a no-op, after which
    the questions at the positions 0 and 1 still carry 1 and 2; so is
    removing a question once only one is left. *)
Lemma EditQuiz_noop_keeps_stale_numbering :
  let q (k : Z) (name : string) := mkQuestion (mkIds name "z") name ["x"; "y"] "x" k in
  let opened :=
    EditQuiz.mkState [q 0%Z "a"; q 1%Z "b"; q 2%Z "c"]
                     [q 0%Z "a"; q 1%Z "b"; q 2%Z "c"] [] in
  exists st1,
    EditQuiz.removeQuestion 0 EditQuiz.Applied opened = Done st1
    /\ EditQuiz.table st1 = [q 1%Z "b"; q 2%Z "c"]
    /\ EditQuiz.fetchQuiz "z" (EditQuiz.table st1) [q 1%Z "b"; q 2%Z "c"]
    /\ moveQuestion 0 up [q 1%Z "b"; q 2%Z "c"] = Done [q 1%Z "b"; q 2%Z "c"]
    /\ ~ sequenced [q 1%Z "b"; q 2%Z "c"]
    /\ EditQuiz.removeQuestion 0 EditQuiz.Applied
         (EditQuiz.mkState [q 1%Z "b"] [q 1%Z "b"] [])
       = Done (EditQuiz.mkState [q 1%Z "b"] [q 1%Z "b"] [])
    /\ ~ sequenced [q 1%Z "b"].
Proof.
  intros q opened. eexists.
  split; [ reflexivity | ]. split; [ reflexivity | ].
  split; [ | split; [ reflexivity | split; [ | split; [ reflexivity | ] ] ] ].
  - split; [ reflexivity | ].
    intros [ | [ | i]] [ | [ | j]] x y Hij; simpl;
      intros [= <-] [= <-]; simpl; lia.
  - intros H. specialize (H 0%nat (q 1%Z "b") eq_refl). discriminate.
  - intros H. specialize (H 0%nat (q 1%Z "b") eq_refl). discriminate.
Qed.

(** ** What [removeQuestion] of the edit form does to the store *)

Lemma delete_eq_id_gone (x : string) (rows : list (Question Ids)) :
  Forall (fun row => id (ident row) <> x) (EditQuiz.delete_eq_id x rows).
Proof.
  apply List.Forall_forall. intros row Hin.
  apply filter_In in Hin as [_ Hne].
  intros Heq. apply String.eqb_eq in Heq. now rewrite Heq in Hne.
Qed.

Lemma delete_eq_id_keeps (x : string) (rows : list (Question Ids))
    (row : Question Ids) :
  In row rows -> id (ident row) <> x -> In row (EditQuiz.delete_eq_id x rows).
Proof.
  intros Hin Hne. apply filter_In. split; [ exact Hin | ].
  apply negb_true_iff, String.eqb_neq, Hne.
Qed.

Lemma delete_eq_id_incl (x : string) (rows : list (Question Ids))
    (row : Question Ids) :
  In row (EditQuiz.delete_eq_id x rows) -> In row rows.
Proof. intros Hin. now apply filter_In in Hin. Qed.

(** No handler of the form adds a row to the table. *)
Lemma handle_table_incl (e : EditQuiz.Event) (st st' : EditQuiz.State)
    (row : Question Ids) :
  EditQuiz.state_after (EditQuiz.handle e st) = Some st' ->
  In row (EditQuiz.table st') -> In row (EditQuiz.table st).
Proof.
  destruct e; simpl;
    try (match goal with
         | |- context [EditQuiz.local ?r _] => destruct r
         end; simpl; try discriminate; intros [= <-]; simpl; tauto).
  - intros [= <-]. simpl. tauto.
  - rewrite EditQuiz_removeQuestion_run.
    destruct (length (EditQuiz.questions st) =? 1)%nat.
    { intros [= <-]. tauto. }
    destruct (EditQuiz.questions st !! index) as [question | ]; simpl.
    2: { intros [= <-]. tauto. }
    destruct (JS.startsWith (id (ident question)) "temp-");
      [ | destruct reply ]; simpl; intros [= <-]; simpl;
      try tauto.
    apply delete_eq_id_incl.
Qed.

Lemma session_table_incl (st st' : EditQuiz.State) (row : Question Ids) :
  EditQuiz.session st st' ->
  In row (EditQuiz.table st') -> In row (EditQuiz.table st).
Proof.
  induction 1 as [ | st e st1 st2 Hstep _ IH]; [ tauto | ].
  intros Hin. eapply handle_table_incl; [ exact Hstep | ]. now apply IH.
Qed.

(** C10 as amended: in the edit form, [removeQuestion] on a question
    whose id does not start with "temp-", and which is not the only
    question, sends the store a delete of that row by itself, whatever
    the store replies;
    once the store has applied it the row is gone from the table, the
    other rows are still there, and no run of editing events without a
    save brings it back. *)
Theorem EditQuiz_removeQuestion_deletes_stored_row
    (index : nat) (reply : EditQuiz.Reply) (st : EditQuiz.State)
    (question : Question Ids) :
  length (EditQuiz.questions st) <> 1%nat ->
  EditQuiz.questions st !! index = Some question ->
  JS.startsWith (id (ident question)) "temp-" = false ->
  exists st',
    EditQuiz.removeQuestion index reply st = Done st'
    /\ EditQuiz.sent st'
       = EditQuiz.sent st ++ [EditQuiz.DeleteQuestionById (id (ident question))]
    /\ (reply = EditQuiz.Applied ->
        EditQuiz.table st'
        = EditQuiz.delete_eq_id (id (ident question)) (EditQuiz.table st)
        /\ (forall row, In row (EditQuiz.table st) ->
                        id (ident row) <> id (ident question) ->
                        In row (EditQuiz.table st'))
        /\ (forall st'', EditQuiz.session st' st'' ->
                         Forall (fun row => id (ident row) <> id (ident question))
                                (EditQuiz.table st''))).
Proof.
  intros Hlen Hq Hid.
  rewrite EditQuiz_removeQuestion_run, Hq. simpl. rewrite Hid.
  destruct (Nat.eqb_spec (length (EditQuiz.questions st)) 1);
    [ contradiction | ].
  destruct reply; eexists; (split; [ reflexivity | ]);
    (split; [ reflexivity | ]); try discriminate.
  intros _. simpl. split; [ reflexivity | ]. split.
  - intros row. apply delete_eq_id_keeps.
  - intros st'' Hsession. apply List.Forall_forall. intros row Hin.
    apply (session_table_incl _ _ row Hsession) in Hin. simpl in Hin.
    pose proof (delete_eq_id_gone (id (ident question)) (EditQuiz.table st)) as Hgone.
    rewrite List.Forall_forall in Hgone. now apply Hgone.
Qed.

(** C10 as stated fails on a quiz with a single stored question:
    [removeQuestion] returns at its first line, sends nothing and the row
    stays in the table, whatever the store would have replied. *)
Lemma EditQuiz_removeQuestion_keeps_only_question :
  let q := mkQuestion (mkIds "7f3a" "quiz") "one" ["x"; "y"] "x" 0 in
  let st := EditQuiz.mkState [q] [q] [] in
  JS.startsWith (id (ident q)) "temp-" = false
  /\ EditQuiz.removeQuestion 0 EditQuiz.Applied st = Done st
  /\ EditQuiz.removeQuestion 0 EditQuiz.Refused st = Done st
  /\ EditQuiz.removeQuestion 0 EditQuiz.Rejected st = Done st
  /\ EditQuiz.sent st = []
  /\ In q (EditQuiz.table st).
Proof. repeat split. now left. Qed.

(** The theorem on a quiz with two stored questions: removing the first
    sends the delete and leaves only the second row in the table. *)
Lemma EditQuiz_removeQuestion_deletes_stored_row_witness :
  let q1 := mkQuestion (mkIds "7f3a" "quiz") "one" ["x"; "y"] "x" 0 in
  let q2 := mkQuestion (mkIds "9c1d" "quiz") "two" ["x"; "y"] "y" 1 in
  exists st',
    EditQuiz.removeQuestion 0 EditQuiz.Applied
      (EditQuiz.mkState [q1; q2] [q1; q2] []) = Done st'
    /\ EditQuiz.sent st' = [EditQuiz.DeleteQuestionById "7f3a"]
    /\ EditQuiz.table st' = [q2].
Proof.
  intros q1 q2.
  destruct (EditQuiz_removeQuestion_deletes_stored_row 0 EditQuiz.Applied
              (EditQuiz.mkState [q1; q2] [q1; q2] []) q1)
    as (st' & Hrun & Hsent & Htable).
  - simpl. lia.
  - reflexivity.
  - reflexivity.
  - exists st'. split; [ exact Hrun | ]. split; [ exact Hsent | ].
    destruct (Htable eq_refl) as (-> & _). reflexivity.
Defined.

(** ** [validateForm] *)

Lemma validateQuestions_step {I} (i : nat) (q : Question I)
    (rest : list (Question I)) :
  validateQuestions i (q :: rest) =
  if breaks rule_b q then Some (EnterText (i + 1))
  else if breaks rule_c q then Some (FillOptions (i + 1))
  else if breaks rule_d q then Some (SelectCorrect (i + 1))
  else if breaks rule_e q then Some (CorrectNotAnOption (i + 1))
  else validateQuestions (S i) rest.
Proof. reflexivity. Qed.

Lemma clean_iff {I} (q : Question I) :
  clean q <->
  breaks rule_b q = false /\ breaks rule_c q = false
  /\ breaks rule_d q = false /\ breaks rule_e q = false.
Proof.
  split.
  - intros H. repeat split; apply H.
  - intros (Hb & Hc & Hd & He) r. now destruct r.
Qed.

Lemma validateQuestions_none {I} (i0 : nat) (qs : list (Question I)) :
  validateQuestions i0 qs = None <-> List.Forall clean qs.
Proof.
  revert i0. induction qs as [ | q rest IH]; intros i0.
  - simpl. split; [ constructor | reflexivity ].
  - rewrite validateQuestions_step. split.
    + intros H.
      destruct (breaks rule_b q) eqn:Hb; [ discriminate | ].
      destruct (breaks rule_c q) eqn:Hc; [ discriminate | ].
      destruct (breaks rule_d q) eqn:Hd; [ discriminate | ].
      destruct (breaks rule_e q) eqn:He; [ discriminate | ].
      constructor; [ now apply clean_iff | now apply (IH (S i0)) ].
    + intros H. inversion H as [ | ? ? Hq Hrest]; subst.
      apply clean_iff in Hq as (-> & -> & -> & ->).
      now apply IH.
Qed.

Lemma validateQuestions_some {I} (i0 : nat) (qs : list (Question I))
    (al : Alert) :
  validateQuestions i0 qs = Some al <->
  exists i r, al = alert_of r (i0 + i + 1) /\ r <> rule_a /\ first_breach qs i r.
Proof.
  revert i0. induction qs as [ | q rest IH]; intros i0.
  - simpl. split; [ discriminate | ].
    intros (i & r & _ & _ & q & Hq & _). now rewrite lookup_nil in Hq.
  - rewrite validateQuestions_step. split.
    + intros H.
      assert (Hhead : forall r, r <> rule_a -> breaks r q = true ->
                (forall r', (rank r' < rank r)%nat -> breaks r' q = false) ->
                al = alert_of r (i0 + 1) ->
                exists i r, al = alert_of r (i0 + i + 1) /\ r <> rule_a
                            /\ first_breach (q :: rest) i r).
      { intros r Hr Hbr Hearlier ->. exists 0%nat, r.
        rewrite Nat.add_0_r. repeat split; try assumption.
        exists q. repeat split; try assumption. intros j q' Hj. lia. }
      destruct (breaks rule_b q) eqn:Hb.
      { injection H as <-. apply (Hhead rule_b); try easy.
        intros r' Hr'. destruct r'; simpl in Hr'; try lia. reflexivity. }
      destruct (breaks rule_c q) eqn:Hc.
      { injection H as <-. apply (Hhead rule_c); try easy.
        intros r' Hr'. destruct r'; simpl in Hr'; try lia; easy. }
      destruct (breaks rule_d q) eqn:Hd.
      { injection H as <-. apply (Hhead rule_d); try easy.
        intros r' Hr'. destruct r'; simpl in Hr'; try lia; easy. }
      destruct (breaks rule_e q) eqn:He.
      { injection H as <-. apply (Hhead rule_e); try easy.
        intros r' Hr'. destruct r'; simpl in Hr'; try lia; easy. }
      apply IH in H as (i & r & -> & Hr & q' & Hq' & Hbefore & Hbr & Hearlier).
      exists (S i), r. split; [ f_equal; lia | ]. split; [ exact Hr | ].
      exists q'. repeat split; try assumption.
      intros j q'' Hj Hq''. destruct j as [ | j].
      * injection Hq'' as <-. now apply clean_iff.
      * apply (Hbefore j); [ lia | exact Hq'' ].
    + intros (i & r & -> & Hr & q' & Hq' & Hbefore & Hbr & Hearlier).
      destruct i as [ | i].
      * injection Hq' as <-. rewrite Nat.add_0_r.
        destruct r; try contradiction; simpl alert_of.
        -- now rewrite Hbr.
        -- rewrite (Hearlier rule_b) by (simpl; lia). now rewrite Hbr.
        -- rewrite (Hearlier rule_b), (Hearlier rule_c) by (simpl; lia).
           now rewrite Hbr.
        -- rewrite (Hearlier rule_b), (Hearlier rule_c), (Hearlier rule_d)
             by (simpl; lia).
           now rewrite Hbr.
      * assert (Hq : clean q) by (apply (Hbefore 0%nat); [ lia | reflexivity ]).
        apply clean_iff in Hq as (-> & -> & -> & ->).
        apply IH. exists i, r. split; [ f_equal; lia | ].
        split; [ exact Hr | ].
        exists q'. repeat split; try assumption.
        intros j q'' Hj Hq''. apply (Hbefore (S j)); [ lia | exact Hq'' ].
Qed.

(** C4 as amended: [validateForm] reports the first breach in the order
    it scans the draft: the title first, then the questions by position,
    and within one question the rules (b), (c), (d), (e) in that order.
    It accepts the draft exactly when the title is filled in and every
    question is clean. *)
Theorem validateForm_reports_first_breach {I} (title : string)
    (qs : list (Question I)) :
  (validateForm title qs = None <->
   JS.falsy (JS.trim title) = false /\ List.Forall clean qs)
  /\ (validateForm title qs = Some EnterTitle <->
      JS.falsy (JS.trim title) = true)
  /\ (forall (r : Rule) (n : nat),
        r <> rule_a ->
        (validateForm title qs = Some (alert_of r n) <->
         JS.falsy (JS.trim title) = false
         /\ exists i, n = (i + 1)%nat /\ first_breach qs i r)).
Proof.
  unfold validateForm. split; [ | split ].
  - split.
    + destruct (JS.falsy (JS.trim title)); [ discriminate | ].
      intros H. split; [ reflexivity | ].
      now apply validateQuestions_none in H.
    + intros [-> H]. now apply validateQuestions_none.
  - split.
    + destruct (JS.falsy (JS.trim title)); [ reflexivity | ].
      intros H. apply validateQuestions_some in H as (i & r & H & Hr & _).
      destruct r; try contradiction; discriminate.
    + now intros ->.
  - intros r n Hr. split.
    + destruct (JS.falsy (JS.trim title)).
      { intros [= E]. destruct r; try contradiction; discriminate. }
      intros Hv. split; [ reflexivity | ].
      apply validateQuestions_some in Hv as (i & r' & E & Hr' & Hb).
      exists i. simpl in E.
      destruct r, r'; try contradiction; try discriminate; injection E as ->;
        (split; [ reflexivity | exact Hb ]).
    + intros (-> & i & -> & Hb).
      apply validateQuestions_some. exists i, r. repeat split; assumption.
Qed.

(** C4 as stated fails: question 1 breaks only rule (d), question 2 breaks
    rule (b); the handler reports (d) for question 1, where the rule
    order (a) to (e) over the whole draft puts (b) first. *)
Lemma validateForm_not_in_rule_order :
  let qs := [mkQuestion tt "first" ["x"; "y"] "" 0;
             mkQuestion tt "" ["x"; "y"] "x" 1] in
  validateForm "Quiz" qs = Some (SelectCorrect 1)
  /\ first_violated_rule "Quiz" qs = Some rule_b
  /\ rule_of <$> validateForm "Quiz" qs <> first_violated_rule "Quiz" qs.
Proof. repeat split. discriminate. Qed.

(** The amended statement on the same draft: the first breach is rule (d)
    at the first question, and that is the alert. *)
Lemma validateForm_reports_first_breach_witness :
  validateForm "Quiz"
    [mkQuestion tt "first" ["x"; "y"] "" 0; mkQuestion tt "" ["x"; "y"] "x" 1]
  = Some (SelectCorrect 1).
Proof.
  apply (proj2 (proj2 (validateForm_reports_first_breach "Quiz"
           [mkQuestion tt "first" ["x"; "y"] "" 0;
            mkQuestion tt "" ["x"; "y"] "x" 1])) rule_d 1%nat).
  - discriminate.
  - split; [ reflexivity | ].
    exists 0%nat. split; [ reflexivity | ].
    exists (mkQuestion tt "first" ["x"; "y"] "" 0).
    split; [ reflexivity | ]. split; [ intros j q' Hj; lia | ].
    split; [ reflexivity | ].
    intros r' Hr'. destruct r'; simpl in Hr'; try lia; reflexivity.
Defined.

(** ** The quiz-taking engine *)

Lemma strict_eq_true (a : option string) (c : string) :
  JS.strict_eq a (Some c) = true <-> a = Some c.
Proof.
  destruct a as [x | ]; simpl.
  - rewrite String.eqb_eq. split; congruence.
  - split; discriminate.
Qed.

Lemma calculateScore_from_counts (questions : list (Question Ids))
    (answers : list string) (rest : list (Question Ids)) (i acc : nat) :
  drop i questions = rest ->
  TakeQuiz.calculateScore_from i rest answers acc =
  (acc + length (filter (fun i => answers !! i = correct_answer <$> questions !! i)
                        (seq i (length rest))))%nat.
Proof.
  revert i acc. induction rest as [ | q rest IH]; intros i acc Hdrop.
  - simpl. lia.
  - assert (Hq : questions !! i = Some q).
    { pose proof (lookup_drop questions i 0) as H.
      rewrite Hdrop, Nat.add_0_r in H. now symmetry. }
    assert (Hrest : drop (S i) questions = rest).
    { replace (S i) with (i + 1)%nat by lia.
      rewrite <- drop_drop, Hdrop. reflexivity. }
    simpl TakeQuiz.calculateScore_from. rewrite (IH (S i) _ Hrest).
    cbn [length seq]. rewrite filter_cons, Hq. simpl fmap.
    destruct (JS.strict_eq (answers !! i) (Some (correct_answer q))) eqn:E.
    + apply strict_eq_true in E.
      rewrite decide_True by exact E. simpl. lia.
    + rewrite decide_False; [ lia | ].
      intros E'. apply strict_eq_true in E'. congruence.
Qed.

Lemma calculateScore_counts (st : TakeQuiz.State) :
  TakeQuiz.calculateScore st
  = count_correct (TakeQuiz.questions st) (TakeQuiz.answers st).
Proof.
  unfold TakeQuiz.calculateScore, count_correct.
  now rewrite (calculateScore_from_counts (TakeQuiz.questions st) _ _ 0 0).
Qed.

(** What [handleSubmit] does when nothing stops it. *)
Lemma handleSubmit_run (reply : TakeQuiz.Reply) (st : TakeQuiz.State) :
  TakeQuiz.handleSubmit reply st =
  if JS.falsy (JS.trim (TakeQuiz.studentName st))
     || JS.falsy (JS.trim (TakeQuiz.studentEmail st))
  then (Some TakeQuiz.EnterNameAndEmail, st)
  else if existsb (fun a => JS.falsy (JS.trim a)) (TakeQuiz.answers st)
  then (Some TakeQuiz.AnswerAll, st)
  else
    match reply with
    | TakeQuiz.Failed =>
        (Some TakeQuiz.SubmitFailed, TakeQuiz.setSubmitting false st)
    | TakeQuiz.Inserted =>
        (None,
         TakeQuiz.mkState (TakeQuiz.id st) (TakeQuiz.questions st)
           (TakeQuiz.currentQuestion st) (TakeQuiz.answers st)
           (TakeQuiz.studentName st) (TakeQuiz.studentEmail st)
           false true (TakeQuiz.calculateScore st) true
           (TakeQuiz.responses st
            ++ [TakeQuiz.row st (TakeQuiz.calculateScore st)]))
    end.
Proof.
  unfold TakeQuiz.handleSubmit.
  destruct (_ || _); [ reflexivity | ].
  unfold JS.some. destruct (existsb _ _); [ reflexivity | ].
  destruct reply; reflexivity.
Qed.

(** C5: the score is the number of positions at which the answer is
    exactly the question's correct answer (so the answers A, C against
    the correct answers A, B score 1, and neither another case nor a
    trailing space counts), and the row an accepted submission inserts
    carries that score and [total_questions], the number of questions. *)
Theorem score_counts_exact_matches :
  (forall st : TakeQuiz.State,
      TakeQuiz.calculateScore st
      = count_correct (TakeQuiz.questions st) (TakeQuiz.answers st))
  /\ (forall (st : TakeQuiz.State),
        let N := length (TakeQuiz.questions st) in
        let st' := snd (TakeQuiz.handleSubmit TakeQuiz.Inserted st) in
        fst (TakeQuiz.handleSubmit TakeQuiz.Inserted st) = None ->
        exists inserted,
          TakeQuiz.responses st' = TakeQuiz.responses st ++ [inserted]
          /\ TakeQuiz.get "total_questions" inserted
             = Some (TakeQuiz.JNumber (Z.of_nat N))
          /\ TakeQuiz.get "score" inserted
             = Some (TakeQuiz.JNumber
                       (Z.of_nat (count_correct (TakeQuiz.questions st)
                                                (TakeQuiz.answers st))))
          /\ TakeQuiz.score st'
             = count_correct (TakeQuiz.questions st) (TakeQuiz.answers st))
  /\ (let q c := mkQuestion (mkIds "q" "z") "text" ["A"; "B"; "C"] c 0 in
      let taken a :=
        TakeQuiz.mkState "z" [q "A"; q "B"] 1 a "Ann" "ann@example.org"
                         false false 0 false [] in
      TakeQuiz.calculateScore (taken ["A"; "C"]) = 1%nat
      /\ TakeQuiz.calculateScore (taken ["a"; "B"]) = 1%nat
      /\ TakeQuiz.calculateScore (taken ["A "; "B"]) = 1%nat
      /\ TakeQuiz.calculateScore (taken ["A"; "B"]) = 2%nat).
Proof.
  split; [ exact calculateScore_counts | ]. split.
  - intros st N st'. subst st'. rewrite handleSubmit_run.
    destruct (_ || _); [ discriminate | ].
    destruct (existsb _ _); [ discriminate | ].
    intros _. simpl. eexists. split; [ reflexivity | ].
    rewrite calculateScore_counts. repeat split.
  - repeat split.
Qed.

(** The theorem on a two-question quiz answered A, C. *)
Lemma score_counts_exact_matches_witness :
  let q c := mkQuestion (mkIds "q" "z") "text" ["A"; "B"; "C"] c 0 in
  let st := TakeQuiz.mkState "z" [q "A"; q "B"] 1 ["A"; "C"] "Ann"
                             "ann@example.org" false false 0 false [] in
  exists inserted,
    TakeQuiz.responses (snd (TakeQuiz.handleSubmit TakeQuiz.Inserted st))
    = [inserted]
    /\ TakeQuiz.get "total_questions" inserted = Some (TakeQuiz.JNumber 2)
    /\ TakeQuiz.get "score" inserted = Some (TakeQuiz.JNumber 1).
Proof.
  intros q st.
  destruct score_counts_exact_matches as (_ & H & _).
  destruct (H st) as (inserted & Hr & Ht & Hs & _); [ reflexivity | ].
  exists inserted. split; [ exact Hr | ]. split; [ exact Ht | exact Hs ].
Defined.

Lemma falsy_trim_empty : JS.falsy (JS.trim "") = true.
Proof. reflexivity. Qed.

Lemma filled_not_missing (s : string) :
  JS.falsy (JS.trim s) = false -> ~ missing s.
Proof. intros H ->. now rewrite falsy_trim_empty in H. Qed.

Lemma all_filled_none_missing (l : list string) :
  existsb (fun a => JS.falsy (JS.trim a)) l = false ->
  List.Forall (fun a => ~ missing a) l.
Proof.
  induction l as [ | a l IH]; simpl; [ constructor | ].
  intros H. apply orb_false_iff in H as [Ha Hl].
  constructor; [ now apply filled_not_missing | now apply IH ].
Qed.

(** Only an accepted [handleSubmit] called in a state that passes the
    guard brings up the results, and it leaves answers, name and e-mail
    as they were. *)
Lemma handle_shows_results (e : TakeQuiz.Event) (st st' : TakeQuiz.State) :
  TakeQuiz.handle e st = Some st' ->
  TakeQuiz.showResults st = false ->
  TakeQuiz.showResults st' = true ->
  e = TakeQuiz.Submit TakeQuiz.Inserted
  /\ complete st
  /\ TakeQuiz.answers st' = TakeQuiz.answers st
  /\ TakeQuiz.studentName st' = TakeQuiz.studentName st
  /\ TakeQuiz.studentEmail st' = TakeQuiz.studentEmail st.
Proof.
  intros Hstep Hhidden Hshown.
  destruct e as [a | | | v | v | reply]; simpl in Hstep.
  - unfold TakeQuiz.handleAnswerChange in Hstep.
    destruct (JS.assign _ _ _); [ | discriminate ].
    injection Hstep as <-. simpl in Hshown. congruence.
  - injection Hstep as <-. unfold TakeQuiz.nextQuestion in Hshown.
    destruct (_ <? _)%Z; simpl in Hshown; congruence.
  - injection Hstep as <-. unfold TakeQuiz.previousQuestion in Hshown.
    destruct (_ <? _)%nat; simpl in Hshown; congruence.
  - injection Hstep as <-. simpl in Hshown. congruence.
  - injection Hstep as <-. simpl in Hshown. congruence.
  - injection Hstep as <-. revert Hshown. rewrite handleSubmit_run.
    destruct (JS.falsy (JS.trim (TakeQuiz.studentName st))) eqn:Hn;
      [ simpl; congruence | ].
    destruct (JS.falsy (JS.trim (TakeQuiz.studentEmail st))) eqn:He;
      [ simpl; congruence | ].
    destruct (existsb _ (TakeQuiz.answers st)) eqn:Ha;
      [ simpl; congruence | ].
    destruct reply; simpl; [ | congruence ].
    intros _. now repeat split.
Qed.

Lemma complete_none_missing (st : TakeQuiz.State) :
  complete st ->
  List.Forall (fun a => ~ missing a) (TakeQuiz.answers st)
  /\ ~ missing (TakeQuiz.studentName st)
  /\ ~ missing (TakeQuiz.studentEmail st).
Proof.
  intros (Hn & He & Ha).
  split; [ now apply all_filled_none_missing | ].
  split; now apply filled_not_missing.
Qed.

(** The two halves of [handleSubmit]. *)
Lemma handleSubmit_call_run (st : TakeQuiz.State) :
  TakeQuiz.handleSubmit_call st =
  if JS.falsy (JS.trim (TakeQuiz.studentName st))
     || JS.falsy (JS.trim (TakeQuiz.studentEmail st))
  then (inl TakeQuiz.EnterNameAndEmail, st)
  else if existsb (fun a => JS.falsy (JS.trim a)) (TakeQuiz.answers st)
  then (inl TakeQuiz.AnswerAll, st)
  else (inr (TakeQuiz.mkPending
               (TakeQuiz.row st (TakeQuiz.calculateScore st))
               (TakeQuiz.calculateScore st)),
        TakeQuiz.setSubmitting true st).
Proof.
  unfold TakeQuiz.handleSubmit_call.
  destruct (_ || _); [ reflexivity | ].
  unfold JS.some. destruct (existsb _ _); reflexivity.
Qed.

(** A call during which nothing else is handled is the first half
    followed at once by the second. *)
Lemma handleSubmit_call_resume (reply : TakeQuiz.Reply) (st : TakeQuiz.State) :
  TakeQuiz.handleSubmit reply st =
  match TakeQuiz.handleSubmit_call st with
  | (inl alert, st') => (Some alert, st')
  | (inr p, st') => TakeQuiz.handleSubmit_resume reply p st'
  end.
Proof.
  rewrite handleSubmit_run, handleSubmit_call_run.
  destruct (_ || _); [ reflexivity | ].
  destruct (existsb _ _); [ reflexivity | ].
  destruct reply; reflexivity.
Qed.

(** A handler other than [handleSubmit] touches neither the results nor
    the responses. *)
Lemma handle_edit_keeps (e : TakeQuiz.Event) (st st' : TakeQuiz.State) :
  (forall reply, e <> TakeQuiz.Submit reply) ->
  TakeQuiz.handle e st = Some st' ->
  TakeQuiz.id st' = TakeQuiz.id st
  /\ TakeQuiz.questions st' = TakeQuiz.questions st
  /\ TakeQuiz.submitted st' = TakeQuiz.submitted st
  /\ TakeQuiz.showResults st' = TakeQuiz.showResults st
  /\ TakeQuiz.score st' = TakeQuiz.score st
  /\ TakeQuiz.responses st' = TakeQuiz.responses st.
Proof.
  intros Hedit Hstep.
  destruct e as [a | | | v | v | reply]; simpl in Hstep.
  - unfold TakeQuiz.handleAnswerChange in Hstep.
    destruct (JS.assign _ _ _); [ | discriminate ].
    now injection Hstep as <-.
  - injection Hstep as <-. unfold TakeQuiz.nextQuestion.
    now destruct (_ <? _)%Z.
  - injection Hstep as <-. unfold TakeQuiz.previousQuestion.
    now destruct (_ <? _)%nat.
  - now injection Hstep as <-.
  - now injection Hstep as <-.
  - now destruct (Hedit reply).
Qed.

(** A session in which no call of [handleSubmit] is awaiting the store
    can go on with any handler; [handleSubmit] then runs with nothing
    handled in between. *)
Lemma running_handle (quizId : string) (qs : list (Question Ids))
    (st : TakeQuiz.State) (e : TakeQuiz.Event) (st' : TakeQuiz.State) :
  TakeQuiz.running quizId qs None st ->
  TakeQuiz.showResults st = false ->
  TakeQuiz.handle e st = Some st' ->
  TakeQuiz.running quizId qs None st'.
Proof.
  intros Hrun Hhidden Hstep.
  destruct e as [a | | | v | v | reply];
    try (eapply (TakeQuiz.run_handle quizId qs None st _ st' Hrun Hhidden);
         [ | exact Hstep ]; intros reply; discriminate).
  simpl in Hstep. injection Hstep as <-.
  rewrite handleSubmit_call_resume.
  destruct (TakeQuiz.handleSubmit_call st) as [[alert | p] st1] eqn:Hcall.
  - rewrite handleSubmit_call_run in Hcall. simpl.
    destruct (JS.falsy (JS.trim (TakeQuiz.studentName st))
              || JS.falsy (JS.trim (TakeQuiz.studentEmail st)));
      [ inversion Hcall; subst; exact Hrun | ].
    destruct (existsb _ (TakeQuiz.answers st));
      [ inversion Hcall; subst; exact Hrun | discriminate ].
  - apply TakeQuiz.run_resume.
    now apply (TakeQuiz.run_call quizId qs st p st1).
Qed.

(** What holds all along a session: the response table of the session is
    empty until the results are shown and then holds the one object the
    accepted call sent, and what a call awaiting the store has sent is a
    complete response. *)
Lemma running_invariant (quizId : string) (qs : list (Question Ids))
    (p : option TakeQuiz.Pending) (st : TakeQuiz.State) :
  TakeQuiz.running quizId qs p st ->
  TakeQuiz.id st = quizId
  /\ TakeQuiz.questions st = qs
  /\ TakeQuiz.submitted st = TakeQuiz.showResults st
  /\ (forall pd, p = Some pd ->
        TakeQuiz.showResults st = false
        /\ complete_response quizId qs (TakeQuiz.calculatedScore pd)
                             (TakeQuiz.inserting pd))
  /\ (if TakeQuiz.showResults st
      then exists inserted,
             TakeQuiz.responses st = [inserted]
             /\ complete_response quizId qs (TakeQuiz.score st) inserted
      else TakeQuiz.responses st = [] /\ TakeQuiz.score st = 0%nat).
Proof.
  induction 1 as [ | p st e st' _ IH Hhidden Hedit Hstep
                   | st p st' _ IH Hhidden Hcall
                   | p st reply _ IH ].
  - simpl. repeat split. discriminate.
  - destruct IH as (Hid & Hqs & Hsub & Hp & Hshown).
    destruct (handle_edit_keeps e st st' Hedit Hstep)
      as (Eid & Eqs & Esub & Eshow & Escore & Eresp).
    rewrite Eid, Eqs, Esub, Eshow, Escore, Eresp.
    split; [ exact Hid | ]. split; [ exact Hqs | ]. split; [ exact Hsub | ].
    split; [ exact Hp | exact Hshown ].
  - destruct IH as (Hid & Hqs & Hsub & _ & Hshown).
    rewrite Hhidden in Hshown. destruct Hshown as (Hresp & Hscore).
    rewrite handleSubmit_call_run in Hcall.
    destruct (JS.falsy (JS.trim (TakeQuiz.studentName st))) eqn:Hn;
      [ discriminate | ].
    destruct (JS.falsy (JS.trim (TakeQuiz.studentEmail st))) eqn:He;
      [ discriminate | ].
    simpl in Hcall.
    destruct (existsb _ (TakeQuiz.answers st)) eqn:Ha; [ discriminate | ].
    injection Hcall as <- <-. simpl. rewrite Hhidden.
    split; [ exact Hid | ]. split; [ exact Hqs | ]. split; [ congruence | ].
    split; [ | now split ].
    intros pd [= <-]. split; [ reflexivity | ]. simpl.
    exists (JS.trim (TakeQuiz.studentName st)),
           (JS.trim (TakeQuiz.studentEmail st)), (TakeQuiz.answers st).
    unfold TakeQuiz.row. rewrite Hid, Hqs, calculateScore_counts, Hqs.
    split; [ reflexivity | ].
    split; [ unfold missing; intros E; now rewrite E in Hn | ].
    split; [ unfold missing; intros E; now rewrite E in He | ].
    split; [ now apply all_filled_none_missing | reflexivity ].
  - destruct IH as (Hid & Hqs & Hsub & Hp & Hshown).
    destruct (Hp p eq_refl) as (Hhidden & Hsent).
    rewrite Hhidden in Hshown. destruct Hshown as (Hresp & Hscore).
    destruct reply; simpl.
    + split; [ exact Hid | ]. split; [ exact Hqs | ]. split; [ reflexivity | ].
      split; [ discriminate | ].
      exists (TakeQuiz.inserting p). rewrite Hresp. now split.
    + rewrite Hhidden.
      split; [ exact Hid | ]. split; [ exact Hqs | ]. split; [ congruence | ].
      split; [ discriminate | now split ].
Qed.

(** C6: [handleSubmit] called while an answer, the name or the e-mail is
    missing raises an alert, sends nothing and leaves the state as it
    was, the responses table included; a call that sends a request was
    made with no answer, name or e-mail missing; the results come up
    only through a [handleSubmit] that the store accepted.  So in every
    state a session reaches, with anything the taker does while a call
    awaits the store, the results are shown only if exactly one response
    was inserted, and that response has a name, an e-mail and no answer
    missing. *)
Theorem results_need_complete_submission :
  (forall (reply : TakeQuiz.Reply) (st : TakeQuiz.State),
      In "" (TakeQuiz.answers st)
      \/ missing (TakeQuiz.studentName st)
      \/ missing (TakeQuiz.studentEmail st) ->
      exists alert,
        TakeQuiz.handleSubmit reply st = (Some alert, st)
        /\ TakeQuiz.handleSubmit_call st = (inl alert, st))
  /\ (forall (st : TakeQuiz.State) (p : TakeQuiz.Pending) (st' : TakeQuiz.State),
        TakeQuiz.handleSubmit_call st = (inr p, st') ->
        List.Forall (fun a => ~ missing a) (TakeQuiz.answers st)
        /\ ~ missing (TakeQuiz.studentName st)
        /\ ~ missing (TakeQuiz.studentEmail st)
        /\ TakeQuiz.get "answers" (TakeQuiz.inserting p)
           = Some (TakeQuiz.JStrings (TakeQuiz.answers st))
        /\ TakeQuiz.get "student_name" (TakeQuiz.inserting p)
           = Some (TakeQuiz.JString (JS.trim (TakeQuiz.studentName st)))
        /\ TakeQuiz.get "student_email" (TakeQuiz.inserting p)
           = Some (TakeQuiz.JString (JS.trim (TakeQuiz.studentEmail st)))
        /\ TakeQuiz.showResults st' = TakeQuiz.showResults st
        /\ TakeQuiz.responses st' = TakeQuiz.responses st)
  /\ (forall (reply : TakeQuiz.Reply) (p : TakeQuiz.Pending)
             (st : TakeQuiz.State),
        let st' := snd (TakeQuiz.handleSubmit_resume reply p st) in
        TakeQuiz.showResults st = false ->
        TakeQuiz.showResults st' = true ->
        reply = TakeQuiz.Inserted
        /\ TakeQuiz.responses st' = TakeQuiz.responses st ++ [TakeQuiz.inserting p])
  /\ (forall (e : TakeQuiz.Event) (st st' : TakeQuiz.State),
        TakeQuiz.handle e st = Some st' ->
        TakeQuiz.showResults st = false ->
        TakeQuiz.showResults st' = true ->
        e = TakeQuiz.Submit TakeQuiz.Inserted
        /\ List.Forall (fun a => ~ missing a) (TakeQuiz.answers st)
        /\ ~ missing (TakeQuiz.studentName st)
        /\ ~ missing (TakeQuiz.studentEmail st))
  /\ (forall (quizId : string) (qs : list (Question Ids)) (st : TakeQuiz.State),
        TakeQuiz.reachable quizId qs st ->
        TakeQuiz.showResults st = true ->
        exists inserted name email answers,
          TakeQuiz.responses st = [inserted]
          /\ TakeQuiz.get "student_name" inserted
             = Some (TakeQuiz.JString name)
          /\ ~ missing name
          /\ TakeQuiz.get "student_email" inserted
             = Some (TakeQuiz.JString email)
          /\ ~ missing email
          /\ TakeQuiz.get "answers" inserted = Some (TakeQuiz.JStrings answers)
          /\ List.Forall (fun a => ~ missing a) answers).
Proof.
  split; [ | split; [ | split; [ | split ] ] ].
  - intros reply st H. rewrite handleSubmit_run, handleSubmit_call_run.
    destruct (JS.falsy (JS.trim (TakeQuiz.studentName st))) eqn:Hn;
      [ simpl; eauto | ].
    destruct (JS.falsy (JS.trim (TakeQuiz.studentEmail st))) eqn:He;
      [ simpl; eauto | ].
    simpl.
    destruct (existsb _ (TakeQuiz.answers st)) eqn:Ha; [ eauto | ].
    exfalso. destruct H as [H | [H | H]].
    + apply all_filled_none_missing in Ha.
      rewrite List.Forall_forall in Ha. now apply (Ha "" H).
    + now apply (filled_not_missing _ Hn).
    + now apply (filled_not_missing _ He).
  - intros st p st' Hcall. rewrite handleSubmit_call_run in Hcall.
    destruct (JS.falsy (JS.trim (TakeQuiz.studentName st))) eqn:Hn;
      [ discriminate | ].
    destruct (JS.falsy (JS.trim (TakeQuiz.studentEmail st))) eqn:He;
      [ discriminate | ].
    simpl in Hcall.
    destruct (existsb _ (TakeQuiz.answers st)) eqn:Ha; [ discriminate | ].
    injection Hcall as <- <-.
    split; [ now apply all_filled_none_missing | ].
    split; [ now apply filled_not_missing | ].
    split; [ now apply filled_not_missing | ].
    now repeat split.
  - intros reply p st st' Hhidden Hshown. subst st'.
    destruct reply; simpl in *; [ now split | congruence ].
  - intros e st st' Hstep Hhidden Hshown.
    destruct (handle_shows_results e st st' Hstep Hhidden Hshown)
      as (He & Hc & _).
    split; [ exact He | now apply complete_none_missing ].
  - intros quizId qs st [p Hrun] Hshown.
    destruct (running_invariant quizId qs p st Hrun) as (_ & _ & _ & _ & H).
    rewrite Hshown in H.
    destruct H as (inserted & Hresp & name & email & answers
                   & -> & Hn & He & Ha & _).
    eexists; exists name, email, answers. split; [ exact Hresp | ].
    now repeat split.
Qed.

(** The theorem on a session of a one-question quiz: the taker answers,
    enters a name and an e-mail and submits, and changes the name to Bob
    while the store has not replied: the response inserted is Ann's; and
    a submission with the answer still missing is turned down. *)
Lemma results_need_complete_submission_witness :
  let q := mkQuestion (mkIds "q" "z") "text" ["A"; "B"] "A" 0 in
  let sent :=
    TakeQuiz.row (TakeQuiz.mkState "z" [q] 0 ["A"] "Ann" "ann@example.org"
                                   true false 0 false []) 1 in
  let st :=
    TakeQuiz.mkState "z" [q] 0 ["A"] "Bob" "ann@example.org"
                     false true 1 true [sent] in
  (exists inserted name,
      TakeQuiz.responses st = [inserted]
      /\ TakeQuiz.get "student_name" inserted = Some (TakeQuiz.JString name)
      /\ ~ missing name)
  /\ exists alert,
       TakeQuiz.handleSubmit TakeQuiz.Inserted (TakeQuiz.loaded "z" [q])
       = (Some alert, TakeQuiz.loaded "z" [q]).
Proof.
  intros q sent st.
  destruct results_need_complete_submission as (Hreject & _ & _ & _ & Hshown).
  split.
  - destruct (Hshown "z" [q] st) as (inserted & name & _ & _ & Hr & Hn & Hm & _);
      [ | reflexivity | exists inserted, name; now repeat split ].
    pose (s1 := TakeQuiz.mkState "z" [q] 0 ["A"] "" "" false false 0 false []).
    pose (s2 := TakeQuiz.setStudentName "Ann" s1).
    pose (s3 := TakeQuiz.setStudentEmail "ann@example.org" s2).
    pose (s4 := TakeQuiz.setSubmitting true s3).
    pose (s5 := TakeQuiz.setStudentName "Bob" s4).
    exists None.
    apply (TakeQuiz.run_resume "z" [q] (TakeQuiz.mkPending sent 1) s5
             TakeQuiz.Inserted).
    apply (TakeQuiz.run_handle "z" [q] _ s4 (TakeQuiz.StudentName "Bob"));
      [ | reflexivity | intros reply; discriminate | reflexivity ].
    apply (TakeQuiz.run_call "z" [q] s3); [ | reflexivity | reflexivity ].
    apply (running_handle "z" [q] s2 (TakeQuiz.StudentEmail "ann@example.org"));
      [ | reflexivity | reflexivity ].
    apply (running_handle "z" [q] s1 (TakeQuiz.StudentName "Ann"));
      [ | reflexivity | reflexivity ].
    apply (running_handle "z" [q] (TakeQuiz.loaded "z" [q])
             (TakeQuiz.AnswerChange "A"));
      [ | reflexivity | reflexivity ].
    apply TakeQuiz.run_loaded.
  - destruct (Hreject TakeQuiz.Inserted (TakeQuiz.loaded "z" [q]))
      as (alert & H & _); [ left; simpl; now left | ].
    now exists alert.
Defined.

(** C6 as stated fails.  On a one-question quiz the taker answers, enters
    a name and an e-mail and submits; while the store has not replied
    the name input is still live, and the taker empties it.  When the
    store accepts, the results come up in a state whose [studentName] is
    empty. *)
Lemma results_shown_with_the_name_emptied :
  let q := mkQuestion (mkIds "q" "z") "text" ["A"; "B"] "A" 0 in
  let filled :=
    TakeQuiz.mkState "z" [q] 0 ["A"] "Ann" "ann@example.org"
                     false false 0 false [] in
  exists (p : TakeQuiz.Pending) (awaiting emptied shown : TakeQuiz.State),
    TakeQuiz.running "z" [q] None filled
    /\ TakeQuiz.handleSubmit_call filled = (inr p, awaiting)
    /\ TakeQuiz.handle (TakeQuiz.StudentName "") awaiting = Some emptied
    /\ TakeQuiz.handleSubmit_resume TakeQuiz.Inserted p emptied = (None, shown)
    /\ TakeQuiz.reachable "z" [q] shown
    /\ TakeQuiz.showResults shown = true
    /\ missing (TakeQuiz.studentName shown).
Proof.
  intros q filled.
  pose (s1 := TakeQuiz.mkState "z" [q] 0 ["A"] "" "" false false 0 false []).
  pose (s2 := TakeQuiz.setStudentName "Ann" s1).
  assert (Hfilled : TakeQuiz.running "z" [q] None filled).
  { apply (running_handle "z" [q] s2 (TakeQuiz.StudentEmail "ann@example.org"));
      [ | reflexivity | reflexivity ].
    apply (running_handle "z" [q] s1 (TakeQuiz.StudentName "Ann"));
      [ | reflexivity | reflexivity ].
    apply (running_handle "z" [q] (TakeQuiz.loaded "z" [q])
             (TakeQuiz.AnswerChange "A"));
      [ | reflexivity | reflexivity ].
    apply TakeQuiz.run_loaded. }
  pose (awaiting := TakeQuiz.setSubmitting true filled).
  pose (p := TakeQuiz.mkPending (TakeQuiz.row filled 1) 1).
  pose (emptied := TakeQuiz.setStudentName "" awaiting).
  exists p, awaiting, emptied,
         (snd (TakeQuiz.handleSubmit_resume TakeQuiz.Inserted p emptied)).
  split; [ exact Hfilled | ].
  split; [ reflexivity | ]. split; [ reflexivity | ].
  split; [ reflexivity | ].
  split; [ | split; reflexivity ].
  exists None.
  apply (TakeQuiz.run_resume "z" [q] p emptied TakeQuiz.Inserted).
  apply (TakeQuiz.run_handle "z" [q] (Some p) awaiting (TakeQuiz.StudentName ""));
    [ | reflexivity | intros reply; discriminate | reflexivity ].
  apply (TakeQuiz.run_call "z" [q] filled);
    [ exact Hfilled | reflexivity | reflexivity ].
Qed.

(** ** The row [handleSubmit] inserts *)

(** The keys of the inserted object: [student_register_number] is not
    among them. *)
Lemma row_keys (st : TakeQuiz.State) (n : nat) :
  fst <$> TakeQuiz.row st n
  = ["quiz_id"; "student_name"; "student_email"; "answers"; "score";
     "total_questions"].
Proof. reflexivity. Qed.

(** C2, what the code does instead: whatever the state, the submission
    either inserts nothing or inserts one object, and that object has the
    keys [student_name], [student_email], [answers], [score] and
    [total_questions] but no key [student_register_number]. *)
Theorem handleSubmit_row_lacks_register_number (st : TakeQuiz.State) :
  let st' := snd (TakeQuiz.handleSubmit TakeQuiz.Inserted st) in
  TakeQuiz.responses st' = TakeQuiz.responses st
  \/ exists inserted,
       TakeQuiz.responses st' = TakeQuiz.responses st ++ [inserted]
       /\ TakeQuiz.get "student_register_number" inserted = None
       /\ TakeQuiz.get "student_name" inserted
          = Some (TakeQuiz.JString (JS.trim (TakeQuiz.studentName st)))
       /\ TakeQuiz.get "student_email" inserted
          = Some (TakeQuiz.JString (JS.trim (TakeQuiz.studentEmail st)))
       /\ TakeQuiz.get "answers" inserted
          = Some (TakeQuiz.JStrings (TakeQuiz.answers st))
       /\ TakeQuiz.get "score" inserted
          = Some (TakeQuiz.JNumber (Z.of_nat (TakeQuiz.calculateScore st)))
       /\ TakeQuiz.get "total_questions" inserted
          = Some (TakeQuiz.JNumber (Z.of_nat (length (TakeQuiz.questions st)))).
Proof.
  intros st'. subst st'. rewrite handleSubmit_run.
  destruct (_ || _); [ now left | ].
  destruct (existsb _ _); [ now left | ].
  right. eexists. split; [ reflexivity | ]. repeat split.
Qed.

(** A complete submission of a one-question quiz: the object inserted. *)
Lemma handleSubmit_example :
  let q := mkQuestion (mkIds "q" "z") "text" ["A"; "B"] "A" 0 in
  TakeQuiz.responses
    (snd (TakeQuiz.handleSubmit TakeQuiz.Inserted
            (TakeQuiz.mkState "z" [q] 0 ["A"] "Ann" "ann@example.org"
                              false false 0 false [])))
  = [[ ("quiz_id", TakeQuiz.JString "z");
       ("student_name", TakeQuiz.JString "Ann");
       ("student_email", TakeQuiz.JString "ann@example.org");
       ("answers", TakeQuiz.JStrings ["A"]);
       ("score", TakeQuiz.JNumber 1);
       ("total_questions", TakeQuiz.JNumber 1) ]].
Proof. reflexivity. Qed.

(** ** [calculateStats] *)

Lemma floor_half_rounds_half_up (s : bool) (m : positive) (e : Z) :
  (e < 0)%Z ->
  rounds_half_up (if s then Z.neg m else Z.pos m) e (JS.floor_half s m e).
Proof.
  intros He. unfold rounds_half_up, JS.floor_half.
  destruct (Z.leb_spec 0 e) as [H | _]; [ lia | ].
  set (v := if s then Z.neg m else Z.pos m).
  set (a := (- e)%Z).
  assert (Ha : (0 < 2 ^ a)%Z) by (apply Z.pow_pos_nonneg; lia).
  replace (2 ^ (a + 1))%Z with (2 * 2 ^ a)%Z
    by (rewrite Z.pow_add_r by lia; lia).
  pose proof (Z.div_mod (2 * v + 2 ^ a) (2 * 2 ^ a)) as Hdiv.
  pose proof (Z.mod_pos_bound (2 * v + 2 ^ a) (2 * 2 ^ a)) as Hmod.
  nia.
Qed.

(** [Math.round] on a value with a fractional part rounds half up. *)
Lemma Math_round_half_up (x : float) (s : bool) (m : positive) (e : Z) :
  Prim2SF x = S754_finite s m e ->
  (e < 0)%Z ->
  exists k,
    rounds_half_up (if s then Z.neg m else Z.pos m) e k
    /\ JS.Math_round x
       = if (k =? 0)%Z then (if s then (-0)%float else 0%float) else JS.Z2F k.
Proof.
  intros Hx He. exists (JS.floor_half s m e).
  split; [ now apply floor_half_rounds_half_up | ].
  unfold JS.Math_round. rewrite Hx.
  destruct (Z.leb_spec 0 e) as [H | _]; [ lia | reflexivity ].
Qed.

(** C3 as amended: without responses all three fields are 0; otherwise
    [averageScore] is the mean multiplied by 10, rounded by [Math.round]
    and divided by 10, [totalResponses] is the number of responses, and
    [averagePercentage] is [Math.round] of the unrounded mean divided by
    the number of questions and multiplied by 100, all in binary64;
    [Math.round] rounds half up.  Scores 3, 1, 2 on three questions give
    2 and 67. *)
Theorem calculateStats_rounds_the_unrounded_mean :
  (forall questions,
      QuizResults.calculateStats [] questions = QuizResults.mkStats 0 0 0)
  /\ (forall responses questions,
        responses <> [] ->
        QuizResults.calculateStats responses questions
        = QuizResults.mkStats
            (JS.Math_round (mean_score responses * 10) / 10)%float
            (length responses)
            (JS.Math_round
               (mean_score responses / JS.nat2F (length questions) * 100)%float))
  /\ (forall x s m e,
        Prim2SF x = S754_finite s m e ->
        ((0 <= e)%Z -> JS.Math_round x = x)
        /\ ((e < 0)%Z ->
            exists k,
              rounds_half_up (if s then Z.neg m else Z.pos m) e k
              /\ JS.Math_round x
                 = if (k =? 0)%Z then (if s then (-0)%float else 0%float)
                   else JS.Z2F k))
  /\ (let q := mkQuestion (mkIds "q" "z") "text" ["A"; "B"] "A" 0 in
      let r n := mkResponse "r" "z" "Ann" "ann@example.org" "" [] n 3 "" in
      QuizResults.calculateStats [r 3%Z; r 1%Z; r 2%Z] [q; q; q]
      = QuizResults.mkStats 2 3 67).
Proof.
  split; [ reflexivity | ]. split; [ | split ].
  - intros responses questions Hne.
    unfold QuizResults.calculateStats, mean_score.
    destruct responses as [ | r rs]; [ contradiction | reflexivity ].
  - intros x s m e Hx. split.
    + intros He. unfold JS.Math_round. rewrite Hx.
      destruct (Z.leb_spec 0 e) as [_ | H]; [ reflexivity | lia ].
    + now apply Math_round_half_up.
  - vm_compute. reflexivity.
Qed.

(** The theorem on the scores 1, 1, 2 of a three-question quiz. *)
Lemma calculateStats_rounds_the_unrounded_mean_witness :
  let q := mkQuestion (mkIds "q" "z") "text" ["A"; "B"] "A" 0 in
  let r n := mkResponse "r" "z" "Ann" "ann@example.org" "" [] n 3 "" in
  QuizResults.calculateStats [r 1%Z; r 1%Z; r 2%Z] [q; q; q]
  = QuizResults.mkStats (13 / 10)%float 3 44.
Proof.
  intros q r.
  destruct calculateStats_rounds_the_unrounded_mean as (_ & H & _).
  rewrite H by discriminate.
  vm_compute. reflexivity.
Defined.

(** C3 as stated fails: with the scores 1, 1, 2 on three questions the
    mean is 4/3, [averageScore] is 1.3 and [averagePercentage] is 44,
    the rounding of 44.4; from the rounded 1.3 it would be 43. *)
Lemma averagePercentage_not_from_rounded_average :
  let q := mkQuestion (mkIds "q" "z") "text" ["A"; "B"] "A" 0 in
  let r n := mkResponse "r" "z" "Ann" "ann@example.org" "" [] n 3 "" in
  let stats := QuizResults.calculateStats [r 1%Z; r 1%Z; r 2%Z] [q; q; q] in
  QuizResults.averageScore stats = (13 / 10)%float
  /\ QuizResults.averagePercentage stats = 44%float
  /\ JS.Math_round (QuizResults.averageScore stats / JS.nat2F 3 * 100)%float
     = 43%float
  /\ QuizResults.averagePercentage stats
     <> JS.Math_round (QuizResults.averageScore stats / JS.nat2F 3 * 100)%float.
Proof.
  intros q r stats.
  assert (H1 : QuizResults.averagePercentage stats = 44%float)
    by (vm_compute; reflexivity).
  assert (H2 : JS.Math_round (QuizResults.averageScore stats / JS.nat2F 3 * 100)%float
               = 43%float)
    by (vm_compute; reflexivity).
  split; [ vm_compute; reflexivity | ].
  split; [ exact H1 | ]. split; [ exact H2 | ].
  rewrite H1, H2. intros E.
  apply (f_equal (fun x => PrimFloat.eqb x 44)) in E.
  vm_compute in E. discriminate.
Qed.

(** Binary64 matters: 29 points over 40 responses to 5 questions are
    14.5 percent, but the three operations of the handler end a little
    below it and [Math.round] returns 14. *)
Lemma averagePercentage_in_binary64 :
  let q := mkQuestion (mkIds "q" "z") "text" ["A"; "B"] "A" 0 in
  let r n := mkResponse "r" "z" "Ann" "ann@example.org" "" [] n 5 "" in
  QuizResults.averagePercentage
    (QuizResults.calculateStats (replicate 29 (r 1%Z) ++ replicate 11 (r 0%Z))
                                [q; q; q; q; q])
  = 14%float.
Proof. vm_compute. reflexivity. Qed.

(** ** [exportToCSV] *)

Lemma append_assoc (a b c : string) : ((a ++ b) ++ c = a ++ (b ++ c))%string.
Proof.
  induction a as [ | x a IH]; [ reflexivity | ].
  change (String x ((a ++ b) ++ c) = String x (a ++ (b ++ c)))%string.
  now rewrite IH.
Qed.

Lemma append_empty_r (a : string) : (a ++ "")%string = a.
Proof.
  induction a as [ | x a IH]; [ reflexivity | ].
  change (String x (a ++ "") = String x a)%string.
  now rewrite IH.
Qed.

Lemma flat_cons (x : string) (l : list string) :
  flat (x :: l) = (x ++ flat l)%string.
Proof. reflexivity. Qed.

(** [join] puts the separator before every element but the first. *)
Lemma join_cons (sep x : string) (l : list string) :
  JS.join sep (x :: l)
  = (x ++ flat (map (fun y => sep ++ y) l))%string.
Proof.
  unfold JS.join. revert x. induction l as [ | y l IH]; intros x.
  - simpl. now rewrite append_empty_r.
  - change (String.concat sep (x :: y :: l))
      with (x ++ sep ++ String.concat sep (y :: l))%string.
    rewrite IH. cbn [map]. now rewrite flat_cons, append_assoc.
Qed.

Lemma flat_map_imap {A} (g : string -> string) (f : nat -> A -> string)
    (l : list A) :
  flat (map g (imap f l)) = flat (imap (fun i x => g (f i x)) l).
Proof.
  revert f. induction l as [ | x l IH]; intros f; [ reflexivity | ].
  cbn [imap map]. rewrite !flat_cons. f_equal. apply IH.
Qed.

Lemma headers_joined (questions : list (Question Ids)) :
  JS.join "," (QuizResults.headers questions) = header_line questions.
Proof.
  unfold QuizResults.headers, header_line.
  cbn [app]. rewrite join_cons, !map_cons, !flat_cons, flat_map_imap.
  reflexivity.
Qed.

Lemma dquote_is_quotation_mark : QuizResults.dquote = quotation_mark.
Proof. reflexivity. Qed.

Lemma cells_joined (Number_toString : float -> string)
    (Date_toLocaleString : string -> string) (response : Response) :
  JS.join "," (map QuizResults.quoted
                   (QuizResults.cells Number_toString Date_toLocaleString response))
  = row_line (QuizResults.integer_text Number_toString)
             Number_toString Date_toLocaleString response.
Proof.
  unfold QuizResults.cells, row_line.
  cbn [app]. rewrite !map_cons, join_cons, !map_cons, !flat_cons, !map_map.
  unfold QuizResults.quoted. rewrite dquote_is_quotation_mark.
  rewrite ?append_assoc.
  reflexivity.
Qed.

(** Up to 2^53 the score is written with all its digits, beyond it by
    the built-in. *)
Lemma integer_text_safe (Number_toString : float -> string) (z : Z) :
  safe_integer z ->
  QuizResults.integer_text Number_toString z = JS.Z_toString z.
Proof.
  intros Hz. unfold safe_integer in Hz. unfold QuizResults.integer_text.
  destruct (Z.leb_spec (Z.abs z) (2 ^ 53)) as [_ | H]; [ reflexivity | lia ].
Qed.

Lemma integer_text_beyond (Number_toString : float -> string) (z : Z) :
  ~ safe_integer z ->
  QuizResults.integer_text Number_toString z = Number_toString (JS.Z2F z).
Proof.
  intros Hz. unfold safe_integer in Hz. unfold QuizResults.integer_text.
  destruct (Z.leb_spec (Z.abs z) (2 ^ 53)) as [H | _]; [ | reflexivity ].
  exfalso. apply Hz. lia.
Qed.

Lemma row_line_score_text (f g : Z -> string)
    (Number_toString : float -> string)
    (Date_toLocaleString : string -> string) (response : Response) :
  f (score response) = g (score response) ->
  row_line f Number_toString Date_toLocaleString response
  = row_line g Number_toString Date_toLocaleString response.
Proof. intros E. unfold row_line. now rewrite E. Qed.

(** The exported text, line by line. *)
Lemma exportToCSV_lines (Number_toString : float -> string)
    (Date_toLocaleString : string -> string) (responses : list Response)
    (questions : list (Question Ids)) :
  responses <> [] ->
  QuizResults.exportToCSV Number_toString Date_toLocaleString responses questions
  = Some (header_line questions
          ++ flat (map (fun response =>
                          newline ++ row_line
                                       (QuizResults.integer_text Number_toString)
                                       Number_toString
                                       Date_toLocaleString response)
                       responses))%string.
Proof.
  intros Hne. unfold QuizResults.exportToCSV.
  destruct responses as [ | r rs]; [ contradiction | ].
  cbn [length Nat.eqb]. rewrite join_cons, headers_joined, !map_map.
  do 3 f_equal. apply map_ext. intros response.
  now rewrite cells_joined.
Qed.

Lemma exportToCSV_lines_with (score_text : Z -> string)
    (Number_toString : float -> string)
    (Date_toLocaleString : string -> string) (responses : list Response)
    (questions : list (Question Ids)) :
  responses <> [] ->
  List.Forall (fun response =>
                 QuizResults.integer_text Number_toString (score response)
                 = score_text (score response)) responses ->
  QuizResults.exportToCSV Number_toString Date_toLocaleString responses questions
  = Some (header_line questions
          ++ flat (map (fun response =>
                          newline ++ row_line score_text Number_toString
                                              Date_toLocaleString response)
                       responses))%string.
Proof.
  intros Hne Hall. rewrite exportToCSV_lines by exact Hne.
  do 3 f_equal. apply map_ext_in. intros response Hin.
  rewrite List.Forall_forall in Hall.
  now rewrite (row_line_score_text _ score_text _ _ _ (Hall response Hin)).
Qed.

(** C7: for a non-empty response list the exported text is the header
    line, whose cells are bare, followed for every response, in the order
    of the list, by a line feed and the line of that response: its cells
    joined by commas, each cell between two quotation marks (U+0022)
    with its text as it is; the score is written with all its digits as
    long as it is an integer up to 2^53, and as the built-in writes
    the number beyond.  A quotation mark inside a cell is not doubled:
    the name Jane "JJ" Doe comes out between quotation marks with its
    own two marks unchanged. *)
Theorem exportToCSV_quotes_cells_verbatim :
  (forall Number_toString Date_toLocaleString responses questions,
      responses <> [] ->
      List.Forall (fun response => safe_integer (score response)) responses ->
      QuizResults.exportToCSV Number_toString Date_toLocaleString
                              responses questions
      = Some (header_line questions
              ++ flat (map (fun response =>
                              newline ++ row_line JS.Z_toString Number_toString
                                                  Date_toLocaleString response)
                           responses))%string)
  /\ (forall Number_toString Date_toLocaleString,
        let dq := String (ascii_of_nat 34) EmptyString in
        let jane :=
          mkResponse "r1" "z" ("Jane " ++ dq ++ "JJ" ++ dq ++ " Doe")
                     "jane@example.org" "" ["A"; "C"] 1 2 "2025-01-01" in
        let q := mkQuestion (mkIds "q" "z") "text" ["A"; "B"] "A" 0 in
        QuizResults.exportToCSV Number_toString Date_toLocaleString [jane] [q; q]
        = Some ("Student Name,Email,Score,Percentage,Submitted At,"
                ++ "Question 1,Question 2" ++ newline
                ++ dq ++ "Jane " ++ dq ++ "JJ" ++ dq ++ " Doe" ++ dq ++ ","
                ++ dq ++ "jane@example.org" ++ dq ++ ","
                ++ dq ++ "1" ++ dq ++ ","
                ++ dq ++ Number_toString 50%float ++ "%" ++ dq ++ ","
                ++ dq ++ Date_toLocaleString "2025-01-01" ++ dq ++ ","
                ++ dq ++ "A" ++ dq ++ ","
                ++ dq ++ "C" ++ dq)%string)
  /\ (forall Number_toString Date_toLocaleString responses questions,
        responses <> [] ->
        List.Forall (fun response => ~ safe_integer (score response))
                    responses ->
        QuizResults.exportToCSV Number_toString Date_toLocaleString
                                responses questions
        = Some (header_line questions
                ++ flat (map (fun response =>
                                newline
                                ++ row_line (fun z => Number_toString (JS.Z2F z))
                                            Number_toString
                                            Date_toLocaleString response)
                             responses))%string).
Proof.
  split; [ | split ].
  - intros Number_toString Date_toLocaleString responses questions Hne Hsafe.
    apply exportToCSV_lines_with; [ exact Hne | ].
    eapply List.Forall_impl; [ | exact Hsafe ].
    intros response. apply integer_text_safe.
  - intros Number_toString Date_toLocaleString dq jane q.
    rewrite (exportToCSV_lines_with JS.Z_toString) by
      (try discriminate; repeat constructor).
    unfold header_line, row_line. cbv zeta. cbn [map flat fold_right].
    rewrite ?append_assoc.
    vm_compute. reflexivity.
  - intros Number_toString Date_toLocaleString responses questions Hne Hbeyond.
    apply exportToCSV_lines_with; [ exact Hne | ].
    eapply List.Forall_impl; [ | exact Hbeyond ].
    intros response. apply integer_text_beyond.
Qed.

(** The theorem on two responses to a one-question quiz. *)
Lemma exportToCSV_quotes_cells_verbatim_witness :
  let dq := String (ascii_of_nat 34) EmptyString in
  let q := mkQuestion (mkIds "q" "z") "text" ["A"; "B"] "A" 0 in
  let r name answer n :=
    mkResponse "r" "z" name "x@example.org" "" [answer] n 1 "d" in
  QuizResults.exportToCSV integral_toString (fun s => s)
                          [r "Ann" "A" 1%Z; r "Bob" "B" 0%Z] [q]
  = Some ("Student Name,Email,Score,Percentage,Submitted At,Question 1"
          ++ newline
          ++ dq ++ "Ann" ++ dq ++ "," ++ dq ++ "x@example.org" ++ dq ++ ","
          ++ dq ++ "1" ++ dq ++ "," ++ dq ++ "100%" ++ dq ++ ","
          ++ dq ++ "d" ++ dq ++ "," ++ dq ++ "A" ++ dq
          ++ newline
          ++ dq ++ "Bob" ++ dq ++ "," ++ dq ++ "x@example.org" ++ dq ++ ","
          ++ dq ++ "0" ++ dq ++ "," ++ dq ++ "0%" ++ dq ++ ","
          ++ dq ++ "d" ++ dq ++ "," ++ dq ++ "B" ++ dq)%string.
Proof.
  intros dq q r.
  destruct exportToCSV_quotes_cells_verbatim as [H _].
  rewrite H; [ | discriminate | repeat constructor; vm_compute; discriminate ].
  vm_compute. reflexivity.
Defined.

(** * Further properties of the handlers *)

(** ** Options of a question *)

(** X1: [addOption] on an existing question appends one empty option
    while there are fewer than five and changes nothing from five on; the
    other questions, and the other fields of the question, stay. *)
Theorem addOption_appends_up_to_five {I} (qi : nat) (qs : list (Question I))
    (q : Question I) :
  qs !! qi = Some q ->
  exists q',
    addOption qi qs = Done (<[qi := q']> qs)
    /\ options q'
       = (if (5 <=? length (options q))%nat then options q
          else options q ++ [""])
    /\ question_text q' = question_text q
    /\ correct_answer q' = correct_answer q
    /\ order_index q' = order_index q
    /\ ident q' = ident q
    /\ ((length (options q) <= 5)%nat -> (length (options q') <= 5)%nat).
Proof.
  intros Hq. rewrite addOption_run, Hq.
  destruct (Nat.leb_spec 5 (length (options q))) as [Hge | Hlt].
  - exists q. rewrite list_insert_id by exact Hq. now repeat split.
  - exists (set_options q (options q ++ [""])). repeat split.
    intros _. simpl. rewrite length_app. simpl. lia.
Qed.

Lemma addOption_appends_up_to_five_witness :
  addOption 0 [mkQuestion tt "Q" ["A"; "B"; "C"; "D"] "A" 0]
  = Done [mkQuestion tt "Q" ["A"; "B"; "C"; "D"; ""] "A" 0]
  /\ addOption 0 [mkQuestion tt "Q" ["A"; "B"; "C"; "D"; "E"] "A" 0]
     = Done [mkQuestion tt "Q" ["A"; "B"; "C"; "D"; "E"] "A" 0].
Proof.
  split.
  - destruct (addOption_appends_up_to_five 0
                [mkQuestion tt "Q" ["A"; "B"; "C"; "D"] "A" 0]
                (mkQuestion tt "Q" ["A"; "B"; "C"; "D"] "A" 0) eq_refl)
      as (q' & -> & Ho & Ht & Hc & Hi & Hid & _).
    destruct q' as [i t o c n]. simpl in *. subst. reflexivity.
  - destruct (addOption_appends_up_to_five 0
                [mkQuestion tt "Q" ["A"; "B"; "C"; "D"; "E"] "A" 0]
                (mkQuestion tt "Q" ["A"; "B"; "C"; "D"; "E"] "A" 0) eq_refl)
      as (q' & -> & Ho & Ht & Hc & Hi & Hid & _).
    destruct q' as [i t o c n]. simpl in *. subst. reflexivity.
Defined.


Lemma delete_outside {A} (l : list A) (i : nat) :
  l !! i = None -> delete i l = l.
Proof.
  revert i. induction l as [ | x l IH]; intros i Hi; [ now destruct i | ].
  destruct i as [ | i]; [ discriminate | ].
  simpl. f_equal. now apply IH.
Qed.



Lemma Forall_resequence {I} (P : Question I -> Prop) (qs : list (Question I)) :
  (forall q z, P q -> P (set_order_index q z)) ->
  List.Forall P qs -> List.Forall P (resequence qs).
Proof.
  intros Hset Hqs. apply Forall_lookup. intros i q.
  unfold resequence. rewrite list_lookup_imap.
  destruct (qs !! i) as [q0 | ] eqn:Hq0; simpl; intros [= <-].
  apply Hset. eapply Forall_lookup_1; eassumption.
Qed.

Lemma answer_valid_order {I} (q : Question I) (z : Z) :
  answer_valid q -> answer_valid (set_order_index q z).
Proof. exact (fun H => H). Qed.





Lemma length_delete_at_least {A} (l : list A) (i : nat) :
  (length l - 1 <= length (delete i l))%nat.
Proof.
  destruct (l !! i) as [x | ] eqn:Hx.
  - rewrite length_delete by eauto. lia.
  - rewrite delete_outside by exact Hx. lia.
Qed.

Lemma well_shaped_insert {I} (qs : list (Question I)) (i : nat)
    (q' : Question I) :
  well_shaped qs -> (2 <= length (options q'))%nat ->
  well_shaped (<[i := q']> qs).
Proof.
  intros [Hlen Hopts] Hq'. split.
  - now rewrite length_insert.
  - now apply Forall_insert.
Qed.

Lemma well_shaped_resequence {I} (qs : list (Question I)) :
  well_shaped qs -> well_shaped (resequence qs).
Proof.
  intros [Hlen Hopts]. split.
  - now rewrite length_resequence.
  - apply Forall_resequence; [ intros q z H; exact H | exact Hopts ].
Qed.

Lemma well_shaped_handle (e : CreateQuiz.Event) (qs qs' : list CreateQuiz.Draft) :
  well_shaped qs ->
  CreateQuiz.handle e qs = Done qs' \/ CreateQuiz.handle e qs = Threw qs' ->
  well_shaped qs'.
Proof.
  intros Hw. pose proof Hw as [Hlen Hopts].
  destruct e as [ | index | index direction | index field value | qi | qi oi
                | qi oi value ]; simpl.
  - intros [[= <-] | [=]]. unfold CreateQuiz.addQuestion. split.
    + rewrite length_app. simpl. lia.
    + apply Forall_app. split; [ exact Hopts | ].
      constructor; [ simpl; lia | constructor ].
  - intros [[= <-] | [=]]. rewrite CreateQuiz_removeQuestion_run.
    destruct (Nat.eqb_spec (length qs) 1) as [_ | Hne]; [ exact Hw | ].
    apply well_shaped_resequence. split.
    + pose proof (length_delete_at_least qs index). lia.
    + now apply Forall_delete.
  - rewrite moveQuestion_run. destruct (_ || _)%bool.
    { intros [[= <-] | [=]]. exact Hw. }
    destruct (qs !! Z.to_nat (neighbour index direction)) as [qn | ] eqn:Hqn;
      [ | intros [[=] | [=]] ].
    destruct (qs !! index) as [qi | ] eqn:Hqi; [ | intros [[=] | [=]] ].
    intros [[= <-] | [=]]. apply well_shaped_resequence.
    apply well_shaped_insert; [ apply well_shaped_insert; [ exact Hw | ] | ].
    + exact (Forall_lookup_1 _ _ _ _ Hopts Hqn).
    + exact (Forall_lookup_1 _ _ _ _ Hopts Hqi).
  - unfold updateQuestion. destruct (qs !! index) as [q | ] eqn:Hq;
      [ | intros [[=] | [=]] ].
    intros [[= <-] | [=]]. apply well_shaped_insert; [ exact Hw | ].
    pose proof (Forall_lookup_1 _ _ _ _ Hopts Hq). now destruct field.
  - rewrite addOption_run. destruct (qs !! qi) as [q | ] eqn:Hq.
    + pose proof (Forall_lookup_1 _ _ _ _ Hopts Hq) as H2. simpl in H2.
      destruct (5 <=? length (options q))%nat; intros [[= <-] | [=]];
        [ exact Hw | ].
      apply well_shaped_insert; [ exact Hw | ].
      simpl. rewrite length_app. lia.
    + intros [[=] | [= <-]]. exact Hw.
  - rewrite CreateQuiz_removeOption_run. destruct (qs !! qi) as [q | ] eqn:Hq.
    + destruct (Nat.leb_spec (length (options q)) 2) as [_ | Hgt];
        intros [[= <-] | [=]]; [ exact Hw | ].
      apply well_shaped_insert; [ exact Hw | ].
      pose proof (length_delete_at_least (options q) oi) as Hd.
      cbv zeta. unfold JS.strict_eq.
      destruct (options q !! S oi) as [o | ];
        [ destruct (correct_answer q =? o) | ]; simpl; lia.
    + intros [[=] | [= <-]]. exact Hw.
  - rewrite CreateQuiz_updateOption_run. destruct (qs !! qi) as [q | ] eqn:Hq.
    + pose proof (Forall_lookup_1 _ _ _ _ Hopts Hq) as H2. simpl in H2.
      destruct (JS.assign (options q) oi value) as [o | ] eqn:Ho;
        [ | intros [[=] | [=]] ].
      intros [[= <-] | [=]]. apply well_shaped_insert; [ exact Hw | ].
      simpl. unfold JS.assign in Ho.
      destruct (oi <? length (options q))%nat.
      * injection Ho as <-. now rewrite length_insert.
      * destruct (oi =? length (options q))%nat; [ | discriminate ].
        injection Ho as <-. rewrite length_app. lia.
    + intros [[=] | [= <-]]. exact Hw.
Qed.

(** X3: whatever the author does on the create form, the draft keeps at
    least one question and every question keeps at least two options. *)
Theorem CreateQuiz_draft_stays_well_shaped (qs : list CreateQuiz.Draft) :
  CreateQuiz.reachable qs -> well_shaped qs.
Proof.
  induction 1 as [ | qs e qs' _ IH Hstep | qs e qs' _ IH Hstep].
  - split; [ simpl; lia | ]. constructor; [ simpl; lia | constructor ].
  - apply (well_shaped_handle e qs qs' IH). now left.
  - apply (well_shaped_handle e qs qs' IH). now right.
Qed.

(** The theorem on a session that adds a question and removes it again. *)
Lemma CreateQuiz_draft_stays_well_shaped_witness :
  well_shaped [mkQuestion tt "" [""; ""] "" 0].
Proof.
  apply (CreateQuiz_draft_stays_well_shaped [mkQuestion tt "" [""; ""] "" 0]).
  apply (CreateQuiz.reach_done
           (CreateQuiz.addQuestion CreateQuiz.initialQuestions)
           (CreateQuiz.RemoveQuestion 1)); [ | reflexivity ].
  apply (CreateQuiz.reach_done CreateQuiz.initialQuestions
           CreateQuiz.AddQuestion); [ | reflexivity ].
  apply CreateQuiz.reach_initial.
Defined.

(** X4: in the edit form, text typed into the first option of a question
    that was just added becomes the correct answer of that question,
    although no answer was chosen: [updateOption] finds the old text, the
    empty one, equal to the empty [correct_answer].  The create form
    leaves the correct answer empty. *)
Theorem EditQuiz_typing_into_new_question_chooses_answer
    (quizId now value : string) (qs : list (Question Ids)) :
  EditQuiz.updateOption (length qs) 0 value (EditQuiz.addQuestion quizId now qs)
  = Done (qs ++ [mkQuestion (mkIds ("temp-" ++ now) quizId) "" [value; ""]
                            value (Z.of_nat (length qs))])
  /\ CreateQuiz.updateOption (length qs) 0 value
       (CreateQuiz.addQuestion (forget_ids <$> qs))
     = Done ((forget_ids <$> qs)
             ++ [mkQuestion tt "" [value; ""] "" (Z.of_nat (length qs))]).
Proof.
  split.
  - rewrite EditQuiz_updateOption_run. unfold EditQuiz.addQuestion.
    rewrite lookup_app_r, Nat.sub_diag by lia. simpl.
    rewrite insert_app_r_alt, Nat.sub_diag by lia. reflexivity.
  - rewrite CreateQuiz_updateOption_run. unfold CreateQuiz.addQuestion.
    rewrite length_fmap.
    rewrite lookup_app_r, length_fmap, Nat.sub_diag by (rewrite length_fmap; lia).
    simpl.
    rewrite insert_app_r_alt, length_fmap, Nat.sub_diag
      by (rewrite length_fmap; lia).
    reflexivity.
Qed.

(** ** What the forms write to the store *)














Lemma delete_eq_quiz_id_gone (x : string) (rows : list (Question Ids)) :
  List.Forall (fun row => quiz_id (ident row) <> x)
              (Store.delete_eq_quiz_id x rows).
Proof.
  apply List.Forall_forall. intros row Hin.
  apply filter_In in Hin as [_ Hne].
  intros Heq. apply String.eqb_eq in Heq. now rewrite Heq in Hne.
Qed.


Lemma stored_quiz_id (ids : nat -> string) (quizId : string)
    (qs : list (Question Ids)) :
  List.Forall (fun row => quiz_id (ident row) = quizId)
    (Store.stored ids (EditQuizSubmit.questionsToInsert quizId qs)).
Proof.
  apply Forall_lookup. intros k row.
  unfold Store.stored, EditQuizSubmit.questionsToInsert.
  rewrite !list_lookup_imap.
  destruct (qs !! k); simpl; intros [= <-]. reflexivity.
Qed.

Lemma filter_all {A} (p : A -> bool) (l : list A) :
  List.Forall (fun x => p x = true) l -> List.filter p l = l.
Proof.
  induction 1 as [ | x l Hx _ IH]; [ reflexivity | ].
  simpl. now rewrite Hx, IH.
Qed.

Lemma filter_none {A} (p : A -> bool) (l : list A) :
  List.Forall (fun x => p x = false) l -> List.filter p l = [].
Proof.
  induction 1 as [ | x l Hx _ IH]; [ reflexivity | ].
  simpl. now rewrite Hx, IH.
Qed.


(** ** The numbering of the saved rows *)

Lemma stored_sequenced (ids : nat -> string) (batch : list (Question string)) :
  sequenced batch -> sequenced (Store.stored ids batch).
Proof.
  intros Hs k row. unfold Store.stored. rewrite list_lookup_imap.
  destruct (batch !! k) as [object | ] eqn:Hk; simpl; intros [= <-].
  simpl. now apply Hs.
Qed.

(** X7: the question rows the edit form saves are numbered by position
    whatever [order_index] the questions of the form carry; the create
    form saves the [order_index] of its drafts, which is the position in
    every draft a session of the form reaches. *)
Theorem saved_rows_numbered_by_position :
  (forall ids quizId (qs : list (Question Ids)),
      sequenced (Store.stored ids (EditQuizSubmit.questionsToInsert quizId qs)))
  /\ (forall ids quizId (qs : list CreateQuiz.Draft),
        CreateQuiz.reachable qs ->
        sequenced (Store.stored ids
                     (CreateQuizSubmit.questionsToInsert quizId qs))).
Proof.
  split.
  - intros ids quizId qs. apply stored_sequenced.
    intros k row. unfold EditQuizSubmit.questionsToInsert.
    rewrite list_lookup_imap.
    destruct (qs !! k); simpl; intros [= <-]. reflexivity.
  - intros ids quizId qs Hreach. apply stored_sequenced.
    pose proof (CreateQuiz_reachable_sequenced qs Hreach) as Hs.
    intros k row. unfold CreateQuizSubmit.questionsToInsert.
    rewrite list_lookup_fmap.
    destruct (qs !! k) as [q | ] eqn:Hk; simpl; intros [= <-].
    simpl. now apply Hs.
Qed.

(** The theorem on a draft the handlers of the create form have made:
    two questions are added and named, the first is moved down and the
    question then first is removed; and on a list of the edit form
    whose questions both carry the number 5. *)
Lemma saved_rows_numbered_by_position_witness :
  let d text (k : Z) := mkQuestion tt text [""; ""] "" k in
  let e text := mkQuestion (mkIds "r" "quiz") text ["x"; "y"] "x" 5 in
  sequenced (Store.stored (fun _ => "id")
               (CreateQuizSubmit.questionsToInsert "quiz"
                  [d "first" 0%Z; d "third" 1%Z]))
  /\ sequenced (Store.stored (fun _ => "id")
                  (EditQuizSubmit.questionsToInsert "quiz" [e "a"; e "b"])).
Proof.
  intros d e.
  destruct saved_rows_numbered_by_position as (Hedit & Hcreate).
  split; [ | apply Hedit ].
  apply Hcreate.
  apply (CreateQuiz.reach_done
           [d "second" 0%Z; d "first" 1%Z; d "third" 2%Z]
           (CreateQuiz.RemoveQuestion 0)); [ | reflexivity ].
  apply (CreateQuiz.reach_done
           [d "first" 0%Z; d "second" 1%Z; d "third" 2%Z]
           (CreateQuiz.MoveQuestion 0 down)); [ | reflexivity ].
  apply (CreateQuiz.reach_done
           [d "first" 0%Z; d "second" 1%Z; d "" 2%Z]
           (CreateQuiz.UpdateQuestion 2 question_text_field "third"));
    [ | reflexivity ].
  apply (CreateQuiz.reach_done
           [d "first" 0%Z; d "second" 1%Z]
           CreateQuiz.AddQuestion); [ | reflexivity ].
  apply (CreateQuiz.reach_done
           [d "first" 0%Z; d "" 1%Z]
           (CreateQuiz.UpdateQuestion 1 question_text_field "second"));
    [ | reflexivity ].
  apply (CreateQuiz.reach_done
           [d "" 0%Z; d "" 1%Z]
           (CreateQuiz.UpdateQuestion 0 question_text_field "first"));
    [ | reflexivity ].
  apply (CreateQuiz.reach_done CreateQuiz.initialQuestions
           CreateQuiz.AddQuestion); [ | reflexivity ].
  apply CreateQuiz.reach_initial.
Defined.

(** ** Saves that fail half way *)

(** X8: when the create form has stored the quiz and the insert of its
    questions fails, the quiz stays in the store without questions; the
    form keeps the draft, and submitting it again stores a second quiz
    of the same title and owner, to which the questions then go. *)
Theorem CreateQuiz_failed_insert_leaves_empty_quiz
    (userId id1 at1 id2 at2 : string) (ids : nat -> string)
    (form : CreateQuizSubmit.Form) (db : Store.Tables) :
  validateForm (CreateQuizSubmit.title form) (CreateQuizSubmit.questions form)
  = None ->
  let quiz newId createdAt :=
    Store.mkQuiz newId (JS.trim (CreateQuizSubmit.title form))
      (description_or_null (CreateQuizSubmit.description form))
      userId createdAt true in
  let '(shown1, form1, db1) :=
    CreateQuizSubmit.handleSubmit (Some userId)
      (CreateQuizSubmit.Created id1 at1) Store.NotInserted form db in
  let '(shown2, form2, db2) :=
    CreateQuizSubmit.handleSubmit (Some userId)
      (CreateQuizSubmit.Created id2 at2) (Store.Inserted ids) form1 db1 in
  shown1 = Failure
  /\ form1 = CreateQuizSubmit.setLoading false form
  /\ Store.quizzes db1 = Store.quizzes db ++ [quiz id1 at1]
  /\ Store.questions db1 = Store.questions db
  /\ shown2 = ToDashboard
  /\ Store.quizzes db2 = Store.quizzes db ++ [quiz id1 at1; quiz id2 at2]
  /\ Store.questions db2
     = Store.questions db
       ++ Store.stored ids
            (CreateQuizSubmit.questionsToInsert id2
               (CreateQuizSubmit.questions form))
  /\ (id1 <> id2 ->
      List.Forall (fun row => quiz_id (ident row) <> id1) (Store.questions db) ->
      List.Forall (fun row => quiz_id (ident row) <> id1) (Store.questions db2)).
Proof.
  intros Hv quiz. unfold CreateQuizSubmit.handleSubmit.
  rewrite Hv. cbn -[JS.trim description_or_null].
  rewrite Hv. cbn -[JS.trim description_or_null]. subst quiz.
  split; [ reflexivity | ]. split; [ reflexivity | ].
  split; [ reflexivity | ]. split; [ reflexivity | ].
  split; [ reflexivity | ].
  split; [ now rewrite <- app_assoc | ]. split; [ reflexivity | ].
  intros Hne Hold. apply Forall_app. split; [ exact Hold | ].
  apply Forall_lookup. intros k row.
  unfold Store.stored, CreateQuizSubmit.questionsToInsert.
  rewrite list_lookup_imap, list_lookup_fmap.
  destruct (CreateQuizSubmit.questions form !! k); simpl; intros [= <-].
  simpl. congruence.
Qed.

(** The theorem on the draft of one question "2+2" with the options 3
    and 4: after the failed and the repeated submission the store holds
    the quizzes a and b, and the only question row belongs to b. *)
Lemma CreateQuiz_failed_insert_leaves_empty_quiz_witness :
  let form :=
    CreateQuizSubmit.mkForm "Sums" ""
      [mkQuestion tt "2+2" ["3"; "4"] "4" 0] false in
  let db := Store.mkTables [] [] in
  let '(_, form1, db1) :=
    CreateQuizSubmit.handleSubmit (Some "u")
      (CreateQuizSubmit.Created "a" "t1") Store.NotInserted form db in
  let '(_, _, db2) :=
    CreateQuizSubmit.handleSubmit (Some "u")
      (CreateQuizSubmit.Created "b" "t2") (Store.Inserted (fun _ => "r"))
      form1 db1 in
  map Store.id (Store.quizzes db2) = ["a"; "b"]
  /\ map (fun row => quiz_id (ident row)) (Store.questions db2) = ["b"].
Proof.
  intros form db.
  pose proof (CreateQuiz_failed_insert_leaves_empty_quiz
                "u" "a" "t1" "b" "t2" (fun _ => "r") form db eq_refl) as H.
  cbv zeta in H. cbn in H |- *.
  destruct H as (_ & _ & _ & _ & _ & Hq & Hr & _).
  split.
  - exact (f_equal (map Store.id) Hq).
  - exact (f_equal (map (fun row => quiz_id (ident row))) Hr).
Defined.

Lemma filter_quiz_id_stored (ids : nat -> string) (quizId : string)
    (qs : list (Question Ids)) (kept : list (Question Ids)) :
  List.Forall (fun row => quiz_id (ident row) <> quizId) kept ->
  List.filter (fun row => String.eqb (quiz_id (ident row)) quizId)
    (kept ++ Store.stored ids (EditQuizSubmit.questionsToInsert quizId qs))
  = Store.stored ids (EditQuizSubmit.questionsToInsert quizId qs).
Proof.
  intros Hkept. rewrite List.filter_app.
  rewrite filter_none, filter_all; [ reflexivity | | ].
  - eapply List.Forall_impl; [ | apply stored_quiz_id ].
    intros row ->. apply String.eqb_refl.
  - eapply List.Forall_impl; [ | exact Hkept ].
    intros row Hne. now apply String.eqb_neq.
Qed.

Lemma update_eq_id_saved (x title description : string)
    (rows : list Store.Quiz) :
  quiz_saved x title description rows
    (Store.update_eq_id x (JS.trim title) (description_or_null description)
                        rows).
Proof.
  unfold quiz_saved, Store.update_eq_id. split; [ apply length_map | ].
  intros k old Hk. rewrite list_lookup_fmap, Hk. simpl.
  eexists. split; [ reflexivity | ].
  destruct (String.eqb_spec (Store.id old) x) as [E | E]; simpl.
  - do 4 (split; [ reflexivity | ]).
    split; [ intros Hne; now destruct Hne | ].
    intros _. split; [ reflexivity | ]. unfold description_or_null. split.
    + intros Hd. now rewrite Hd.
    + intros Hd.
      destruct (JS.trim description); [ now destruct Hd | reflexivity ].
  - do 4 (split; [ reflexivity | ]).
    split; [ reflexivity | ]. intros Heq. now destruct E.
Qed.

Lemma stored_questions_saved (x : string) (ids : nat -> string)
    (qs : list (Question Ids)) :
  questions_saved x ids qs
    (Store.stored ids (EditQuizSubmit.questionsToInsert x qs)).
Proof.
  unfold questions_saved, Store.stored, EditQuizSubmit.questionsToInsert.
  split; [ now rewrite !length_imap | ].
  intros k q Hk. rewrite !list_lookup_imap, Hk. simpl.
  eexists. split; [ reflexivity | ]. now repeat split.
Qed.

Lemma filter_idempotent {A} (p : A -> bool) (l : list A) :
  List.filter p (List.filter p l) = List.filter p l.
Proof.
  induction l as [ | x l IH]; [ reflexivity | ].
  simpl. destruct (p x) eqn:E; simpl; [ rewrite E | ]; now rewrite IH.
Qed.

(** The rows of the other quizzes after the delete and the insert of a
    save. *)
Lemma other_rows_after_save (x : string) (ids : nat -> string)
    (qs rows : list (Question Ids)) :
  List.filter (fun row => negb (String.eqb (quiz_id (ident row)) x))
    (Store.delete_eq_quiz_id x rows
     ++ Store.stored ids (EditQuizSubmit.questionsToInsert x qs))
  = List.filter (fun row => negb (String.eqb (quiz_id (ident row)) x)) rows.
Proof.
  rewrite List.filter_app. unfold Store.delete_eq_quiz_id.
  rewrite filter_idempotent, (filter_none _ (Store.stored _ _)).
  - apply app_nil_r.
  - eapply List.Forall_impl; [ | apply stored_quiz_id ].
    intros row ->. now rewrite String.eqb_refl.
Qed.

(** X9: what a save of the edit form, with nothing else handled while it
    runs, leaves in the store, by the call that fails.  If the update of
    the quiz fails nothing changes.  If the
    delete fails the quiz has the trimmed title and description of the
    form (no description when nothing is left of it) and the question
    rows are the old ones.  If the insert fails the quiz has no question
    left in the store, while the form still holds them.  If all succeed
    the question rows of the quiz are the questions of the form, one row
    each in the order of the form, with the texts trimmed and the
    position as [order_index].  The rows of other quizzes are the same
    in every case. *)
Theorem EditQuiz_save_by_failing_call
    (ids : nat -> string) (form : EditQuizSubmit.Form) (db : Store.Tables) :
  validateForm (EditQuizSubmit.title form) (EditQuizSubmit.questions form)
  = None ->
  let x := EditQuizSubmit.id form in
  let of_quiz rows :=
    List.filter (fun row => String.eqb (quiz_id (ident row)) x) rows in
  let of_others rows :=
    List.filter (fun row => negb (String.eqb (quiz_id (ident row)) x)) rows in
  let quiz_as_on_form db' :=
    quiz_saved x (EditQuizSubmit.title form) (EditQuizSubmit.description form)
               (Store.quizzes db) (Store.quizzes db') in
  (forall deleteReply insertReply,
      let '(shown, form', db') :=
        EditQuizSubmit.handleSubmit Store.Error deleteReply insertReply
                                    form db in
      shown = Failure
      /\ EditQuizSubmit.questions form' = EditQuizSubmit.questions form
      /\ db' = db)
  /\ (forall insertReply,
        let '(shown, form', db') :=
          EditQuizSubmit.handleSubmit Store.Ok Store.Error insertReply
                                      form db in
        shown = Failure
        /\ EditQuizSubmit.questions form' = EditQuizSubmit.questions form
        /\ quiz_as_on_form db'
        /\ Store.questions db' = Store.questions db)
  /\ (let '(shown, form', db') :=
        EditQuizSubmit.handleSubmit Store.Ok Store.Ok Store.NotInserted form db in
      shown = Failure
      /\ EditQuizSubmit.questions form' = EditQuizSubmit.questions form
      /\ quiz_as_on_form db'
      /\ of_quiz (Store.questions db') = []
      /\ of_others (Store.questions db') = of_others (Store.questions db))
  /\ (let '(shown, form', db') :=
        EditQuizSubmit.handleSubmit Store.Ok Store.Ok (Store.Inserted ids) form db in
      shown = ToDashboard
      /\ quiz_as_on_form db'
      /\ questions_saved x ids (EditQuizSubmit.questions form)
                         (of_quiz (Store.questions db'))
      /\ of_others (Store.questions db') = of_others (Store.questions db)).
Proof.
  intros Hv x of_quiz of_others quiz_as_on_form.
  unfold EditQuizSubmit.handleSubmit.
  rewrite Hv. simpl.
  subst quiz_as_on_form of_quiz of_others. cbv beta.
  split; [ now repeat split | ].
  split; [ intros _; repeat split; apply update_eq_id_saved | ].
  split.
  - split; [ reflexivity | ]. split; [ reflexivity | ].
    split; [ apply update_eq_id_saved | ]. split.
    + apply filter_none.
      eapply List.Forall_impl; [ | apply delete_eq_quiz_id_gone ].
      intros row Hne. now apply String.eqb_neq.
    + apply filter_idempotent.
  - split; [ reflexivity | ]. split; [ apply update_eq_id_saved | ].
    split.
    + rewrite filter_quiz_id_stored by apply delete_eq_quiz_id_gone.
      apply stored_questions_saved.
    + apply other_rows_after_save.
Qed.

(** The theorem on a quiz with one stored question, edited on the form
    to a title, a description and a question text with blanks around
    them: a save whose insert fails leaves the quiz without questions in
    the store; a save that succeeds leaves the title and the question
    text trimmed, no description, and the row numbered 0. *)
Lemma EditQuiz_save_by_failing_call_witness :
  let stored := mkQuestion (mkIds "r1" "quiz") "2+2" ["3"; "4"] "4" 7 in
  let other := mkQuestion (mkIds "r9" "other") "1+1" ["2"; "3"] "2" 0 in
  let form :=
    EditQuizSubmit.mkForm "quiz" " Sums " "  "
      [mkQuestion (mkIds "r1" "quiz") "2 + 2 " ["3"; "4"] "4" 7] false in
  let db :=
    Store.mkTables [Store.mkQuiz "quiz" "Sum" (Some "old") "u" "t" true]
                   [stored; other] in
  (let '(shown, _, db') :=
     EditQuizSubmit.handleSubmit Store.Ok Store.Ok Store.NotInserted form db in
   shown = Failure
   /\ List.filter (fun row => String.eqb (quiz_id (ident row)) "quiz")
                  (Store.questions db') = [])
  /\ (let '(shown, _, db') :=
        EditQuizSubmit.handleSubmit Store.Ok Store.Ok
          (Store.Inserted (fun _ => "r2")) form db in
      exists quiz row,
        Store.quizzes db' !! 0%nat = Some quiz
        /\ Store.title quiz = "Sums"
        /\ Store.description quiz = None
        /\ List.filter (fun row => String.eqb (quiz_id (ident row)) "quiz")
                       (Store.questions db') !! 0%nat = Some row
        /\ question_text row = "2 + 2"
        /\ order_index row = 0%Z).
Proof.
  intros stored other form db.
  pose proof (EditQuiz_save_by_failing_call (fun _ => "r2") form db eq_refl)
    as (_ & _ & H3 & H4).
  split.
  - cbn in H3 |- *. destruct H3 as (Hs & _ & _ & Hq & _).
    split; [ exact Hs | exact Hq ].
  - cbn -[quiz_saved questions_saved] in H4 |- *.
    destruct H4 as (_ & (_ & Hquiz) & (_ & Hrows) & _).
    destruct (Hquiz 0%nat _ eq_refl)
      as (quiz & Hk & _ & _ & _ & _ & _ & Hsaved).
    destruct (Hsaved eq_refl) as (Ht & Hd & _).
    destruct (Hrows 0%nat _ eq_refl)
      as (row & Hr & _ & _ & Htext & _ & _ & Ho).
    exists quiz, row.
    split; [ exact Hk | ]. split; [ exact Ht | ].
    split; [ now apply Hd | ].
    split; [ exact Hr | ]. split; [ exact Htext | exact Ho ].
Defined.

(** ** The quiz-taking session *)

Lemma handleAnswerChange_in_range (a : string) (st : TakeQuiz.State) :
  (TakeQuiz.currentQuestion st < length (TakeQuiz.answers st))%nat ->
  TakeQuiz.handleAnswerChange a st
  = Some (TakeQuiz.setAnswers
            (<[TakeQuiz.currentQuestion st := a]> (TakeQuiz.answers st)) st).
Proof.
  intros Hlt. unfold TakeQuiz.handleAnswerChange, JS.assign.
  destruct (Nat.ltb_spec (TakeQuiz.currentQuestion st)
                         (length (TakeQuiz.answers st))); [ reflexivity | lia ].
Qed.

Lemma handle_keeps_range (e : TakeQuiz.Event) (st st' : TakeQuiz.State) :
  TakeQuiz.handle e st = Some st' ->
  length (TakeQuiz.answers st) = length (TakeQuiz.questions st) ->
  (TakeQuiz.currentQuestion st < length (TakeQuiz.questions st))%nat ->
  TakeQuiz.questions st' = TakeQuiz.questions st
  /\ length (TakeQuiz.answers st') = length (TakeQuiz.questions st')
  /\ (TakeQuiz.currentQuestion st' < length (TakeQuiz.questions st'))%nat.
Proof.
  intros Hstep Hlen Hcq.
  destruct e as [a | | | v | v | reply]; simpl in Hstep.
  - rewrite handleAnswerChange_in_range in Hstep by lia.
    injection Hstep as <-. simpl. now rewrite length_insert.
  - injection Hstep as <-. unfold TakeQuiz.nextQuestion.
    destruct (Z.ltb_spec (Z.of_nat (TakeQuiz.currentQuestion st))
                (Z.of_nat (length (TakeQuiz.questions st)) - 1));
      simpl; repeat split; try assumption; lia.
  - injection Hstep as <-. unfold TakeQuiz.previousQuestion.
    destruct (0 <? TakeQuiz.currentQuestion st)%nat;
      simpl; repeat split; try assumption; lia.
  - injection Hstep as <-. now simpl.
  - injection Hstep as <-. now simpl.
  - injection Hstep as <-. rewrite handleSubmit_run.
    destruct (_ || _); [ now simpl | ].
    destruct (existsb _ _); [ now simpl | ].
    destruct reply; now simpl.
Qed.

(** The two halves of [handleSubmit] and the other handlers keep the
    current question among the questions and one answer slot for each
    question. *)
Lemma running_in_range (quizId : string) (qs : list (Question Ids))
    (p : option TakeQuiz.Pending) (st : TakeQuiz.State) :
  qs <> [] ->
  TakeQuiz.running quizId qs p st ->
  TakeQuiz.questions st = qs
  /\ length (TakeQuiz.answers st) = length qs
  /\ (TakeQuiz.currentQuestion st < length qs)%nat.
Proof.
  intros Hne.
  induction 1 as [ | p st e st' _ IH _ _ Hstep
                   | st p st' _ IH _ Hcall
                   | p st reply _ IH ].
  - simpl. rewrite length_replicate. repeat split.
    destruct qs; [ contradiction | simpl; lia ].
  - destruct IH as (Hq & Hl & Hc).
    destruct (handle_keeps_range e st st' Hstep) as (Hq' & Hl' & Hc');
      [ congruence | congruence | ].
    rewrite Hq' in *. rewrite Hq in *. now repeat split.
  - rewrite handleSubmit_call_run in Hcall.
    destruct (JS.falsy (JS.trim (TakeQuiz.studentName st))
              || JS.falsy (JS.trim (TakeQuiz.studentEmail st)));
      [ discriminate | ].
    destruct (existsb _ (TakeQuiz.answers st)); [ discriminate | ].
    injection Hcall as _ <-. exact IH.
  - destruct reply; exact IH.
Qed.

(** X10: in a session on a quiz that has questions, the current question
    is always one of the questions and there is one answer slot for each
    question; so choosing an answer always succeeds, stores the answer
    in the slot of the current question and leaves the other slots and
    the number of slots as they were. *)
Theorem TakeQuiz_answers_stay_in_range (quizId : string)
    (qs : list (Question Ids)) (st : TakeQuiz.State) :
  qs <> [] ->
  TakeQuiz.reachable quizId qs st ->
  TakeQuiz.questions st = qs
  /\ length (TakeQuiz.answers st) = length qs
  /\ (TakeQuiz.currentQuestion st < length qs)%nat
  /\ forall answer,
       exists st',
         TakeQuiz.handleAnswerChange answer st = Some st'
         /\ TakeQuiz.answers st' !! TakeQuiz.currentQuestion st = Some answer
         /\ (forall j, j <> TakeQuiz.currentQuestion st ->
                       TakeQuiz.answers st' !! j = TakeQuiz.answers st !! j)
         /\ length (TakeQuiz.answers st') = length qs
         /\ TakeQuiz.currentQuestion st' = TakeQuiz.currentQuestion st.
Proof.
  intros Hne [p Hrun].
  destruct (running_in_range quizId qs p st Hne Hrun) as (Hq & Hl & Hc).
  repeat split; try assumption.
  intros answer. rewrite handleAnswerChange_in_range by lia.
  eexists. split; [ reflexivity | ]. simpl. repeat split.
  - apply list_lookup_insert_eq. lia.
  - intros j Hj. now apply list_lookup_insert_ne.
  - now rewrite length_insert.
Qed.

(** The theorem on a two-question quiz after the first answer and a step
    to the second question. *)
Lemma TakeQuiz_answers_stay_in_range_witness :
  let q c := mkQuestion (mkIds "q" "z") "text" ["A"; "B"] c 0 in
  exists st',
    TakeQuiz.handleAnswerChange "B"
      (TakeQuiz.mkState "z" [q "A"; q "B"] 1 ["A"; ""] "" "" false false 0
                        false [])
    = Some st'
    /\ TakeQuiz.answers st' !! 1%nat = Some "B".
Proof.
  intros q.
  pose (s1 := TakeQuiz.mkState "z" [q "A"; q "B"] 0 ["A"; ""] "" "" false
                               false 0 false []).
  pose (s2 := TakeQuiz.mkState "z" [q "A"; q "B"] 1 ["A"; ""] "" "" false
                               false 0 false []).
  destruct (TakeQuiz_answers_stay_in_range "z" [q "A"; q "B"] s2)
    as (_ & _ & _ & H).
  - discriminate.
  - exists None.
    apply (running_handle "z" _ s1 TakeQuiz.Next);
      [ | reflexivity | reflexivity ].
    apply (running_handle "z" _ (TakeQuiz.loaded "z" [q "A"; q "B"])
             (TakeQuiz.AnswerChange "A")); [ | reflexivity | reflexivity ].
    apply TakeQuiz.run_loaded.
  - destruct (H "B") as (st' & Hrun & Hget & _).
    exists st'. split; [ exact Hrun | exact Hget ].
Defined.

(** X11: inside the quiz [previousQuestion] undoes [nextQuestion] and
    [nextQuestion] undoes [previousQuestion]; on the last question
    [nextQuestion] changes nothing, on the first [previousQuestion]
    changes nothing. *)
Theorem TakeQuiz_next_and_previous (st : TakeQuiz.State) :
  let N := length (TakeQuiz.questions st) in
  let c := TakeQuiz.currentQuestion st in
  ((c + 1 < N)%nat ->
   TakeQuiz.previousQuestion (TakeQuiz.nextQuestion st) = st)
  /\ ((0 < c)%nat -> (c < N)%nat ->
      TakeQuiz.nextQuestion (TakeQuiz.previousQuestion st) = st)
  /\ ((N <= c + 1)%nat -> TakeQuiz.nextQuestion st = st)
  /\ (c = 0%nat -> TakeQuiz.previousQuestion st = st).
Proof.
  destruct st as [i qs c a n m sg sd sc sh rs]. simpl.
  unfold TakeQuiz.nextQuestion, TakeQuiz.previousQuestion. simpl.
  repeat split.
  - intros H.
    destruct (Z.ltb_spec (Z.of_nat c) (Z.of_nat (length qs) - 1)); [ | lia ].
    simpl. destruct (Nat.ltb_spec 0 (c + 1)); [ | lia ].
    unfold TakeQuiz.setCurrentQuestion. simpl. f_equal. lia.
  - intros H0 H.
    destruct (Nat.ltb_spec 0 c); [ | lia ]. simpl.
    destruct (Z.ltb_spec (Z.of_nat (c - 1)) (Z.of_nat (length qs) - 1)); [ | lia ].
    unfold TakeQuiz.setCurrentQuestion. simpl. f_equal. lia.
  - intros H.
    destruct (Z.ltb_spec (Z.of_nat c) (Z.of_nat (length qs) - 1)); [ lia | ].
    reflexivity.
  - intros ->. reflexivity.
Qed.

Lemma TakeQuiz_next_and_previous_witness :
  let q := mkQuestion (mkIds "q" "z") "text" ["A"; "B"] "A" 0 in
  let st := TakeQuiz.mkState "z" [q; q; q] 1 ["A"; ""; ""] "" "" false false 0
                             false [] in
  TakeQuiz.previousQuestion (TakeQuiz.nextQuestion st) = st
  /\ TakeQuiz.nextQuestion (TakeQuiz.previousQuestion st) = st.
Proof.
  intros q st.
  destruct (TakeQuiz_next_and_previous st) as (H1 & H2 & _).
  split; [ apply H1 | apply H2 ]; simpl; lia.
Defined.

Lemma length_filter_full {A} (P : A -> Prop) `{!forall x, Decision (P x)}
    (l : list A) :
  length (filter P l) = length l <-> List.Forall P l.
Proof.
  induction l as [ | x l IH].
  - split; [ constructor | reflexivity ].
  - rewrite filter_cons. pose proof (length_filter P l) as Hle.
    destruct (decide (P x)) as [Hx | Hx]; simpl.
    + split.
      * intros Hall. constructor; [ exact Hx | apply IH; lia ].
      * intros Hall. inversion Hall; subst. f_equal. now apply IH.
    + split; [ lia | ]. intros Hall. now inversion Hall.
Qed.

Lemma length_filter_none {A} (P : A -> Prop) `{!forall x, Decision (P x)}
    (l : list A) :
  length (filter P l) = 0%nat <-> List.Forall (fun x => ~ P x) l.
Proof.
  induction l as [ | x l IH].
  - split; [ constructor | reflexivity ].
  - rewrite filter_cons.
    destruct (decide (P x)) as [Hx | Hx]; simpl.
    + split; [ lia | ]. intros Hall. now inversion Hall.
    + split.
      * intros Hall. constructor; [ exact Hx | now apply IH ].
      * intros Hall. inversion Hall; subst. now apply IH.
Qed.

(** X12: the score is at most the number of questions; it is the number
    of questions exactly when every question has its correct answer in
    its slot, and zero exactly when no question has. *)
Theorem TakeQuiz_score_bounds (st : TakeQuiz.State) :
  let questions := TakeQuiz.questions st in
  let answers := TakeQuiz.answers st in
  (TakeQuiz.calculateScore st <= length questions)%nat
  /\ (TakeQuiz.calculateScore st = length questions
      <-> forall i q, questions !! i = Some q ->
                      answers !! i = Some (correct_answer q))
  /\ (TakeQuiz.calculateScore st = 0%nat
      <-> forall i q, questions !! i = Some q ->
                      answers !! i <> Some (correct_answer q)).
Proof.
  intros questions answers. rewrite calculateScore_counts.
  unfold count_correct. fold questions answers.
  set (P := fun i : nat => answers !! i = correct_answer <$> questions !! i).
  assert (Hseq : forall Q : nat -> Prop,
             List.Forall Q (seq 0 (length questions))
             <-> forall i q, questions !! i = Some q -> Q i).
  { intros Q. rewrite List.Forall_forall. split.
    - intros H i q Hq. apply H. apply in_seq.
      apply lookup_lt_Some in Hq. lia.
    - intros H i Hi. apply in_seq in Hi.
      destruct (lookup_lt_is_Some_2 questions i) as [q Hq]; [ lia | ].
      now apply (H i q). }
  split; [ | split ].
  - pose proof (length_filter P (seq 0 (length questions))) as H.
    now rewrite length_seq in H.
  - pose proof (length_filter_full P (seq 0 (length questions))) as Hfull.
    rewrite length_seq in Hfull. rewrite Hfull, Hseq. unfold P.
    split; intros H i q Hq; specialize (H i q Hq); now rewrite Hq in *.
  - rewrite length_filter_none, Hseq. unfold P.
    split; intros H i q Hq; specialize (H i q Hq); now rewrite Hq in *.
Qed.

(** X13: a session inserts at most one response, whatever the taker
    does while a call of [handleSubmit] awaits the store.  While the
    results are not shown it has inserted none; once they are shown it
    has inserted exactly one, the score shown is the score of that
    response, and that score is the number of the answers of that
    response that are the correct ones, which need not be the answers
    the page then holds. *)
Theorem TakeQuiz_one_response_per_session (quizId : string)
    (qs : list (Question Ids)) (st : TakeQuiz.State) :
  TakeQuiz.reachable quizId qs st ->
  TakeQuiz.submitted st = TakeQuiz.showResults st
  /\ if TakeQuiz.showResults st
     then exists inserted answers,
            TakeQuiz.responses st = [inserted]
            /\ TakeQuiz.get "quiz_id" inserted = Some (TakeQuiz.JString quizId)
            /\ TakeQuiz.get "answers" inserted = Some (TakeQuiz.JStrings answers)
            /\ TakeQuiz.get "score" inserted
               = Some (TakeQuiz.JNumber (Z.of_nat (TakeQuiz.score st)))
            /\ TakeQuiz.get "total_questions" inserted
               = Some (TakeQuiz.JNumber (Z.of_nat (length qs)))
            /\ TakeQuiz.score st = count_correct qs answers
     else TakeQuiz.responses st = [] /\ TakeQuiz.score st = 0%nat.
Proof.
  intros [p Hrun].
  destruct (running_invariant quizId qs p st Hrun) as (_ & _ & Hsub & _ & H).
  split; [ exact Hsub | ].
  destruct (TakeQuiz.showResults st); [ | exact H ].
  destruct H as (inserted & Hresp & name & email & answers
                 & -> & _ & _ & _ & Hscore).
  eexists; exists answers. split; [ exact Hresp | ].
  now repeat split.
Qed.

(** The theorem on a one-question quiz: the taker chooses A, submits,
    and chooses B while the store has not replied; the response inserted
    and the score shown are those of A. *)
Lemma TakeQuiz_one_response_per_session_witness :
  let q := mkQuestion (mkIds "q" "z") "text" ["A"; "B"] "A" 0 in
  let called :=
    TakeQuiz.mkState "z" [q] 0 ["A"] "Ann" "ann@x.org" false false 0
                     false [] in
  let st :=
    TakeQuiz.mkState "z" [q] 0 ["B"] "Ann" "ann@x.org" false true 1 true
                     [TakeQuiz.row called 1] in
  exists inserted,
    TakeQuiz.responses st = [inserted]
    /\ TakeQuiz.get "score" inserted = Some (TakeQuiz.JNumber 1)
    /\ TakeQuiz.calculateScore st = 0%nat.
Proof.
  intros q called st.
  pose (s0 := TakeQuiz.loaded "z" [q]).
  pose (s1 := TakeQuiz.setAnswers ["A"] s0).
  pose (s2 := TakeQuiz.setStudentName "Ann" s1).
  pose (s4 := TakeQuiz.setSubmitting true called).
  pose (s5 := TakeQuiz.setAnswers ["B"] s4).
  assert (Hreach : TakeQuiz.reachable "z" [q] st).
  { exists None.
    apply (TakeQuiz.run_resume "z" [q]
             (TakeQuiz.mkPending (TakeQuiz.row called 1) 1) s5
             TakeQuiz.Inserted).
    apply (TakeQuiz.run_handle "z" [q] _ s4 (TakeQuiz.AnswerChange "B"));
      [ | reflexivity | intros reply; discriminate | reflexivity ].
    apply (TakeQuiz.run_call "z" [q] called); [ | reflexivity | reflexivity ].
    apply (running_handle "z" _ s2 (TakeQuiz.StudentEmail "ann@x.org"));
      [ | reflexivity | reflexivity ].
    apply (running_handle "z" _ s1 (TakeQuiz.StudentName "Ann"));
      [ | reflexivity | reflexivity ].
    apply (running_handle "z" _ s0 (TakeQuiz.AnswerChange "A"));
      [ | reflexivity | reflexivity ].
    apply TakeQuiz.run_loaded. }
  destruct (TakeQuiz_one_response_per_session "z" [q] st Hreach)
    as (_ & H).
  change (TakeQuiz.showResults st) with true in H. cbv iota in H.
  destruct H as (inserted & answers & Hr & _ & _ & Hs & _).
  exists inserted. split; [ exact Hr | ]. split; [ exact Hs | reflexivity ].
Defined.

(** X14: a submission the store refuses inserts nothing, shows nothing
    and keeps the names and the answers; a submission made after it ends
    as it would have ended in its place. *)
Theorem TakeQuiz_failed_submit_can_be_retried (st : TakeQuiz.State) :
  let st1 := snd (TakeQuiz.handleSubmit TakeQuiz.Failed st) in
  fst (TakeQuiz.handleSubmit TakeQuiz.Failed st) <> None
  /\ TakeQuiz.responses st1 = TakeQuiz.responses st
  /\ TakeQuiz.showResults st1 = TakeQuiz.showResults st
  /\ TakeQuiz.submitted st1 = TakeQuiz.submitted st
  /\ TakeQuiz.score st1 = TakeQuiz.score st
  /\ TakeQuiz.answers st1 = TakeQuiz.answers st
  /\ TakeQuiz.currentQuestion st1 = TakeQuiz.currentQuestion st
  /\ TakeQuiz.studentName st1 = TakeQuiz.studentName st
  /\ TakeQuiz.studentEmail st1 = TakeQuiz.studentEmail st
  /\ forall reply,
       TakeQuiz.handleSubmit reply st1 = TakeQuiz.handleSubmit reply st.
Proof.
  cbv zeta. rewrite (handleSubmit_run TakeQuiz.Failed).
  destruct (_ || _) eqn:Hn; [ now repeat split | ].
  destruct (existsb _ _) eqn:Ha; [ now repeat split | ].
  simpl. repeat split; try discriminate.
  intros reply. rewrite !handleSubmit_run. simpl.
  rewrite Hn, Ha. destruct reply; reflexivity.
Qed.

(** ** The name of the downloaded file *)

Lemma stem_char (c : ascii) :
  let c' := Download.lowerChar
              (if Download.isAlphanumeric c then c else "_"%char) in
  plain_char c' = true
  /\ Download.isAlphanumeric c' || (nat_of_ascii c' =? 95)%nat = true
  /\ Download.lowerChar (if Download.isAlphanumeric c' then c' else "_"%char)
     = c'
  /\ (plain_char c = true -> c' = c).
Proof.
  destruct c as [[] [] [] [] [] [] [] []]; vm_compute;
    repeat split; (reflexivity || discriminate).
Qed.

(** X15: the stem of the file name has a character for each character
    of the title, all of them digits, small letters or underscores; the
    digits, small letters and underscores of the title stay as they are,
    so a title made of them is its own stem, and the stem of a stem is
    that stem. *)
Theorem Download_stem_is_plain (title : string) :
  String.length (Download.stem title) = String.length title
  /\ plain (Download.stem title) = true
  /\ (forall i c, String.get i title = Some c -> plain_char c = true ->
                  String.get i (Download.stem title) = Some c)
  /\ (plain title = true -> Download.stem title = title)
  /\ Download.stem (Download.stem title) = Download.stem title.
Proof.
  unfold Download.stem.
  induction title as [ | c title (IHlen & IHplain & IHget & IHfix & IHidem)].
  - repeat split; try reflexivity. intros i c H. destruct i; discriminate.
  - destruct (stem_char c) as (Hp & _ & Hi & Hk). cbv zeta in *.
    cbn [Download.replaceOthers Download.toLowerCase String.length plain].
    repeat split.
    + now rewrite IHlen.
    + now rewrite Hp, IHplain.
    + intros i c0 Hget Hc0. destruct i as [ | i]; simpl in Hget |- *.
      * injection Hget as ->. now rewrite (Hk Hc0).
      * now apply IHget.
    + intros H. apply andb_prop in H as (Hc & Ht).
      now rewrite (Hk Hc), (IHfix Ht).
    + now rewrite Hi, IHidem.
Qed.

Lemma Download_stem_is_plain_witness :
  Download.stem "quiz_1" = "quiz_1"
  /\ Download.fileName "Quiz 1: Sets & Maps" = "quiz_1__sets___maps_results.csv".
Proof.
  destruct (Download_stem_is_plain "quiz_1") as (_ & _ & _ & Hfix & _).
  split; [ apply Hfix | ]; reflexivity.
Defined.

(** ** The dashboard *)

Lemma unique_ids_same_row (rows : list Store.Quiz) (a b : Store.Quiz) :
  unique_ids rows -> In a rows -> In b rows ->
  Store.id a = Store.id b -> a = b.
Proof.
  unfold unique_ids. induction rows as [ | r rows IH]; [ contradiction | ].
  simpl. intros Hnd [-> | Ha] [-> | Hb] Hid.
  - reflexivity.
  - apply NoDup_cons in Hnd as (Hnot & _). exfalso. apply Hnot.
    rewrite Hid. apply list_elem_of_In. now apply in_map.
  - apply NoDup_cons in Hnd as (Hnot & _). exfalso. apply Hnot.
    rewrite <- Hid. apply list_elem_of_In. now apply in_map.
  - apply NoDup_cons in Hnd as (_ & Hnd). now apply IH.
Qed.

Lemma update_is_active_ids (x : string) (b : bool) (rows : list Store.Quiz) :
  map Store.id (Dashboard.update_is_active x b rows) = map Store.id rows.
Proof.
  unfold Dashboard.update_is_active. rewrite map_map. apply map_ext.
  intros row. now destruct (String.eqb _ _).
Qed.

Lemma toggle_ids (quiz : Store.Quiz) (reply : Store.Reply)
    (st : Dashboard.State) :
  map Store.id (Dashboard.quizzes (Dashboard.toggleQuizStatus quiz reply st))
  = map Store.id (Dashboard.quizzes st).
Proof.
  destruct reply; [ | reflexivity ]. simpl. rewrite map_map. apply map_ext.
  intros q. now destruct (String.eqb _ _).
Qed.

Lemma toggled_toggled (q : Store.Quiz) : toggled (toggled q) = q.
Proof. destruct q as [i t d c a b]. unfold toggled. simpl. now rewrite negb_involutive. Qed.

(** Under unique ids the update of the store and the map over the list
    do the same to a row that both hold. *)
Lemma update_is_toggle (quiz : Store.Quiz) (rows : list Store.Quiz)
    (q : Store.Quiz) :
  unique_ids rows -> In quiz rows -> In q rows ->
  (if String.eqb (Store.id q) (Store.id quiz)
   then Store.mkQuiz (Store.id q) (Store.title q) (Store.description q)
          (Store.created_by q) (Store.created_at q)
          (negb (Store.is_active quiz))
   else q)
  = if String.eqb (Store.id q) (Store.id quiz) then toggled q else q.
Proof.
  intros Hu Hquiz Hq. destruct (String.eqb_spec (Store.id q) (Store.id quiz)) as [E | E];
    [ | reflexivity ].
  now rewrite (unique_ids_same_row rows q quiz Hu Hq Hquiz E).
Qed.

Lemma toggle_other_ids (x : string) (l : list Store.Quiz) :
  ~ In x (map Store.id l) ->
  map (fun q => if String.eqb (Store.id q) x then toggled q else q) l = l.
Proof.
  induction l as [ | q l IH]; [ reflexivity | ].
  simpl. intros Hout.
  destruct (String.eqb_spec (Store.id q) x) as [E | E];
    [ exfalso; apply Hout; now left | ].
  rewrite IH; [ reflexivity | ]. intros Hin. apply Hout. now right.
Qed.

Lemma activeQuizzes_toggle (quiz : Store.Quiz) (l : list Store.Quiz) :
  NoDup (map Store.id l) -> In quiz l ->
  (length (List.filter Store.is_active
             (map (fun q => if String.eqb (Store.id q) (Store.id quiz)
                            then toggled q else q) l))
   + (if Store.is_active quiz then 1 else 0)
   = length (List.filter Store.is_active l)
     + (if Store.is_active quiz then 0 else 1))%nat.
Proof.
  induction l as [ | q l IH]; [ contradiction | ].
  intros Hnd Hin. apply NoDup_cons in Hnd as (Hnot & Hnd).
  cbn [map List.filter]. destruct Hin as [-> | Hin].
  - rewrite String.eqb_refl, toggle_other_ids
      by (intros H; apply Hnot; now apply list_elem_of_In).
    unfold toggled. cbn [Store.is_active].
    destruct (Store.is_active quiz); cbn [negb length]; lia.
  - destruct (String.eqb_spec (Store.id q) (Store.id quiz)) as [E | E].
    + exfalso. apply Hnot. rewrite E. apply list_elem_of_In. now apply in_map.
    + specialize (IH Hnd Hin).
      destruct (Store.is_active q); cbn [length]; lia.
Qed.

Lemma toggle_as_map (quiz : Store.Quiz) (st : Dashboard.State) :
  unique_ids (Dashboard.table st) -> In quiz (Dashboard.table st) ->
  let tog q := if String.eqb (Store.id q) (Store.id quiz)
               then toggled q else q in
  Dashboard.toggleQuizStatus quiz Store.Ok st
  = Dashboard.mkState (map tog (Dashboard.quizzes st))
                      (Dashboard.responseCounts st)
                      (map tog (Dashboard.table st)).
Proof.
  intros Hu Hin tog. unfold Dashboard.toggleQuizStatus. f_equal.
  unfold Dashboard.update_is_active. apply map_ext_in. intros q Hq.
  apply (update_is_toggle quiz (Dashboard.table st) q Hu Hin Hq).
Qed.

Lemma In_toggle_other (quiz : Store.Quiz) (l : list Store.Quiz)
    (q : Store.Quiz) :
  Store.id q <> Store.id quiz ->
  In q (map (fun q => if String.eqb (Store.id q) (Store.id quiz)
                      then toggled q else q) l)
  <-> In q l.
Proof.
  intros Hne. rewrite in_map_iff. split.
  - intros (q0 & Hq0 & Hin).
    destruct (String.eqb_spec (Store.id q0) (Store.id quiz)) as [E | E].
    + subst q. now destruct Hne.
    + now subst q0.
  - intros Hin. exists q. split; [ | exact Hin ].
    now destruct (String.eqb_spec (Store.id q) (Store.id quiz)).
Qed.

Lemma toggle_map_ids (quiz : Store.Quiz) (l : list Store.Quiz) :
  map Store.id (map (fun q => if String.eqb (Store.id q) (Store.id quiz)
                              then toggled q else q) l)
  = map Store.id l.
Proof.
  rewrite map_map. apply map_ext. intros q. now destruct (String.eqb _ _).
Qed.

(** X16: on a dashboard whose quizzes are rows of the store, with ids of
    their own, switching a listed quiz keeps the list in step with the
    store whatever the store replies: a refused update changes nothing;
    an applied one puts the quiz with the other status in the list and
    in the store, keeps every quiz of another id as it is and the ids
    of the list in their order, and moves the number of active quizzes
    by exactly one. *)
Theorem Dashboard_toggle_keeps_list_in_step (quiz : Store.Quiz)
    (reply : Store.Reply) (st : Dashboard.State) :
  unique_ids (Dashboard.table st) ->
  unique_ids (Dashboard.quizzes st) ->
  listed_in_store st ->
  In quiz (Dashboard.quizzes st) ->
  let st' := Dashboard.toggleQuizStatus quiz reply st in
  listed_in_store st'
  /\ unique_ids (Dashboard.table st')
  /\ map Store.id (Dashboard.quizzes st') = map Store.id (Dashboard.quizzes st)
  /\ (reply = Store.Error -> st' = st)
  /\ (reply = Store.Ok ->
      In (toggled quiz) (Dashboard.quizzes st')
      /\ In (toggled quiz) (Dashboard.table st')
      /\ (forall q, Store.id q <> Store.id quiz ->
                    (In q (Dashboard.quizzes st') <-> In q (Dashboard.quizzes st))
                    /\ (In q (Dashboard.table st') <-> In q (Dashboard.table st)))
      /\ (Dashboard.activeQuizzes st'
          + (if Store.is_active quiz then 1 else 0)
          = Dashboard.activeQuizzes st
            + (if Store.is_active quiz then 0 else 1))%nat).
Proof.
  intros Hut Huq Hlisted Hin st'. subst st'.
  destruct reply.
  2:{ simpl. repeat split; try assumption; discriminate. }
  rewrite (toggle_as_map quiz st Hut (Hlisted quiz Hin)). cbv zeta.
  cbn [Dashboard.quizzes Dashboard.table].
  assert (Htog : forall l, In quiz l ->
             In (toggled quiz)
                (map (fun q => if String.eqb (Store.id q) (Store.id quiz)
                               then toggled q else q) l)).
  { intros l Hl. apply in_map_iff. exists quiz.
    now rewrite String.eqb_refl. }
  split; [ | split; [ | split; [ | split ] ] ].
  - unfold listed_in_store. cbn [Dashboard.quizzes Dashboard.table].
    intros q Hq. apply in_map_iff in Hq as (q0 & <- & Hq0).
    apply in_map_iff. exists q0. split; [ reflexivity | now apply Hlisted ].
  - unfold unique_ids. cbn [Dashboard.table]. now rewrite toggle_map_ids.
  - apply toggle_map_ids.
  - discriminate.
  - intros _. split; [ now apply Htog | ].
    split; [ apply Htog; now apply Hlisted | ].
    split.
    + intros q Hne. split; now apply In_toggle_other.
    + unfold Dashboard.activeQuizzes. cbn [Dashboard.quizzes].
      now apply activeQuizzes_toggle.
Qed.

Lemma Dashboard_toggle_keeps_list_in_step_witness :
  let a := Store.mkQuiz "a" "Sets" None "u" "t1" true in
  let b := Store.mkQuiz "b" "Maps" None "u" "t2" false in
  let c := Store.mkQuiz "c" "Trees" None "v" "t3" true in
  let st := Dashboard.mkState [b; a] [("a", 2%nat)] [a; b; c] in
  let st' := Dashboard.toggleQuizStatus b Store.Ok st in
  In (toggled b) (Dashboard.table st')
  /\ (Dashboard.activeQuizzes st' + 0 = 1 + 1)%nat.
Proof.
  intros a b c st st'.
  destruct (Dashboard_toggle_keeps_list_in_step b Store.Ok st)
    as (_ & _ & _ & _ & H).
  - unfold unique_ids. now apply (bool_decide_unpack _).
  - unfold unique_ids. now apply (bool_decide_unpack _).
  - intros q [<- | [<- | []]]; simpl; tauto.
  - now left.
  - destruct (H eq_refl) as (_ & Hin & _ & Hcount).
    split; [ exact Hin | exact Hcount ].
Defined.

(** X17: on such a dashboard, switching a listed quiz and then switching
    it again, through the entry the list then shows, leaves the list and
    the store as they were. *)
Theorem Dashboard_toggle_twice_restores (quiz : Store.Quiz)
    (st : Dashboard.State) :
  unique_ids (Dashboard.table st) ->
  listed_in_store st ->
  In quiz (Dashboard.quizzes st) ->
  let st1 := Dashboard.toggleQuizStatus quiz Store.Ok st in
  In (toggled quiz) (Dashboard.quizzes st1)
  /\ Dashboard.toggleQuizStatus (toggled quiz) Store.Ok st1 = st.
Proof.
  intros Hut Hlisted Hin st1.
  assert (Hst1 := toggle_as_map quiz st Hut (Hlisted quiz Hin)).
  cbv zeta in Hst1. fold st1 in Hst1.
  set (tog := fun q : Store.Quiz =>
                if String.eqb (Store.id q) (Store.id quiz)
                then toggled q else q) in *.
  assert (Hu1 : unique_ids (Dashboard.table st1)).
  { rewrite Hst1. unfold unique_ids. cbn [Dashboard.table].
    unfold tog. now rewrite toggle_map_ids. }
  assert (Hin1 : In (toggled quiz) (Dashboard.table st1)).
  { rewrite Hst1. cbn [Dashboard.table]. apply in_map_iff. exists quiz.
    split; [ unfold tog; now rewrite String.eqb_refl | now apply Hlisted ]. }
  split.
  - rewrite Hst1. cbn [Dashboard.quizzes]. apply in_map_iff. exists quiz.
    split; [ unfold tog; now rewrite String.eqb_refl | exact Hin ].
  - rewrite (toggle_as_map (toggled quiz) st1 Hu1 Hin1). cbv zeta.
    rewrite Hst1. cbn [Dashboard.quizzes Dashboard.table Dashboard.responseCounts].
    assert (Hback : forall l : list Store.Quiz,
               map (fun q => if String.eqb (Store.id q) (Store.id (toggled quiz))
                             then toggled q else q) (map tog l) = l).
    { intros l. rewrite map_map. rewrite <- (map_id l) at 2.
      apply map_ext. intros q. unfold tog. cbn [toggled Store.id].
      destruct (String.eqb_spec (Store.id q) (Store.id quiz)) as [E | E].
      - cbn [toggled Store.id]. rewrite E, String.eqb_refl.
        apply toggled_toggled.
      - now destruct (String.eqb_spec (Store.id q) (Store.id quiz)). }
    rewrite !Hback. now destruct st.
Qed.

Lemma Dashboard_toggle_twice_restores_witness :
  let a := Store.mkQuiz "a" "Sets" None "u" "t1" true in
  let b := Store.mkQuiz "b" "Maps" None "u" "t2" false in
  let st := Dashboard.mkState [b; a] [("a", 2%nat)] [a; b] in
  Dashboard.toggleQuizStatus (toggled a) Store.Ok
    (Dashboard.toggleQuizStatus a Store.Ok st) = st.
Proof.
  intros a b st.
  apply (Dashboard_toggle_twice_restores a st).
  - unfold unique_ids. now apply (bool_decide_unpack _).
  - intros q [<- | [<- | []]]; simpl; tauto.
  - right. now left.
Defined.

(** X18: [deleteQuiz] changes nothing when the user declines or the
    store refuses.  Otherwise the list and the store lose exactly the
    quizzes of that id, the others keeping their order, and the list
    stays in step with the store; but the response counts are kept as
    they were, that of the deleted quiz too, so the total of the
    responses is the same as before. *)
Theorem Dashboard_deleteQuiz_drops_quiz_keeps_counts (quizId : string)
    (confirmed : bool) (reply : Store.Reply) (st : Dashboard.State) :
  let st' := Dashboard.deleteQuiz quizId confirmed reply st in
  (confirmed = false \/ reply = Store.Error -> st' = st)
  /\ (confirmed = true -> reply = Store.Ok ->
      (forall q, In q (Dashboard.quizzes st')
                 <-> In q (Dashboard.quizzes st) /\ Store.id q <> quizId)
      /\ (forall q, In q (Dashboard.table st')
                    <-> In q (Dashboard.table st) /\ Store.id q <> quizId)
      /\ sublist (Dashboard.quizzes st') (Dashboard.quizzes st))
  /\ (listed_in_store st -> listed_in_store st')
  /\ Dashboard.responseCounts st' = Dashboard.responseCounts st
  /\ Dashboard.totalResponses st' = Dashboard.totalResponses st.
Proof.
  assert (Hfilter : forall (l : list Store.Quiz) q,
             In q (List.filter
                     (fun quiz => negb (String.eqb (Store.id quiz) quizId)) l)
             <-> In q l /\ Store.id q <> quizId).
  { intros l q. rewrite filter_In, negb_true_iff.
    now destruct (String.eqb_spec (Store.id q) quizId). }
  assert (Hsub : forall l : list Store.Quiz,
             sublist (List.filter
                        (fun quiz => negb (String.eqb (Store.id quiz) quizId)) l)
                     l).
  { induction l as [ | q l IH]; [ constructor | ]. simpl.
    destruct (negb _); now constructor. }
  cbv zeta. unfold Dashboard.deleteQuiz.
  destruct confirmed, reply; simpl.
  - split; [ intros [H | H]; discriminate | ].
    split; [ intros _ _; split; [ | split ];
             [ intros q; apply Hfilter | intros q; apply Hfilter | apply Hsub ]
           | ].
    split; [ | now split ].
    intros Hlisted q Hq. cbn [Dashboard.quizzes Dashboard.table] in *.
    unfold Dashboard.delete_eq_id.
    apply Hfilter in Hq as (Hq & Hne). apply Hfilter. split;
      [ now apply Hlisted | exact Hne ].
  - repeat split; try discriminate; tauto.
  - repeat split; try discriminate; tauto.
  - repeat split; try discriminate; tauto.
Qed.

(** ** Moving a question *)

Lemma lookup_resequence {I} (qs : list (Question I)) (k : nat) :
  resequence qs !! k = (fun q => set_order_index q (Z.of_nat k)) <$> qs !! k.
Proof. unfold resequence. apply list_lookup_imap. Qed.

Lemma moveQuestion_down_inside {I} (index : nat) (qs : list (Question I))
    (qi qn : Question I) :
  qs !! index = Some qi -> qs !! S index = Some qn ->
  moveQuestion index down qs
  = Done (resequence (<[S index := qi]> (<[index := qn]> qs))).
Proof.
  intros Hi Hn. rewrite moveQuestion_run.
  replace (neighbour index down) with (Z.of_nat (S index))
    by (unfold neighbour; lia).
  rewrite Nat2Z.id, Hi, Hn. apply lookup_lt_Some in Hn.
  destruct (Z.ltb_spec (Z.of_nat (S index)) 0); [ lia | ].
  destruct (Z.leb_spec (Z.of_nat (length qs)) (Z.of_nat (S index)));
    [ lia | reflexivity ].
Qed.

Lemma moveQuestion_up_inside {I} (index : nat) (qs : list (Question I))
    (qi qn : Question I) :
  qs !! index = Some qi -> qs !! S index = Some qn ->
  moveQuestion (S index) up qs
  = Done (resequence (<[S index := qi]> (<[index := qn]> qs))).
Proof.
  intros Hi Hn. rewrite moveQuestion_run.
  replace (neighbour (S index) up) with (Z.of_nat index)
    by (unfold neighbour; lia).
  rewrite Nat2Z.id, Hi, Hn. apply lookup_lt_Some in Hn.
  destruct (Z.ltb_spec (Z.of_nat index) 0); [ lia | ].
  destruct (Z.leb_spec (Z.of_nat (length qs)) (Z.of_nat index)); [ lia | ].
  f_equal. f_equal. apply list_insert_insert_ne. lia.
Qed.

(** X19: moving the question at [index] down and moving the question
    after it up are the same step: the two questions change places and
    every question is numbered by its new position.  Taking the step
    twice gives the questions in their first order, numbered by
    position: the list as it was when it was numbered so. *)
Theorem moveQuestion_there_and_back {I} (index : nat)
    (qs : list (Question I)) :
  (index + 1 < length qs)%nat ->
  exists moved,
    moveQuestion index down qs = Done moved
    /\ moveQuestion (index + 1) up qs = Done moved
    /\ length moved = length qs
    /\ moved !! index
       = (fun q => set_order_index q (Z.of_nat index)) <$> qs !! (index + 1)%nat
    /\ moved !! (index + 1)%nat
       = (fun q => set_order_index q (Z.of_nat (index + 1))) <$> qs !! index
    /\ (forall k, k <> index -> k <> (index + 1)%nat ->
                  moved !! k
                  = (fun q => set_order_index q (Z.of_nat k)) <$> qs !! k)
    /\ moveQuestion (index + 1) up moved = Done (resequence qs)
    /\ moveQuestion index down moved = Done (resequence qs)
    /\ (sequenced qs -> resequence qs = qs).
Proof.
  rewrite Nat.add_1_r. intros Hlt.
  destruct (lookup_lt_is_Some_2 qs index) as [qi Hi]; [ lia | ].
  destruct (lookup_lt_is_Some_2 qs (S index) Hlt) as [qn Hn].
  set (moved := resequence (<[S index := qi]> (<[index := qn]> qs))).
  assert (Hmi : moved !! index = Some (set_order_index qn (Z.of_nat index))).
  { unfold moved. rewrite lookup_resequence, list_lookup_insert_ne by lia.
    rewrite list_lookup_insert_eq by lia. reflexivity. }
  assert (Hmn : moved !! S index
                = Some (set_order_index qi (Z.of_nat (S index)))).
  { unfold moved. rewrite lookup_resequence, list_lookup_insert_eq;
      [ reflexivity | rewrite length_insert; lia ]. }
  assert (Hmk : forall k, k <> index -> k <> S index ->
              moved !! k
              = (fun q => set_order_index q (Z.of_nat k)) <$> qs !! k).
  { intros k H1 H2. unfold moved.
    now rewrite lookup_resequence, !list_lookup_insert_ne by lia. }
  assert (Hback : resequence
                    (<[S index := set_order_index qn (Z.of_nat index)]>
                       (<[index := set_order_index qi (Z.of_nat (S index))]>
                          moved))
                  = resequence qs).
  { apply list_eq. intros k. rewrite !lookup_resequence.
    destruct (decide (k = S index)) as [-> | H2].
    - rewrite list_lookup_insert_eq, Hn; [ reflexivity | ].
      unfold moved. rewrite length_insert, length_resequence, !length_insert.
      lia.
    - rewrite list_lookup_insert_ne by lia.
      destruct (decide (k = index)) as [-> | H1].
      + rewrite list_lookup_insert_eq, Hi; [ reflexivity | ].
        unfold moved. rewrite length_resequence, !length_insert. lia.
      + rewrite list_lookup_insert_ne, Hmk by lia.
        now destruct (qs !! k). }
  exists moved. split; [ | split; [ | split; [ | split; [ | split;
    [ | split; [ | split; [ | split ] ] ] ] ] ] ].
  - now apply moveQuestion_down_inside.
  - now apply moveQuestion_up_inside.
  - unfold moved. now rewrite length_resequence, !length_insert.
  - now rewrite Hmi, Hn.
  - now rewrite Hmn, Hi.
  - exact Hmk.
  - rewrite (moveQuestion_up_inside index moved _ _ Hmi Hmn). now rewrite Hback.
  - rewrite (moveQuestion_down_inside index moved _ _ Hmi Hmn).
    now rewrite Hback.
  - intros Hseq. apply list_eq. intros k. rewrite lookup_resequence.
    destruct (qs !! k) as [q | ] eqn:Hk; [ | reflexivity ].
    simpl. f_equal. specialize (Hseq k q Hk). destruct q. simpl in *.
    unfold set_order_index. simpl. now rewrite Hseq.
Qed.

Lemma moveQuestion_there_and_back_witness :
  let a := mkQuestion tt "first" ["A"; "B"] "A" 0 in
  let b := mkQuestion tt "second" ["C"; "D"] "D" 1 in
  exists moved,
    moveQuestion 0 down [a; b] = Done moved
    /\ moveQuestion 1 up moved = Done (resequence [a; b]).
Proof.
  intros a b.
  destruct (moveQuestion_there_and_back 0 [a; b]) as (moved & H1 & _ & _ & _ & _ & _ & H2 & _).
  - simpl. lia.
  - exists moved. split; [ exact H1 | exact H2 ].
Defined.
